(** * certstore: signing identities over native certificate stores

    A shallow embedding of [certstore_windows.go] and [certstore_linux.go].

    The Go code is a thin, stateful layer over the Windows CryptoAPI / CNG
    libraries (reached through cgo) and over a PKCS#11 binding.  The
    embedding keeps that shape:

    - every call that leaves Go (a C function, a read of C-owned memory,
      the x509 parser, the PKCS#11 binding) goes through one [oracle],
      which answers from the history of earlier calls, and is appended to
      the [trace] of the [world];
    - Go objects reached through pointers ([*winStore], [*winIdentity],
      [*winPrivateKey]) live in three heaps of the [world]; a pointer is an
      index into its heap, [None] is Go's [nil];
    - a computation is a function [world -> outcome * world]; an outcome is
      a returned value, a panic, or running out of loop fuel.

    cgo marshalling ([C.CBytes], [C.CString], [C.free], [calloc]) only
    copies Go values to C memory and back and is left out of the trace. *)

From Stdlib Require Import ZArith List String Lia Bool.
From Stdlib.Strings Require Import Byte.
From stdpp Require Import base tactics option list.
Import ListNotations.

Local Open Scope string_scope.
Local Open Scope list_scope.
Local Open Scope Z_scope.

(** ** Errors: [github.com/pkg/errors], [errCode] and [securityStatus] *)

Inductive error :=
| fundamental (msg : string)                 (* errors.New(msg) *)
| errCode (code : Z)                         (* type errCode C.DWORD *)
| securityStatus (s : Z)                     (* type securityStatus C.SECURITY_STATUS *)
| foreign (origin : string) (code : Z)       (* an error made by another package *)
| withMessage (cause : error) (msg : string) (* errors.Wrap(cause, msg) *).

Definition errors_New (msg : string) : error := fundamental msg.

(** [errors.Wrap] is only ever applied to an error already known to be
    non-nil, so it is embedded on [error] itself. *)
Definition errors_Wrap (err : error) (msg : string) : error := withMessage err msg.

Fixpoint errors_Cause (err : error) : error :=
  match err with
  | withMessage cause _ => errors_Cause cause
  | _ => err
  end.

(** ** Machine integers and bytes *)

Definition DWORD (z : Z) : Z := z mod 2 ^ 32.

Definition Z_of_byte (b : byte) : Z := Z.of_N (Byte.to_N b).

Definition byte_of_Z (z : Z) : byte :=
  match Byte.of_N (Z.to_N (z mod 256)) with
  | Some b => b
  | None => x00
  end.

(** ** Constants of the Windows headers used by the code *)

Definition winTrue : Z := 1.
Definition winFalse : Z := 0.
Definition ERROR_SUCCESS : Z := 0.
Definition CRYPT_E_NOT_FOUND : Z := -2146885628. (* (HRESULT)0x80092004L *)
Definition CRYPT_ACQUIRE_ALLOW_NCRYPT_KEY_FLAG : Z := 0x10000.
Definition CRYPT_ACQUIRE_PREFER_NCRYPT_KEY_FLAG : Z := 0x20000.
Definition CRYPT_ACQUIRE_ONLY_NCRYPT_KEY_FLAG : Z := 0x40000.
Definition CERT_NCRYPT_KEY_SPEC : Z := 0xFFFFFFFF.
Definition CERT_STORE_PROV_SYSTEM_W : Z := 10.
Definition CERT_SYSTEM_STORE_CURRENT_USER : Z := 0x10000.
Definition X509_ASN_ENCODING : Z := 1.
Definition PKCS_7_ASN_ENCODING : Z := 0x10000.
Definition CERT_FIND_ANY : Z := 0.
Definition CERT_STORE_ADD_REPLACE_EXISTING : Z := 3.
Definition CRYPT_USER_KEYSET : Z := 0x1000.
Definition PKCS12_PREFER_CNG_KSP : Z := 0x100.
Definition PKCS12_ALWAYS_CNG_KSP : Z := 0x200.
Definition BCRYPT_PAD_PKCS1 : Z := 2.
Definition CALG_SHA1 : Z := 0x8004.
Definition CALG_SHA_256 : Z := 0x800c.
Definition CALG_SHA_384 : Z := 0x800d.
Definition CALG_SHA_512 : Z := 0x800e.
Definition HP_HASHVAL : Z := 2.
Definition HP_HASHSIZE : Z := 4.
Definition PP_NAME : Z := 4.
Definition PP_CONTAINER : Z := 6.
Definition PP_PROVTYPE : Z := 16.
Definition CRYPT_DELETEKEYSET : Z := 0x10.

(** The algorithm identifiers of [bcrypt.h]; the Go file that turns them
    into wide strings is not part of the sources, so they are taken as the
    names the header gives them. *)
Definition BCRYPT_SHA1_ALGORITHM : string := "SHA1".
Definition BCRYPT_SHA256_ALGORITHM : string := "SHA256".
Definition BCRYPT_SHA384_ALGORITHM : string := "SHA384".
Definition BCRYPT_SHA512_ALGORITHM : string := "SHA512".

(** [cryptENotFound errCode = C.CRYPT_E_NOT_FOUND & (1<<32 - 1)] *)
Definition cryptENotFound : Z := Z.land CRYPT_E_NOT_FOUND (Z.shiftl 1 32 - 1).

(** ** [crypto.Hash] of the Go standard library *)

Definition crypto_SHA1 : Z := 3.
Definition crypto_SHA256 : Z := 5.
Definition crypto_SHA384 : Z := 6.
Definition crypto_SHA512 : Z := 7.

(** [digestSizes] of package [crypto], indexed by the hash identifier. *)
Definition digestSizes : list nat :=
  [0; 16; 16; 20; 28; 32; 48; 64; 36; 20; 28; 32; 48; 64; 28; 32; 32; 32; 48; 64]%nat.

Definition maxHash : Z := 20.

(** [Hash.Size]: [None] stands for the panic
    "crypto: Size of unknown hash function". *)
Definition hash_Size (h : Z) : option nat :=
  if (0 <? h) && (h <? maxHash) then digestSizes !! Z.to_nat h else None.

(** ** Go objects *)

Inductive PublicKey := rsa_PublicKey | ecdsa_PublicKey | other_PublicKey.

(** The part of [x509.Certificate] the code looks at. *)
Record Certificate := { cert_Raw : list byte; cert_PublicKey : option PublicKey }.

Definition ptr := option nat.

Record winStore := {
  s_store : Z;            (* C.HCERTSTORE, 0 is NULL *)
  s_prev : Z;             (* C.PCCERT_CONTEXT *)
  s_err : option error;
  s_closed : bool }.

Record winIdentity := {
  i_ctx : Z;              (* C.PCCERT_CONTEXT *)
  i_signer : ptr;         (* *winPrivateKey *)
  i_closed : bool }.

Record winPrivateKey := {
  publicKey : PublicKey;
  capiProv : Z;           (* C.HCRYPTPROV *)
  cngHandle : Z;          (* C.NCRYPT_KEY_HANDLE *)
  keySpec : Z }.

(** ** Calls that leave Go, and what comes back *)

Inductive call :=
| CertOpenStore (provider flags : Z) (name : string)
| CertCloseStore (hstore : Z)
| CertFindCertificateInStore (hstore encoding findType prev : Z)
| CertDuplicateCertificateContext (ctx : Z)
| CertFreeCertificateContext (ctx : Z)
| CertDeleteCertificateFromStore (ctx : Z)
| CertAddEncodedCertificateToStore (hstore encoding : Z) (encoded : list byte) (disposition : Z)
| PFXImportCertStore (data : list byte) (password : string) (flags : Z)
| GetLastError
| ReadCertContext (ctx : Z)       (* ctx.dwCertEncodingType, ctx.pbCertEncoded[:cbCertEncoded] *)
| x509_ParseCertificate (der : list byte)
| CryptFindCertificateKeyProvInfo (ctx flags : Z)
| CryptAcquireCertificatePrivateKey (ctx flags : Z)
| NCryptSignHash (key : Z) (padAlg : option string) (digest : list byte)
                 (cbSig : option nat) (flags : Z)
| NCryptDeleteKey (key : Z)
| NCryptFreeObject (key : Z)
| CryptCreateHash (prov alg : Z)
| CryptDestroyHash (hash : Z)
| CryptGetHashParam (hash param : Z)
| CryptSetHashParam (hash param : Z) (data : list byte)
| CryptSignHash (hash keySpec : Z) (cbSig : option nat)
| CryptGetProvParam (prov param : Z) (cbData : option nat)
| CryptAcquireContext (container provider : list byte) (provType flags : Z)
| CryptReleaseContext (prov : Z)
| crypto11_Configure (path : string) (slot : Z)
| crypto11_FindCertificate (ctx serial : Z)
| crypto11_FindKeyPair (ctx cert : Z)
| crypto11_Close (ctx : Z).

(** What a call hands back: its return value, up to three integers written
    through out-pointers, and the bytes written to an output buffer. *)
Record reply := { rv : Z; out1 : Z; out2 : Z; out3 : Z; written : list byte }.

(** An event of the trace: a call and what came back. *)
Abbreviation event := (call * reply)%type.

Record world := {
  trace : list event;
  stores : list winStore;
  idents : list winIdentity;
  keys : list winPrivateKey }.

(** ** Computations *)

Inductive panic :=
| runtime_error (msg : string)   (* nil dereference, index out of range, ... *)
| panic_with (e : error)         (* panic(err) *).

Inductive outcome (A : Type) :=
| Ret (a : A)
| Panic (p : panic)
| Diverge.
Arguments Ret {A} a.
Arguments Panic {A} p.
Arguments Diverge {A}.

Definition Go (A : Type) : Type := world -> outcome A * world.

Definition ret {A} (a : A) : Go A := fun w => (Ret a, w).

Definition bind {A B} (m : Go A) (k : A -> Go B) : Go B :=
  fun w =>
    match m w with
    | (Ret a, w') => k a w'
    | (Panic p, w') => (Panic p, w')
    | (Diverge, w') => (Diverge, w')
    end.

Definition throw {A} (msg : string) : Go A := fun w => (Panic (runtime_error msg), w).

Definition diverge {A} : Go A := fun w => (Diverge, w).

Declare Scope go_scope.
Delimit Scope go_scope with go.
Notation "x <- m ;; k" := (bind m (fun x => k))
  (at level 100, m at next level, right associativity) : go_scope.
Notation "m ;;; k" := (bind m (fun _ => k))
  (at level 100, right associativity) : go_scope.
Local Open Scope go_scope.

(** [defer cleanup] around [body]: the cleanup runs when the body returns
    and when it panics. *)
Definition defer {A} (cleanup : Go unit) (body : Go A) : Go A :=
  fun w =>
    match body w with
    | (Diverge, w') => (Diverge, w')
    | (o, w') =>
        match cleanup w' with
        | (Ret _, w'') => (o, w'')
        | (Panic p, w'') => (Panic p, w'')
        | (Diverge, w'') => (Diverge, w'')
        end
    end.

Fixpoint for_each {A} (l : list A) (body : A -> Go unit) : Go unit :=
  match l with
  | [] => ret tt
  | x :: l' => body x ;;; for_each l' body
  end.

(** *** The three heaps *)

Record heap (T : Type) := {
  objs : world -> list T;
  with_objs : list T -> world -> world }.
Arguments objs {T} h w.
Arguments with_objs {T} h l w.

Definition Stores : heap winStore :=
  {| objs := stores;
     with_objs l w := {| trace := trace w; stores := l; idents := idents w; keys := keys w |} |}.

Definition Idents : heap winIdentity :=
  {| objs := idents;
     with_objs l w := {| trace := trace w; stores := stores w; idents := l; keys := keys w |} |}.

Definition Keys : heap winPrivateKey :=
  {| objs := keys;
     with_objs l w := {| trace := trace w; stores := stores w; idents := idents w; keys := l |} |}.

(** [&T{...}]: a fresh object at the end of its heap. *)
Definition new {T} (h : heap T) (v : T) : Go ptr :=
  fun w => (Ret (Some (length (objs h w))), with_objs h (objs h w ++ [v]) w).

(** [*p] *)
Definition load {T} (h : heap T) (p : ptr) : Go T :=
  fun w =>
    match p with
    | None => (Panic (runtime_error "invalid memory address or nil pointer dereference"), w)
    | Some a =>
        match objs h w !! a with
        | Some v => (Ret v, w)
        | None => (Panic (runtime_error "dangling pointer"), w)
        end
    end.

(** [*p = f( *p )], the shape of every field assignment [p.x = v] *)
Definition update {T} (h : heap T) (p : ptr) (f : T -> T) : Go unit :=
  v <- load h p ;;
  fun w =>
    match p with
    | Some a => (Ret tt, with_objs h (<[a := f v]> (objs h w)) w)
    | None => (Ret tt, w)
    end.

Definition with_trace (t : list event) (w : world) : world :=
  {| trace := t; stores := stores w; idents := idents w; keys := keys w |}.

(** [&b[0]] on a slice, which panics on an empty one *)
Definition addr_of_first (b : list byte) : Go unit :=
  match b with
  | [] => throw "index out of range [0] with length 0"
  | _ :: _ => ret tt
  end.

(** A buffer of [n] zero bytes after a call wrote [out] to its start. *)
Definition fill_buffer (n : nat) (out : list byte) : list byte :=
  take n (out ++ replicate n x00).

(** ** Pure helpers of the signing paths *)

(** [new(big.Int).SetBytes(b)]: [b] read as a big-endian unsigned integer. *)
Definition SetBytes (b : list byte) : Z :=
  fold_left (fun acc x => acc * 256 + Z_of_byte x) b 0.

(** [sig[i], sig[opp] = sig[opp], sig[i]]; [None] is an index out of range. *)
Definition swap (sig : list byte) (i opp : nat) : option (list byte) :=
  match sig !! i, sig !! opp with
  | Some a, Some b => Some (<[opp := a]> (<[i := b]> sig))
  | _, _ => None
  end.

(** The loop [for i := k - 1; i >= 0; i--] of [capiSignHash]. *)
Fixpoint reverse_from (k : nat) (sig : list byte) : option (list byte) :=
  match k with
  | O => Some sig
  | S i =>
      let opp := (length sig - 1 - i)%nat in
      match swap sig i opp with
      | Some sig' => reverse_from i sig'
      | None => None
      end
  end.

Definition reverse_in_place (sig : list byte) : option (list byte) :=
  reverse_from (length sig / 2) sig.

(** *** [encoding/asn1] of the Go standard library, as far as
    [asn1.Marshal(ecdsaSignature{r, s})] with non-negative [r] and [s]
    exercises it. *)
Module asn1.

Fixpoint be_bytes (fuel : nat) (n : Z) (acc : list byte) : list byte :=
  match fuel with
  | O => acc
  | S fuel' => if n <=? 0 then acc else be_bytes fuel' (n / 256) (byte_of_Z n :: acc)
  end.

(** [big.Int.Bytes]: the shortest big-endian form, empty for zero. *)
Definition Bytes (n : Z) : list byte := be_bytes (S (Z.to_nat (Z.log2 n))) n [].

(** [appendTagAndLength]'s length octets. *)
Definition length_octets (n : nat) : list byte :=
  if (n <? 128)%nat then [byte_of_Z (Z.of_nat n)]
  else
    let l := Bytes (Z.of_nat n) in
    byte_of_Z (Z.lor 0x80 (Z.of_nat (length l))) :: l.

(** [makeBigInt] for [n >= 0]: a leading zero octet keeps the value
    positive when its top bit is set. *)
Definition integer_body (n : Z) : list byte :=
  match Bytes n with
  | [] => [x00]
  | b :: bs => if Z.testbit (Z_of_byte b) 7 then x00 :: b :: bs else b :: bs
  end.

Definition integer (n : Z) : list byte :=
  let body := integer_body n in
  x02 :: length_octets (length body) ++ body.

Definition Marshal_ecdsaSignature (r s : Z) : list byte :=
  let body := integer r ++ integer s in
  x30 :: length_octets (length body) ++ body.

End asn1.

(** ** The alternate-platform objects *)

Record linuxStore := { ls_ctx : Z (* *crypto11.Context *) }.

Record linuxIdent := {
  li_cert : Z;     (* *x509.Certificate *)
  li_signer : Z    (* crypto.Signer *) }.


(** ** The program *)

Definition set_err (e : option error) (s : winStore) : winStore :=
  {| s_store := s_store s; s_prev := s_prev s; s_err := e; s_closed := s_closed s |}.

Definition set_prev (p : Z) (s : winStore) : winStore :=
  {| s_store := s_store s; s_prev := p; s_err := s_err s; s_closed := s_closed s |}.

Definition set_closed (c : bool) (s : winStore) : winStore :=
  {| s_store := s_store s; s_prev := s_prev s; s_err := s_err s; s_closed := c |}.

Definition set_signer (k : ptr) (i : winIdentity) : winIdentity :=
  {| i_ctx := i_ctx i; i_signer := k; i_closed := i_closed i |}.

(** [errors.Cause(err) == c] for an [errCode] constant [c]; [errors.Cause]
    of nil is nil, which equals no [errCode]. *)
Definition cause_is_errCode (err : option error) (c : Z) : bool :=
  match err with
  | Some e =>
      match errors_Cause e with
      | errCode c' => c' =? c
      | _ => false
      end
  | None => false
  end.

(** [checkStatus] *)
Definition checkStatus (s : Z) : option error :=
  if s =? ERROR_SUCCESS then None else Some (securityStatus s).

Section Certstore.

(** The world outside Go: each answer may depend on every earlier call. *)
Variable oracle : list event -> call -> reply.

(** The package variable [winAPIFlag]. *)
Variable winAPIFlag : Z.

Definition cgo (c : call) : Go reply :=
  fun w =>
    let r := oracle (trace w) c in
    (Ret r, with_trace (trace w ++ [(c, r)]) w).

(** [lastError] *)
Definition lastError (msg : string) : Go error :=
  r <- cgo GetLastError ;;
  ret (errors_Wrap (errCode (DWORD (rv r))) msg).

(** *** winStore *)

(** [winStore._check] *)
Definition winStore_check (s : ptr) : Go (option error) :=
  match s with
  | None => ret (Some (errors_New "nil winStore pointer"))
  | Some _ =>
      st <- load Stores s ;;
      if s_store st =? 0 then ret (Some (errors_New "nil winStore pointer"))
      else if s_closed st then ret (Some (errors_New "store closed"))
      else ret None
  end.

(** [winStore.nextCert]; the result [0] is the nil context. *)
Definition nextCert (s : ptr) : Go Z :=
  e <- winStore_check s ;;
  match e with
  | Some err => update Stores s (set_err (Some err))
  | None => ret tt
  end ;;;
  st <- load Stores s ;;
  match s_err st with
  | Some _ => ret 0
  | None =>
      r <- cgo (CertFindCertificateInStore (s_store st)
                  (Z.lor X509_ASN_ENCODING PKCS_7_ASN_ENCODING) CERT_FIND_ANY (s_prev st)) ;;
      update Stores s (set_prev (rv r)) ;;;
      if rv r =? 0 then
        err <- lastError "CertFindCertificateInStore failed" ;;
        update Stores s (set_err (Some err)) ;;;
        ret 0
      else ret (rv r)
  end.

(** [winStore.getError] *)
Definition getError (s : ptr) : Go (option error) :=
  e <- winStore_check s ;;
  match e with
  | Some err => ret (Some err)
  | None =>
      st <- load Stores s ;;
      if cause_is_errCode (s_err st) cryptENotFound then ret None
      else ret (s_err st)
  end.

(** [winStore.reset] *)
Definition reset (s : ptr) : Go (option error) :=
  e <- winStore_check s ;;
  match e with
  | Some err => ret (Some err)
  | None =>
      st <- load Stores s ;;
      (if s_prev st =? 0 then ret tt
       else cgo (CertFreeCertificateContext (s_prev st)) ;;; ret tt) ;;;
      update Stores s (set_prev 0) ;;;
      update Stores s (set_err None) ;;;
      ret None
  end.

(** [winStore.Close] *)
Definition winStore_Close (s : ptr) : Go unit :=
  e <- winStore_check s ;;
  match e with
  | Some _ => ret tt
  | None =>
      st <- load Stores s ;;
      (if s_prev st =? 0 then ret tt
       else cgo (CertFreeCertificateContext (s_prev st)) ;;; ret tt) ;;;
      cgo (CertCloseStore (s_store st)) ;;;
      update Stores s (set_closed true)
  end.

(** [openMyCertStore] *)
Definition openMyCertStore : Go (ptr * option error) :=
  r <- cgo (CertOpenStore CERT_STORE_PROV_SYSTEM_W CERT_SYSTEM_STORE_CURRENT_USER "MY") ;;
  if rv r =? 0 then
    err <- lastError "failed to open system cert store" ;;
    ret (None, Some err)
  else
    s <- new Stores {| s_store := rv r; s_prev := 0; s_err := None; s_closed := false |} ;;
    ret (s, None).

(** *** winPrivateKey *)

(** [newWinPrivateKey]; [publicKey = None] is the nil interface. *)
Definition newWinPrivateKey (certCtx : Z) (pk : option PublicKey)
  : Go (ptr * option error) :=
  match pk with
  | None => ret (None, Some (errors_New "nil public key"))
  | Some pub =>
      found <- cgo (CryptFindCertificateKeyProvInfo certCtx
                      CRYPT_ACQUIRE_ALLOW_NCRYPT_KEY_FLAG) ;;
      if rv found =? winFalse then
        err <- lastError "failed to find private key for certificate" ;;
        ret (None, Some err)
      else
        got <- cgo (CryptAcquireCertificatePrivateKey certCtx winAPIFlag) ;;
        let provOrKey := out1 got in
        let spec := DWORD (out2 got) in
        let mustFree := out3 got in
        if rv got =? winFalse then
          err <- lastError "failed to get private key for certificate" ;;
          ret (None, Some err)
        else if negb (mustFree =? winTrue) then
          ret (None, Some (errors_New "CryptAcquireCertificatePrivateKey set mustFree"))
        else if spec =? CERT_NCRYPT_KEY_SPEC then
          k <- new Keys {| publicKey := pub; capiProv := 0;
                           cngHandle := provOrKey; keySpec := 0 |} ;;
          ret (k, None)
        else
          k <- new Keys {| publicKey := pub; capiProv := provOrKey;
                           cngHandle := 0; keySpec := spec |} ;;
          ret (k, None)
  end.

(** [hash.Size()] *)
Definition Size (hash : Z) : Go nat :=
  match hash_Size hash with
  | Some n => ret n
  | None => throw "crypto: Size of unknown hash function"
  end.

(** The [switch hash] that fills [padInfo.pszAlgId]; [None] is its
    [default] branch. *)
Definition pszAlgId (hash : Z) : option string :=
  if hash =? crypto_SHA1 then Some BCRYPT_SHA1_ALGORITHM
  else if hash =? crypto_SHA256 then Some BCRYPT_SHA256_ALGORITHM
  else if hash =? crypto_SHA384 then Some BCRYPT_SHA384_ALGORITHM
  else if hash =? crypto_SHA512 then Some BCRYPT_SHA512_ALGORITHM
  else None.

(** The [switch hash] that picks [hash_alg]; [None] is its [default]
    branch. *)
Definition hash_alg (hash : Z) : option Z :=
  if hash =? crypto_SHA1 then Some CALG_SHA1
  else if hash =? crypto_SHA256 then Some CALG_SHA_256
  else if hash =? crypto_SHA384 then Some CALG_SHA_384
  else if hash =? crypto_SHA512 then Some CALG_SHA_512
  else None.

(** [flags] and [padPtr] after the RSA padding set-up of [cngSignHash];
    [None] when the hash is not supported. *)
Definition cng_padding (pub : PublicKey) (hash : Z) : option (Z * option string) :=
  match pub with
  | rsa_PublicKey =>
      match pszAlgId hash with
      | Some alg => Some (Z.lor 0 BCRYPT_PAD_PKCS1, Some alg)
      | None => None
      end
  | _ => Some (0, None)
  end.

(** [winPrivateKey.cngSignHash] *)
Definition cngSignHash (wpk : ptr) (hash : Z) (digest : list byte)
  : Go (list byte * option error) :=
  size <- Size hash ;;
  if negb (length digest =? size)%nat then
    ret ([], Some (errors_New "bad digest for hash"))
  else
    addr_of_first digest ;;;
    k <- load Keys wpk ;;
    match cng_padding (publicKey k) hash with
    | None => ret ([], Some (errors_New "unsupported hash algorithm"))
    | Some (flags, padAlg) =>
        q <- cgo (NCryptSignHash (cngHandle k) padAlg digest None flags) ;;
        match checkStatus (rv q) with
        | Some err => ret ([], Some (errors_Wrap err "failed to get signature length"))
        | None =>
            let sigLen := Z.to_nat (DWORD (out1 q)) in
            addr_of_first (replicate sigLen x00) ;;;
            r <- cgo (NCryptSignHash (cngHandle k) padAlg digest (Some sigLen) flags) ;;
            let sig := fill_buffer sigLen (written r) in
            match checkStatus (rv r) with
            | Some err => ret ([], Some (errors_Wrap err "failed to sign digest"))
            | None =>
                match publicKey k with
                | ecdsa_PublicKey =>
                    if negb (length sig mod 2 =? 0)%nat then
                      ret ([], Some (errors_New "bad ecdsa signature from CNG"))
                    else
                      let r := SetBytes (take (length sig / 2) sig) in
                      let s := SetBytes (drop (length sig / 2) sig) in
                      ret (asn1.Marshal_ecdsaSignature r s, None)
                | _ => ret (sig, None)
                end
            end
        end
    end.

(** [winPrivateKey.capiSignHash] *)
Definition capiSignHash (wpk : ptr) (hash : Z) (digest : list byte)
  : Go (list byte * option error) :=
  size <- Size hash ;;
  if negb (length digest =? size)%nat then
    ret ([], Some (errors_New "bad digest for hash"))
  else
    match hash_alg hash with
    | None => ret ([], Some (errors_New "unsupported hash algorithm"))
    | Some alg =>
        k <- load Keys wpk ;;
        created <- cgo (CryptCreateHash (capiProv k) alg) ;;
        let chash := out1 created in
        if rv created =? winFalse then
          err <- lastError "failed to create hash" ;; ret ([], Some err)
        else
          defer (cgo (CryptDestroyHash chash) ;;; ret tt)
            (got <- cgo (CryptGetHashParam chash HP_HASHSIZE) ;;
             let hashSize := DWORD (out1 got) in
             if rv got =? winFalse then
               err <- lastError "failed to get hash size" ;; ret ([], Some err)
             else if negb (Z.of_nat size =? hashSize) then
               ret ([], Some (errors_New "invalid CryptoAPI hash"))
             else
               addr_of_first digest ;;;
               set <- cgo (CryptSetHashParam chash HP_HASHVAL digest) ;;
               if rv set =? winFalse then
                 err <- lastError "failed to set hash digest" ;; ret ([], Some err)
               else
                 q <- cgo (CryptSignHash chash (keySpec k) None) ;;
                 if rv q =? winFalse then
                   err <- lastError "failed to get signature length" ;; ret ([], Some err)
                 else
                   let sigLen := Z.to_nat (DWORD (out1 q)) in
                   addr_of_first (replicate sigLen x00) ;;;
                   r <- cgo (CryptSignHash chash (keySpec k) (Some sigLen)) ;;
                   let sig := fill_buffer sigLen (written r) in
                   if rv r =? winFalse then
                     err <- lastError "failed to sign digest" ;; ret ([], Some err)
                   else
                     match reverse_in_place sig with
                     | Some sig' => ret (sig', None)
                     | None => throw "index out of range"
                     end)
    end.

(** [winPrivateKey.Sign]; [hash] is [opts.HashFunc()]. *)
Definition Sign (wpk : ptr) (digest : list byte) (hash : Z)
  : Go (list byte * option error) :=
  k <- load Keys wpk ;;
  if negb (capiProv k =? 0) then capiSignHash wpk hash digest
  else if negb (cngHandle k =? 0) then cngSignHash wpk hash digest
  else ret ([], Some (errors_New "bad private key")).

(** [winPrivateKey.Public] *)
Definition Public (wpk : ptr) : Go PublicKey :=
  k <- load Keys wpk ;; ret (publicKey k).

(** [winPrivateKey.getProviderParam] *)
Definition getProviderParam (wpk : ptr) (param : Z) : Go (list byte * option error) :=
  k <- load Keys wpk ;;
  q <- cgo (CryptGetProvParam (capiProv k) param None) ;;
  if rv q =? winFalse then
    err <- lastError "failed to get provider parameter size" ;; ret ([], Some err)
  else
    let dataLen := Z.to_nat (DWORD (out1 q)) in
    addr_of_first (replicate dataLen x00) ;;;
    r <- cgo (CryptGetProvParam (capiProv k) param (Some dataLen)) ;;
    if rv r =? winFalse then
      err <- lastError "failed to get provider parameter" ;; ret ([], Some err)
    else ret (fill_buffer dataLen (written r), None).

(** [*providerType] of [Delete]: the first four bytes of the parameter
    read as a little-endian [DWORD] (bytes the buffer does not have read
    as zero; Go leaves that case to C). *)
Definition read_DWORD (data : list byte) : Z :=
  fold_right (fun x acc => Z_of_byte x + 256 * acc) 0 (take 4 data).

(** [winPrivateKey.Delete] *)
Definition Delete (wpk : ptr) : Go (option error) :=
  k <- load Keys wpk ;;
  if negb (cngHandle k =? 0) then
    r <- cgo (NCryptDeleteKey (cngHandle k)) ;;
    ret (checkStatus (rv r))
  else if negb (capiProv k =? 0) then
    c <- getProviderParam wpk PP_CONTAINER ;;
    match c with
    | (_, Some err) => ret (Some (errors_Wrap err "failed to get PP_CONTAINER"))
    | (containerName, None) =>
        n <- getProviderParam wpk PP_NAME ;;
        match n with
        | (_, Some err) => ret (Some (errors_Wrap err "failed to get PP_NAME"))
        | (providerName, None) =>
            t <- getProviderParam wpk PP_PROVTYPE ;;
            match t with
            | (_, Some err) => ret (Some (errors_Wrap err "failed to get PP_PROVTYPE"))
            | (providerType, None) =>
                r <- cgo (CryptAcquireContext containerName providerName
                            (read_DWORD providerType) CRYPT_DELETEKEYSET) ;;
                if rv r =? winFalse then
                  err <- lastError "failed to delete key set" ;; ret (Some err)
                else ret None
            end
        end
    end
  else ret (Some (errors_New "bad private key")).

(** [winPrivateKey.Close] *)
Definition winPrivateKey_Close (wpk : ptr) : Go unit :=
  k <- load Keys wpk ;;
  (if negb (cngHandle k =? 0) then cgo (NCryptFreeObject (cngHandle k)) ;;; ret tt
   else ret tt) ;;;
  if negb (capiProv k =? 0) then cgo (CryptReleaseContext (capiProv k)) ;;; ret tt
  else ret tt.

(** *** winIdentity *)

(** [newWinIdentity] *)
Definition newWinIdentity (ctx : Z) : Go ptr :=
  dup <- cgo (CertDuplicateCertificateContext ctx) ;;
  new Idents {| i_ctx := rv dup; i_signer := None; i_closed := false |}.

(** [winIdentity._check] *)
Definition winIdentity_check (i : ptr) : Go (option error) :=
  match i with
  | None => ret (Some (errors_New "nil winIdentity pointer"))
  | Some _ =>
      id <- load Idents i ;;
      if i_ctx id =? 0 then ret (Some (errors_New "nil certificate context"))
      else if i_closed id then ret (Some (errors_New "identity closed"))
      else ret None
  end.

(** [winIdentity.GetCertificate]; the parser answers [rv = 0] for a nil
    error and names the public key's type in [out1]. *)
Definition GetCertificate (i : ptr) : Go (option Certificate * option error) :=
  e <- winIdentity_check i ;;
  match e with
  | Some err => ret (None, Some err)
  | None =>
      id <- load Idents i ;;
      mem <- cgo (ReadCertContext (i_ctx id)) ;;
      let der := written mem in
      parsed <- cgo (x509_ParseCertificate der) ;;
      if negb (rv parsed =? 0) then
        ret (None, Some (errors_Wrap (foreign "x509" (rv parsed)) "certificate parsing failed"))
      else
        let pub := if out1 parsed =? 0 then None
                   else if out1 parsed =? 1 then Some rsa_PublicKey
                   else if out1 parsed =? 2 then Some ecdsa_PublicKey
                   else Some other_PublicKey in
        ret (Some {| cert_Raw := der; cert_PublicKey := pub |}, None)
  end.

(** [winIdentity.getPrivateKey] *)
Definition getPrivateKey (i : ptr) : Go (ptr * option error) :=
  e <- winIdentity_check i ;;
  match e with
  | Some err => ret (None, Some err)
  | None =>
      id <- load Idents i ;;
      match i_signer id with
      | Some k => ret (Some k, None)
      | None =>
          ce <- GetCertificate i ;;
          match ce with
          | (_, Some err) =>
              ret (None, Some (errors_Wrap err "failed to get identity certificate"))
          | (None, None) => throw "invalid memory address or nil pointer dereference"
          | (Some cert, None) =>
              se <- newWinPrivateKey (i_ctx id) (cert_PublicKey cert) ;;
              match se with
              | (_, Some err) =>
                  ret (None, Some (errors_Wrap err "failed to load identity private key"))
              | (signer, None) =>
                  update Idents i (set_signer signer) ;;;
                  ret (signer, None)
              end
          end
      end
  end.

(** [winIdentity.GetSigner] *)
Definition GetSigner (i : ptr) : Go (ptr * option error) := getPrivateKey i.

(** [winIdentity.Close] *)
Definition winIdentity_Close (i : ptr) : Go unit :=
  e <- winIdentity_check i ;;
  match e with
  | Some _ => ret tt
  | None =>
      id <- load Idents i ;;
      match i_signer id with
      | Some k => winPrivateKey_Close (Some k)
      | None => ret tt
      end ;;;
      cgo (CertFreeCertificateContext (i_ctx id)) ;;;
      ret tt
  end.

(** [winIdentity.Destroy] *)
Definition Destroy (i : ptr) : Go (option error) :=
  id <- load Idents i ;;
  deleteCtx <- cgo (CertDuplicateCertificateContext (i_ctx id)) ;;
  deleted <- cgo (CertDeleteCertificateFromStore (rv deleteCtx)) ;;
  if rv deleted =? winFalse then
    err <- lastError "failed to delete certificate from store" ;; ret (Some err)
  else
    ke <- getPrivateKey i ;;
    match ke with
    | (_, Some err) => ret (Some (errors_Wrap err "failed to get identity private key"))
    | (wpk, None) =>
        e <- Delete wpk ;;
        match e with
        | Some err => ret (Some (errors_Wrap err "failed to delete identity private key"))
        | None => ret None
        end
    end.

(** *** Enumeration *)

(** The loop [for ctx := store.nextCert(); ctx != nil; ctx = store.nextCert()]
    of [findIdentities], appending to [idents]. *)
Fixpoint drain (fuel : nat) (store : ptr) (idents : list ptr) : Go (list ptr) :=
  match fuel with
  | O => diverge
  | S fuel' =>
      ctx <- nextCert store ;;
      if ctx =? 0 then ret idents
      else
        i <- newWinIdentity ctx ;;
        drain fuel' store (idents ++ [i])
  end.

(** [findIdentities] *)
Definition findIdentities (fuel : nat) (store : ptr) : Go (list ptr * option error) :=
  idents <- drain fuel store [] ;;
  e <- getError store ;;
  match e with
  | Some err =>
      for_each idents winIdentity_Close ;;;
      ret ([], Some (errors_Wrap err "identity iteration failed"))
  | None => ret (idents, None)
  end.

(** [FindIdentities] *)
Definition FindIdentities (fuel : nat) : Go (list ptr * option error) :=
  opened <- openMyCertStore ;;
  match opened with
  | (_, Some err) => ret ([], Some (errors_Wrap err "openMyCertStore failed"))
  | (store, None) =>
      defer (winStore_Close store)
        (found <- findIdentities fuel store ;;
         match found with
         | (_, Some err) => ret ([], Some (errors_Wrap err "findIdentities failed"))
         | (idents, None) => ret (idents, None)
         end)
  end.

(** *** Import *)

(** [flags] of [importPFX] *)
Definition importPFX_flags : Z :=
  if 0 <? Z.land winAPIFlag CRYPT_ACQUIRE_PREFER_NCRYPT_KEY_FLAG then
    Z.lor CRYPT_USER_KEYSET PKCS12_PREFER_CNG_KSP
  else if 0 <? Z.land winAPIFlag CRYPT_ACQUIRE_ONLY_NCRYPT_KEY_FLAG then
    Z.lor CRYPT_USER_KEYSET PKCS12_ALWAYS_CNG_KSP
  else CRYPT_USER_KEYSET.

(** The loop of [importPFX] over the transient store [wstore]; a [Some]
    error is the early [return nil, lastError(...)] from inside it. *)
Fixpoint import_loop (fuel : nat) (s wstore : ptr) (idents : list ptr)
  : Go (list ptr * option error) :=
  match fuel with
  | O => diverge
  | S fuel' =>
      ctx <- nextCert wstore ;;
      if ctx =? 0 then ret (idents, None)
      else
        st <- load Stores s ;;
        mem <- cgo (ReadCertContext ctx) ;;
        added <- cgo (CertAddEncodedCertificateToStore (s_store st) (out1 mem) (written mem)
                        CERT_STORE_ADD_REPLACE_EXISTING) ;;
        let newCtx := out1 added in
        if rv added =? winFalse then
          for_each idents winIdentity_Close ;;;
          err <- lastError "failed to add imported certificate to MY store" ;;
          ret ([], Some err)
        else
          i <- newWinIdentity newCtx ;;
          import_loop fuel' s wstore (idents ++ [i])
  end.

(** [winStore.importPFX] *)
Definition importPFX (fuel : nat) (s : ptr) (data : list byte) (password : string)
  : Go (list ptr * option error) :=
  imported <- cgo (PFXImportCertStore data password importPFX_flags) ;;
  if rv imported =? 0 then
    err <- lastError "failed to import PFX cert store" ;; ret ([], Some err)
  else
    wstore <- new Stores {| s_store := rv imported; s_prev := 0;
                            s_err := None; s_closed := false |} ;;
    defer (winStore_Close wstore)
      (looped <- import_loop fuel s wstore [] ;;
       match looped with
       | (_, Some err) => ret ([], Some err)
       | (idents, None) =>
           e <- getError wstore ;;
           match e with
           | Some err =>
               for_each idents winIdentity_Close ;;;
               ret ([], Some err)
           | None => ret (idents, None)
           end
       end).

(** *** The alternate-platform store; the binding answers [rv = 0] for a
    nil error and hands the object back in [out1]. *)


(** [linuxStore.Identities] *)
Definition Identities (store : option linuxStore) : Go (list linuxIdent * option error) :=
  match store with
  | None => throw "invalid memory address or nil pointer dereference"
  | Some st =>
      found <- cgo (crypto11_FindCertificate (ls_ctx st)
                      0x04024FFB1E82B2A48FD1BA7B393DD897) ;;
      if negb (rv found =? 0) then
        fun w => (Panic (panic_with (foreign "crypto11" (rv found))), w)
      else
        let cert := out1 found in
        if cert =? 0 then throw "invalid memory address or nil pointer dereference"
        else
          pair <- cgo (crypto11_FindKeyPair (ls_ctx st) cert) ;;
          if negb (rv pair =? 0) then
            fun w => (Panic (panic_with (foreign "crypto11" (rv pair))), w)
          else
            ret ([{| li_cert := cert; li_signer := out1 pair |}], None)
  end.


(** [linuxStore.Close] *)
Definition linuxStore_Close (store : option linuxStore) : Go unit :=
  match store with
  | None => throw "invalid memory address or nil pointer dereference"
  | Some st => cgo (crypto11_Close (ls_ctx st)) ;;; ret tt
  end.


(** [linuxIdent.Certificate] and [linuxIdent.Signer] *)
Definition linuxIdent_Certificate (ident : linuxIdent) : Go (Z * option error) :=
  ret (li_cert ident, None).

Definition linuxIdent_Signer (ident : linuxIdent) : Go (Z * option error) :=
  ret (li_signer ident, None).

End Certstore.

(** ** Scenarios used by the statements below *)

(** [n] calls of [nextCert] in a row, with what each returned. *)
Fixpoint nextCert_times (oracle : list event -> call -> reply) (n : nat) (s : ptr)
  : Go (list Z) :=
  match n with
  | O => ret []
  | S n' =>
      ctx <- nextCert oracle s ;;
      rest <- nextCert_times oracle n' s ;;
      ret (ctx :: rest)
  end.

(** The store at address [a] has a recorded error. *)
Definition sticky (w : world) (a : nat) : Prop :=
  exists st e, stores w !! a = Some st /\ s_err st = Some e.

(** The store at address [a] passes [_check]. *)
Definition open_store (w : world) (a : nat) : Prop :=
  exists st, stores w !! a = Some st /\ s_store st <> 0 /\ s_closed st = false.

(** A world outside Go that answers the [n]-th call with the [n]-th reply
    of a script, and with zeros once the script is used up. *)
Definition answer (z : Z) : reply :=
  {| rv := z; out1 := 0; out2 := 0; out3 := 0; written := [] |}.

Definition scripted (script : list reply) : list event -> call -> reply :=
  fun t _ => nth (length t) script (answer 0).

Definition empty_world : world :=
  {| trace := []; stores := []; idents := []; keys := [] |}.

(** The world after more calls were logged, and after the store at
    address [a] was overwritten. *)
Definition log (evs : list event) (w : world) : world :=
  with_trace (trace w ++ evs) w.

Definition put_store (a : nat) (st : winStore) (w : world) : world :=
  with_objs Stores (<[a := st]> (stores w)) w.

(** The iteration call [nextCert] makes on a store. *)
Definition find_call (st : winStore) : call :=
  CertFindCertificateInStore (s_store st)
    (Z.lor X509_ASN_ENCODING PKCS_7_ASN_ENCODING) CERT_FIND_ANY (s_prev st).


(** A store that was closed: address 0 of its heap, handle 5. *)
Definition closed_store_world : world :=
  {| trace := [];
     stores := [ {| s_store := 5; s_prev := 0; s_err := None; s_closed := true |} ];
     idents := []; keys := [] |}.

(** A PFX import that finds one certificate: the transient store is 7, its
    certificate context 9, the context added to the target store 11 and its
    duplicate 12; the iteration then ends with "not found". *)
Definition pfx_script : list reply :=
  [ answer 7; answer 9;
    {| rv := 0; out1 := 1; out2 := 0; out3 := 0; written := [x30; x00] |};
    {| rv := 1; out1 := 11; out2 := 0; out3 := 0; written := [] |};
    answer 12; answer 0; answer 2148081668; answer 1 ].

(** An open identity that never resolved its key: address 0, context 9. *)
Definition one_identity_world : world :=
  {| trace := []; stores := [];
     idents := [ {| i_ctx := 9; i_signer := None; i_closed := false |} ];
     keys := [] |}.

(** An open store (address 0, handle 5) in the middle of an iteration, and
    the same store after its iteration hit a genuine failure (code 5,
    access denied). *)
Definition open_store_world : world :=
  {| trace := [];
     stores := [ {| s_store := 5; s_prev := 9; s_err := None; s_closed := false |} ];
     idents := []; keys := [] |}.

Definition failed_store_world : world :=
  {| trace := [];
     stores := [ {| s_store := 5; s_prev := 0;
                    s_err := Some (errors_Wrap (errCode 5) "CertFindCertificateInStore failed");
                    s_closed := false |} ];
     idents := []; keys := [] |}.

(** An open identity (address 0, context 9) whose key was resolved: a CNG
    key with handle 4 at address 0 of the key heap. *)
Definition resolved_identity_world : world :=
  {| trace := []; stores := [];
     idents := [ {| i_ctx := 9; i_signer := Some 0%nat; i_closed := false |} ];
     keys := [ {| publicKey := ecdsa_PublicKey; capiProv := 0; cngHandle := 4; keySpec := 0 |} ] |}.

(** [n] calls of [GetSigner] in a row, with what each returned. *)
Fixpoint GetSigner_times (oracle : list event -> call -> reply) (winAPIFlag : Z)
  (n : nat) (i : ptr) : Go (list (ptr * option error)) :=
  match n with
  | O => ret []
  | S n' =>
      r <- GetSigner oracle winAPIFlag i ;;
      rest <- GetSigner_times oracle winAPIFlag n' i ;;
      ret (r :: rest)
  end.

(** A computation that leaves one component of the world (a heap, the
    trace) as it found it. *)
Definition preserves {X A} (part : world -> X) (m : Go A) : Prop :=
  forall w, part (snd (m w)) = part w.

(** What the outside world answers while an identity resolves its key:
    the certificate bytes, a parse with an ECDSA key, the key-provider
    lookup, and a CNG key with handle 4 that the caller must free. *)
Definition resolve_script : list reply :=
  [ {| rv := 0; out1 := 1; out2 := 0; out3 := 0; written := [x30; x00] |};
    {| rv := 0; out1 := 2; out2 := 0; out3 := 0; written := [] |};
    answer 1;
    {| rv := 1; out1 := 4; out2 := 0xFFFFFFFF; out3 := 1; written := [] |} ].

(** A world with one CNG key and one CryptoAPI key on the key heap. *)
Definition two_keys_world : world :=
  {| trace := []; stores := []; idents := [];
     keys := [ {| publicKey := ecdsa_PublicKey; capiProv := 0; cngHandle := 4; keySpec := 0 |};
               {| publicKey := rsa_PublicKey; capiProv := 6; cngHandle := 0; keySpec := 1 |} ] |}.

(** What the outside world answers during a legacy-backend signature with
    SHA-1: a hash object 8 of size 20, and a four-byte signature. *)
Definition capi_sign_script : list reply :=
  [ {| rv := 1; out1 := 8; out2 := 0; out3 := 0; written := [] |};
    {| rv := 1; out1 := 20; out2 := 0; out3 := 0; written := [] |};
    answer 1;
    {| rv := 1; out1 := 4; out2 := 0; out3 := 0; written := [] |};
    {| rv := 1; out1 := 4; out2 := 0; out3 := 0; written := [x01; x02; x03; x04] |};
    answer 1 ].

(** What the outside world answers during a modern-backend signature: a
    four-byte raw signature. *)
Definition cng_sign_script : list reply :=
  [ {| rv := 0; out1 := 4; out2 := 0; out3 := 0; written := [] |};
    {| rv := 0; out1 := 4; out2 := 0; out3 := 0; written := [x01; x02; x03; x04] |} ].

(** An identity as [newWinIdentity] makes it. *)
Definition fresh_identity (id : winIdentity) : Prop :=
  i_signer id = None /\ i_closed id = false.

(** The call by which [Close] releases a fresh identity, if it has a
    certificate context at all. *)
Definition close_calls (id : winIdentity) : list call :=
  if i_ctx id =? 0 then [] else [CertFreeCertificateContext (i_ctx id)].

(** The calls that left Go between two worlds. *)
Definition calls_since (w w' : world) : list call :=
  map fst (drop (length (trace w)) (trace w')).

(** The pointers to [k] objects allocated from address [base] on. *)
Definition pointers (base k : nat) : list ptr := map Some (seq base k).

(** An enumeration of a store with two certificates (contexts 9 and 10,
    duplicated as 19 and 20) that then fails with code 5, and the same
    enumeration ending with "not found". *)
Definition failing_enumeration : list reply :=
  [ answer 5; answer 9; answer 19; answer 10; answer 20; answer 0; answer 5 ].

Definition complete_enumeration : list reply :=
  [ answer 5; answer 9; answer 19; answer 10; answer 20; answer 0; answer 2148081668 ].

(** ** Failures of the world outside Go *)

(** A call whose reply reports a failure, by the test the code applies to
    that call: a NULL handle, a false [BOOL], a non-zero status or a
    non-nil Go error.  Calls whose result the code discards never count. *)
Definition failed_call (ev : event) : bool :=
  match fst ev with
  | CertOpenStore _ _ _ | PFXImportCertStore _ _ _
  | CertFindCertificateInStore _ _ _ _ => rv (snd ev) =? 0
  | CertDeleteCertificateFromStore _ | CertAddEncodedCertificateToStore _ _ _ _
  | CryptFindCertificateKeyProvInfo _ _ | CryptAcquireCertificatePrivateKey _ _
  | CryptCreateHash _ _ | CryptGetHashParam _ _ | CryptSetHashParam _ _ _
  | CryptSignHash _ _ _ | CryptGetProvParam _ _ _
  | CryptAcquireContext _ _ _ _ => rv (snd ev) =? winFalse
  | NCryptSignHash _ _ _ _ _ | NCryptDeleteKey _ => negb (rv (snd ev) =? ERROR_SUCCESS)
  | x509_ParseCertificate _ | crypto11_Configure _ _
  | crypto11_FindCertificate _ _ | crypto11_FindKeyPair _ _ => negb (rv (snd ev) =? 0)
  | _ => false
  end.

(** Every event of a list reports success. *)
Definition all_succeeded (evs : list event) : Prop :=
  Forall (fun ev => failed_call ev = false) evs.

(** The trace [t'] continues [t] with calls that all succeeded. *)
Definition quiet_since (t t' : list event) : Prop :=
  exists evs, t' = t ++ evs /\ all_succeeded evs.

(** No call failed between two worlds. *)
Definition no_failure (w w' : world) : Prop := quiet_since (trace w) (trace w').

(** A computation settles its failures when, from every world, it either
    returns a result that is [ok], or no call it made had failed.  With
    "[ok] = the error is not nil" this says that every failure comes back
    as an error value; a panic, a nil error or an endless loop can then
    only happen after calls that all succeeded. *)
Definition settles {R} (ok : R -> Prop) (m : Go R) : Prop :=
  forall w, (exists r, fst (m w) = Ret r /\ ok r) \/ no_failure w (snd (m w)).

Definition returns_failures {A} (m : Go (A * option error)) : Prop :=
  settles (fun r => snd r <> None) m.

Definition returns_failure (m : Go (option error)) : Prop :=
  settles (fun r => r <> None) m.

(** A computation never panics after a call it made has failed. *)
Definition failures_do_not_panic {A} (m : Go A) : Prop :=
  forall w p, fst (m w) = Panic p -> no_failure w (snd (m w)).

(** A computation none of whose calls can fail. *)
Definition quiet {A} (m : Go A) : Prop := settles (fun _ => False) m.

(** A computation that always returns, with an [ok] result. *)
Definition always {R} (ok : R -> Prop) (m : Go R) : Prop :=
  forall w, exists r, fst (m w) = Ret r /\ ok r.


(** A token store whose certificate lookup fails with code 7. *)
Definition token_store : option linuxStore := Some {| ls_ctx := 1 |}.


(** The two lookups of [linuxStore.Identities]. *)
Definition find_certificate (st : linuxStore) : call :=
  crypto11_FindCertificate (ls_ctx st) 0x04024FFB1E82B2A48FD1BA7B393DD897.

(** ** Further scenarios *)

(** The call by which [openMyCertStore] opens the personal store. *)
Definition open_call : call :=
  CertOpenStore CERT_STORE_PROV_SYSTEM_W CERT_SYSTEM_STORE_CURRENT_USER "MY".

(** The calls by which [reset] and [Close] let go of a store's cursor. *)
Definition cursor_release (st : winStore) : list call :=
  if s_prev st =? 0 then [] else [CertFreeCertificateContext (s_prev st)].

(** The events of an iteration over a store with handle [h] that finds
    certificates: for each one the lookup, made from the context found
    before it, with its reply [f], and the duplication of the context it
    found, with its reply [d]. *)
Fixpoint iteration_events (h prev : Z) (found : list (reply * reply)) : list event :=
  match found with
  | [] => []
  | (f, d) :: rest =>
      (CertFindCertificateInStore h (Z.lor X509_ASN_ENCODING PKCS_7_ASN_ENCODING)
         CERT_FIND_ANY prev, f)
      :: (CertDuplicateCertificateContext (rv f), d)
      :: iteration_events h (rv f) rest
  end.

(** The context the cursor holds after such an iteration. *)
Fixpoint cursor_after (prev : Z) (found : list (reply * reply)) : Z :=
  match found with
  | [] => prev
  | (f, _) :: rest => cursor_after (rv f) rest
  end.

(** The identity [newWinIdentity] makes of a duplicated context. *)
Definition identity_of (fd : reply * reply) : winIdentity :=
  {| i_ctx := rv (snd fd); i_signer := None; i_closed := false |}.

(** The calls that make and destroy a CryptoAPI hash object. *)
Definition hash_object_call (c : call) : bool :=
  match c with
  | CryptCreateHash _ _ | CryptDestroyHash _ => true
  | _ => false
  end.

(** The hash functions both signing paths accept. *)
Definition supported_hashes : list Z :=
  [crypto_SHA1; crypto_SHA256; crypto_SHA384; crypto_SHA512].

(** A world with one RSA key of the modern backend: address 0, handle 4. *)
Definition rsa_cng_world : world :=
  {| trace := []; stores := []; idents := [];
     keys := [ {| publicKey := rsa_PublicKey; capiProv := 0; cngHandle := 4;
                  keySpec := 0 |} ] |}.

(** The two calls by which [getProviderParam] reads one parameter of a
    provider, and the bytes it returns. *)
Definition param_events (prov param : Z) (q r : reply) : list event :=
  [(CryptGetProvParam prov param None, q);
   (CryptGetProvParam prov param (Some (Z.to_nat (DWORD (out1 q)))), r)].

Definition param_value (q r : reply) : list byte :=
  fill_buffer (Z.to_nat (DWORD (out1 q))) (written r).

(** A call that deleted a key, by the test [Delete] applies to it. *)
Definition key_deleted (ev : event) : bool :=
  match fst ev with
  | NCryptDeleteKey _ => rv (snd ev) =? ERROR_SUCCESS
  | CryptAcquireContext _ _ _ flags =>
      (flags =? CRYPT_DELETEKEYSET) && negb (rv (snd ev) =? winFalse)
  | _ => false
  end.

(** What the outside world answers while a CryptoAPI key is deleted: a
    two-byte container name, a two-byte provider name, provider type 1,
    and a successful deletion of the key set. *)
Definition capi_delete_script : list reply :=
  [ {| rv := 1; out1 := 2; out2 := 0; out3 := 0; written := [] |};
    {| rv := 1; out1 := 2; out2 := 0; out3 := 0; written := [x6b; x00] |};
    {| rv := 1; out1 := 2; out2 := 0; out3 := 0; written := [] |};
    {| rv := 1; out1 := 2; out2 := 0; out3 := 0; written := [x70; x00] |};
    {| rv := 1; out1 := 4; out2 := 0; out3 := 0; written := [] |};
    {| rv := 1; out1 := 4; out2 := 0; out3 := 0; written := [x01; x00; x00; x00] |};
    answer 1 ].

(** The replies during the import of one certificate: the lookup in the
    transient store, the read of the context found, the insertion into
    the target store and the duplication of the context inserted. *)
Record imported := {
  im_found : reply;
  im_read : reply;
  im_added : reply;
  im_dup : reply }.

(** The events of an import from the transient store [h] into the store
    [target], for the certificates it imports. *)
Fixpoint import_events (target h prev : Z) (found : list imported) : list event :=
  match found with
  | [] => []
  | x :: rest =>
      (CertFindCertificateInStore h (Z.lor X509_ASN_ENCODING PKCS_7_ASN_ENCODING)
         CERT_FIND_ANY prev, im_found x)
      :: (ReadCertContext (rv (im_found x)), im_read x)
      :: (CertAddEncodedCertificateToStore target (out1 (im_read x))
            (written (im_read x)) CERT_STORE_ADD_REPLACE_EXISTING, im_added x)
      :: (CertDuplicateCertificateContext (out1 (im_added x)), im_dup x)
      :: import_events target h (rv (im_found x)) rest
  end.

Fixpoint import_cursor (prev : Z) (found : list imported) : Z :=
  match found with
  | [] => prev
  | x :: rest => import_cursor (rv (im_found x)) rest
  end.

(** The identity [importPFX] makes of a certificate it imported. *)
Definition imported_identity (x : imported) : winIdentity :=
  {| i_ctx := rv (im_dup x); i_signer := None; i_closed := false |}.

Definition imported_ok (x : imported) : Prop :=
  rv (im_found x) <> 0 /\ rv (im_added x) <> winFalse.

(** A PFX import whose second insertion fails with code 5: the first
    certificate (context 9) was inserted as context 11 and duplicated as
    12, the second (context 10) is refused. *)
Definition failing_pfx_script : list reply :=
  [ answer 7; answer 9;
    {| rv := 0; out1 := 1; out2 := 0; out3 := 0; written := [x30; x00] |};
    {| rv := 1; out1 := 11; out2 := 0; out3 := 0; written := [] |};
    answer 12; answer 10;
    {| rv := 0; out1 := 1; out2 := 0; out3 := 0; written := [x30; x01] |};
    answer 0; answer 1; answer 5 ].

(** An identity marked closed: address 0, context 9. *)
Definition closed_identity_world : world :=
  {| trace := []; stores := [];
     idents := [ {| i_ctx := 9; i_signer := None; i_closed := true |} ];
     keys := [] |}.

(** What the token answers when both lookups succeed: certificate 3 and
    key pair 4. *)
Definition token_script : list reply :=
  [ {| rv := 0; out1 := 3; out2 := 0; out3 := 0; written := [] |};
    {| rv := 0; out1 := 4; out2 := 0; out3 := 0; written := [] |} ].


(** ** Failures that are not the end of an iteration *)

(** Whether a list of events holds a genuine failure.  A lookup that
    finds nothing and is followed at once by a [GetLastError] that
    reports [cryptENotFound] is how the native store says that it has no
    more certificates; every other call that failed, by the test the
    code applies to it, is a genuine failure. *)
Fixpoint genuine_failure (evs : list event) : bool :=
  match evs with
  | [] => false
  | ev :: rest =>
      match fst ev, rest with
      | CertFindCertificateInStore _ _ _ _, (GetLastError, g) :: rest' =>
          if rv (snd ev) =? 0
          then negb (DWORD (rv g) =? cryptENotFound) || genuine_failure rest'
          else genuine_failure rest
      | _, _ => failed_call ev || genuine_failure rest
      end
  end.




(** * Evaluation lemmas *)

Lemma bind_Ret {A B} (m : Go A) (k : A -> Go B) w a w' :
  m w = (Ret a, w') -> bind m k w = k a w'.
Proof. intros H. unfold bind. now rewrite H. Qed.

Lemma load_at {T} (h : heap T) a v w :
  objs h w !! a = Some v -> load h (Some a) w = (Ret v, w).
Proof. intros H. unfold load. now rewrite H. Qed.

Lemma update_at {T} (h : heap T) a v f w :
  objs h w !! a = Some v ->
  update h (Some a) f w = (Ret tt, with_objs h (<[a := f v]> (objs h w)) w).
Proof. intros H. unfold update, bind. now rewrite (load_at h a v w H). Qed.

Lemma ret_run {A} (a : A) w : ret a w = (Ret a, w).
Proof. reflexivity. Qed.

Ltac step H := rewrite (bind_Ret _ _ _ _ _ H).

Lemma put_store_lookup a st w :
  (a < length (stores w))%nat -> stores (put_store a st w) !! a = Some st.
Proof. intros H. simpl. now apply list_lookup_insert_eq. Qed.

Lemma put_store_twice a st st' w :
  put_store a st (put_store a st' w) = put_store a st w.
Proof. unfold put_store. simpl. now rewrite list_insert_insert_eq. Qed.

Lemma put_store_same a st w :
  stores w !! a = Some st -> put_store a st w = w.
Proof.
  intros H. unfold put_store. simpl. rewrite (list_insert_id _ _ _ H). now destruct w.
Qed.

Section StoreFacts.
Variable oracle : list event -> call -> reply.

Lemma cgo_run c w :
  cgo oracle c w = (Ret (oracle (trace w) c), log [(c, oracle (trace w) c)] w).
Proof. reflexivity. Qed.

Lemma lastError_run msg w :
  lastError oracle msg w =
    (Ret (errors_Wrap (errCode (DWORD (rv (oracle (trace w) GetLastError)))) msg),
     log [(GetLastError, oracle (trace w) GetLastError)] w).
Proof. reflexivity. Qed.

Lemma winStore_check_at a st w :
  stores w !! a = Some st ->
  winStore_check (Some a) w =
    (Ret (if s_store st =? 0 then Some (errors_New "nil winStore pointer")
          else if s_closed st then Some (errors_New "store closed")
          else None), w).
Proof.
  intros H. unfold winStore_check, bind. rewrite (load_at Stores a st w H).
  destruct (s_store st =? 0); [reflexivity|]. now destruct (s_closed st).
Qed.

Lemma winStore_check_open a st w :
  stores w !! a = Some st -> s_store st <> 0 -> s_closed st = false ->
  winStore_check (Some a) w = (Ret None, w).
Proof.
  intros H H0 Hc. rewrite (winStore_check_at a st w H), Hc.
  now destruct (Z.eqb_spec (s_store st) 0).
Qed.

(** One call of [nextCert] on a store with a recorded error. *)
Lemma nextCert_sticky_step w a :
  sticky w a ->
  exists w', nextCert oracle (Some a) w = (Ret 0, w')
             /\ trace w' = trace w /\ idents w' = idents w /\ keys w' = keys w
             /\ sticky w' a.
Proof.
  intros (st & e & Hst & He).
  unfold nextCert.
  step (winStore_check_at a st w Hst).
  set (chk := if s_store st =? 0 then _ else _).
  destruct chk as [err|].
  - step (update_at Stores a st (set_err (Some err)) w Hst).
    set (w1 := with_objs Stores _ w).
    assert (H1 : stores w1 !! a = Some (set_err (Some err) st)).
    { subst w1. simpl. apply list_lookup_insert_eq. eapply lookup_lt_Some, Hst. }
    step (load_at Stores a _ w1 H1). simpl.
    exists w1. repeat split; try reflexivity.
    exists (set_err (Some err) st), err. now split.
  - step (ret_run tt w).
    step (load_at Stores a st w Hst). rewrite He.
    exists w. repeat split; try reflexivity. now exists st, e.
Qed.

(** One call of [nextCert] on an open store with no recorded error. *)
Lemma nextCert_open w a st :
  stores w !! a = Some st -> s_store st <> 0 -> s_closed st = false ->
  s_err st = None ->
  let r := oracle (trace w) (find_call st) in
  let w1 := log [(find_call st, r)] w in
  let g := oracle (trace w1) GetLastError in
  nextCert oracle (Some a) w =
    if rv r =? 0 then
      (Ret 0,
       put_store a (set_err (Some (errors_Wrap (errCode (DWORD (rv g)))
                                     "CertFindCertificateInStore failed"))
                      (set_prev 0 st))
         (log [(GetLastError, g)] w1))
    else (Ret (rv r), put_store a (set_prev (rv r) st) w1).
Proof.
  intros Hst H0 Hc He r w1 g. unfold nextCert.
  step (winStore_check_open a st w Hst H0 Hc).
  step (ret_run tt w). step (load_at Stores a st w Hst). rewrite He.
  step (cgo_run (find_call st) w). fold r. fold w1.
  assert (H1 : stores w1 !! a = Some st) by exact Hst.
  step (update_at Stores a st (set_prev (rv r)) w1 H1).
  change (with_objs Stores (<[a := set_prev (rv r) st]> (objs Stores w1)) w1)
    with (put_store a (set_prev (rv r) st) w1).
  destruct (Z.eqb_spec (rv r) 0) as [Hr|Hr]; [|reflexivity].
  set (w2 := put_store _ _ w1).
  step (lastError_run "CertFindCertificateInStore failed" w2).
  assert (H2 : stores (log [(GetLastError, oracle (trace w2) GetLastError)] w2) !! a
               = Some (set_prev (rv r) st)).
  { simpl. apply list_lookup_insert_eq. eapply lookup_lt_Some, Hst. }
  step (update_at Stores a _ (set_err (Some (errors_Wrap
          (errCode (DWORD (rv (oracle (trace w2) GetLastError))))
          "CertFindCertificateInStore failed"))) _ H2).
  rewrite ret_run. f_equal. subst w2. rewrite Hr.
  unfold put_store, log, with_trace. simpl. now rewrite list_insert_insert_eq.
Qed.

End StoreFacts.

Section StoreMethods.
Variable oracle : list event -> call -> reply.

Lemma getError_at a st w :
  stores w !! a = Some st ->
  getError (Some a) w =
    (Ret (if s_store st =? 0 then Some (errors_New "nil winStore pointer")
          else if s_closed st then Some (errors_New "store closed")
          else if cause_is_errCode (s_err st) cryptENotFound then None
          else s_err st), w).
Proof.
  intros Hst. unfold getError. step (winStore_check_at a st w Hst).
  destruct (s_store st =? 0); [reflexivity|].
  destruct (s_closed st); [reflexivity|].
  step (load_at Stores a st w Hst).
  now destruct (cause_is_errCode (s_err st) cryptENotFound).
Qed.

Lemma reset_open a st w :
  stores w !! a = Some st -> s_store st <> 0 -> s_closed st = false ->
  let w1 := if s_prev st =? 0 then w
            else log [(CertFreeCertificateContext (s_prev st),
                       oracle (trace w) (CertFreeCertificateContext (s_prev st)))] w in
  reset oracle (Some a) w =
    (Ret None, put_store a (set_err None (set_prev 0 st)) w1).
Proof.
  intros Hst H0 Hc w1. unfold reset.
  step (winStore_check_open a st w Hst H0 Hc).
  step (load_at Stores a st w Hst).
  assert (Hfree : (if s_prev st =? 0 then ret tt
                   else bind (cgo oracle (CertFreeCertificateContext (s_prev st)))
                          (fun _ => ret tt)) w = (Ret tt, w1)).
  { subst w1. now destruct (s_prev st =? 0). }
  step Hfree.
  assert (H1 : stores w1 !! a = Some st).
  { subst w1. now destruct (s_prev st =? 0). }
  step (update_at Stores a st (set_prev 0) w1 H1).
  assert (H2 : stores (put_store a (set_prev 0 st) w1) !! a = Some (set_prev 0 st)).
  { apply put_store_lookup. eapply lookup_lt_Some, H1. }
  step (update_at Stores a _ (set_err None) _ H2).
  rewrite ret_run. f_equal. apply put_store_twice.
Qed.

Lemma winStore_Close_open a st w :
  stores w !! a = Some st -> s_store st <> 0 -> s_closed st = false ->
  let w1 := if s_prev st =? 0 then w
            else log [(CertFreeCertificateContext (s_prev st),
                       oracle (trace w) (CertFreeCertificateContext (s_prev st)))] w in
  winStore_Close oracle (Some a) w =
    (Ret tt, put_store a (set_closed true st)
               (log [(CertCloseStore (s_store st),
                      oracle (trace w1) (CertCloseStore (s_store st)))] w1)).
Proof.
  intros Hst H0 Hc w1. unfold winStore_Close.
  step (winStore_check_open a st w Hst H0 Hc).
  step (load_at Stores a st w Hst).
  assert (Hfree : (if s_prev st =? 0 then ret tt
                   else bind (cgo oracle (CertFreeCertificateContext (s_prev st)))
                          (fun _ => ret tt)) w = (Ret tt, w1)).
  { subst w1. now destruct (s_prev st =? 0). }
  step Hfree.
  assert (H1 : stores w1 !! a = Some st).
  { subst w1. now destruct (s_prev st =? 0). }
  step (cgo_run oracle (CertCloseStore (s_store st)) w1).
  apply (update_at Stores a st (set_closed true)). exact H1.
Qed.

(** The four methods that start with [_check] turn a closed store away
    without any call leaving Go. *)
Lemma closed_store_rejected a st w :
  stores w !! a = Some st -> s_store st <> 0 -> s_closed st = true ->
  getError (Some a) w = (Ret (Some (errors_New "store closed")), w)
  /\ reset oracle (Some a) w = (Ret (Some (errors_New "store closed")), w)
  /\ winStore_Close oracle (Some a) w = (Ret tt, w)
  /\ nextCert oracle (Some a) w
     = (Ret 0, put_store a (set_err (Some (errors_New "store closed")) st) w).
Proof.
  intros Hst H0 Hc.
  assert (Hchk : winStore_check (Some a) w = (Ret (Some (errors_New "store closed")), w)).
  { rewrite (winStore_check_at a st w Hst), Hc. now destruct (Z.eqb_spec (s_store st) 0). }
  repeat split.
  - unfold getError. now step Hchk.
  - unfold reset. now step Hchk.
  - unfold winStore_Close. now step Hchk.
  - unfold nextCert. step Hchk.
    step (update_at Stores a st (set_err (Some (errors_New "store closed"))) w Hst).
    assert (H1 : stores (put_store a (set_err (Some (errors_New "store closed")) st) w) !! a
                 = Some (set_err (Some (errors_New "store closed")) st)).
    { apply put_store_lookup. eapply lookup_lt_Some, Hst. }
    now step (load_at Stores a _ _ H1).
Qed.


End StoreMethods.

(** * The claims about the certificate store *)

(** C1 (evaluated at the input on which it fails): [importPFX] has no
    [_check].  Called on a store that was already closed, it imports the
    bundle, adds the certificate to the closed store's handle and returns
    the new identity with a nil error; eight calls leave Go and no
    invalid-state error is produced. *)
Theorem C1_importPFX_runs_on_closed_store :
  let run := importPFX (scripted pfx_script) CRYPT_ACQUIRE_ALLOW_NCRYPT_KEY_FLAG
               3 (Some 0%nat) [x01] "pw" closed_store_world in
  fst run = Ret ([Some 0%nat], None)
  /\ map fst (trace (snd run)) =
       [ PFXImportCertStore [x01] "pw" CRYPT_USER_KEYSET;
         CertFindCertificateInStore 7 65537 0 0;
         ReadCertContext 9;
         CertAddEncodedCertificateToStore 5 1 [x30; x00] CERT_STORE_ADD_REPLACE_EXISTING;
         CertDuplicateCertificateContext 11;
         CertFindCertificateInStore 7 65537 0 9;
         GetLastError;
         CertCloseStore 7 ]
  /\ stores closed_store_world !! 0%nat
     = Some {| s_store := 5; s_prev := 0; s_err := None; s_closed := true |}.
Proof. vm_compute. auto. Qed.

Section StoreClaims.
Variable oracle : list event -> call -> reply.

Lemma nextCert_open_sticky w a st e :
  stores w !! a = Some st -> s_store st <> 0 -> s_closed st = false ->
  s_err st = Some e ->
  nextCert oracle (Some a) w = (Ret 0, w).
Proof.
  intros Hst H0 Hc He. unfold nextCert.
  step (winStore_check_open a st w Hst H0 Hc). step (ret_run tt w).
  step (load_at Stores a st w Hst). now rewrite He.
Qed.

Lemma nextCert_check_fails w a st err :
  stores w !! a = Some st ->
  winStore_check (Some a) w = (Ret (Some err), w) ->
  nextCert oracle (Some a) w = (Ret 0, put_store a (set_err (Some err) st) w).
Proof.
  intros Hst Hchk. unfold nextCert. step Hchk.
  step (update_at Stores a st (set_err (Some err)) w Hst).
  assert (H1 : stores (put_store a (set_err (Some err) st) w) !! a
               = Some (set_err (Some err) st)).
  { apply put_store_lookup. eapply lookup_lt_Some, Hst. }
  now step (load_at Stores a _ _ H1).
Qed.

(** Whenever [nextCert] returns nil, the store has a recorded error. *)
Lemma nextCert_nil_records_error w a st w' :
  stores w !! a = Some st ->
  nextCert oracle (Some a) w = (Ret 0, w') -> sticky w' a.
Proof.
  intros Hst Hrun.
  assert (Hlt : (a < length (stores w))%nat) by (eapply lookup_lt_Some, Hst).
  pose proof (winStore_check_at a st w Hst) as Hchk.
  destruct (Z.eqb_spec (s_store st) 0) as [H0|H0].
  { rewrite (nextCert_check_fails w a st _ Hst Hchk) in Hrun.
    injection Hrun as <-. eexists _, _. split; [now apply put_store_lookup|reflexivity]. }
  destruct (s_closed st) eqn:Hc.
  { rewrite (nextCert_check_fails w a st _ Hst Hchk) in Hrun.
    injection Hrun as <-. eexists _, _. split; [now apply put_store_lookup|reflexivity]. }
  destruct (s_err st) as [e|] eqn:He.
  { rewrite (nextCert_open_sticky w a st e Hst H0 Hc He) in Hrun.
    injection Hrun as <-. now exists st, e. }
  rewrite (nextCert_open oracle w a st Hst H0 Hc He) in Hrun.
  destruct (Z.eqb_spec (rv (oracle (trace w) (find_call st))) 0) as [Hr|Hr].
  - injection Hrun as <-. eexists _, _. split; [now apply put_store_lookup|reflexivity].
  - injection Hrun as Hz _. contradiction.
Qed.



End StoreClaims.


Section StickyClaim.
Variable oracle : list event -> call -> reply.

(** C10: while a store has a recorded error, every call of [nextCert]
    returns nil without a call leaving Go and the error stays recorded,
    however many calls are made; a [nextCert] that returns nil always
    leaves an error recorded (from the failed lookup or the failed state
    check); and [reset] on an open store clears both the cursor and the
    recorded error. *)
Theorem C10_recorded_error_is_sticky_until_reset w a :
  sticky w a ->
  (forall n, exists w',
      nextCert_times oracle n (Some a) w = (Ret (replicate n 0), w')
      /\ trace w' = trace w /\ sticky w' a)
  /\ (forall w0 st0 w1, stores w0 !! a = Some st0 ->
        nextCert oracle (Some a) w0 = (Ret 0, w1) -> sticky w1 a)
  /\ (open_store w a ->
      exists w' st',
        reset oracle (Some a) w = (Ret None, w')
        /\ stores w' !! a = Some st'
        /\ s_prev st' = 0 /\ s_err st' = None /\ ~ sticky w' a).
Proof.
  intros Hs. split; [|split].
  - intros n. revert w Hs. induction n as [|n IH]; intros w Hs.
    + exists w. now repeat split.
    + destruct (nextCert_sticky_step oracle w a Hs) as (w1 & Hrun & Ht & _ & _ & Hs1).
      destruct (IH w1 Hs1) as (w2 & Hrun2 & Ht2 & Hs2).
      exists w2. split; [|split; [congruence|exact Hs2]].
      simpl. step Hrun. step Hrun2. reflexivity.
  - intros w0 st0 w1 Hst0 Hrun. eapply nextCert_nil_records_error; eauto.
  - intros (st & Hst & H0 & Hc).
    eexists _, _. split; [apply (reset_open oracle a st w Hst H0 Hc)|].
    assert (Hlook : forall w1, (a < length (stores w1))%nat ->
              stores (put_store a (set_err None (set_prev 0 st)) w1) !! a
              = Some (set_err None (set_prev 0 st))).
    { intros w1. apply put_store_lookup. }
    assert (Hlt : (a < length (stores w))%nat) by (eapply lookup_lt_Some, Hst).
    assert (Hl : stores (put_store a (set_err None (set_prev 0 st))
                  (if s_prev st =? 0 then w
                   else log [(CertFreeCertificateContext (s_prev st),
                              oracle (trace w) (CertFreeCertificateContext (s_prev st)))] w))
                 !! a = Some (set_err None (set_prev 0 st))).
    { apply Hlook. now destruct (s_prev st =? 0). }
    split; [exact Hl|]. split; [reflexivity|]. split; [reflexivity|].
    intros (st' & e & Hst' & He). rewrite Hl in Hst'. injection Hst' as <-. discriminate.
Qed.

End StickyClaim.

Lemma C10_witness :
  let oracle := scripted [] in
  sticky failed_store_world 0
  /\ open_store failed_store_world 0
  /\ (exists w',
        nextCert_times oracle 3 (Some 0%nat) failed_store_world = (Ret [0; 0; 0], w')
        /\ trace w' = trace failed_store_world /\ sticky w' 0)
  /\ (exists w' st',
        reset oracle (Some 0%nat) failed_store_world = (Ret None, w')
        /\ stores w' !! 0%nat = Some st'
        /\ s_prev st' = 0 /\ s_err st' = None /\ ~ sticky w' 0).
Proof.
  intros oracle.
  assert (H : sticky failed_store_world 0).
  { eexists _, _. split; reflexivity. }
  assert (Ho : open_store failed_store_world 0).
  { eexists. split; [reflexivity|]. split; [simpl; lia|reflexivity]. }
  destruct (C10_recorded_error_is_sticky_until_reset oracle failed_store_world 0%nat H)
    as (Hn & _ & Hr).
  split; [exact H|]. split; [exact Ho|]. split; [exact (Hn 3%nat)|exact (Hr Ho)].
Defined.

(** * Frame and inversion lemmas *)

Lemma bind_Ret_inv {A B} (m : Go A) (k : A -> Go B) w b w' :
  bind m k w = (Ret b, w') ->
  exists a w1, m w = (Ret a, w1) /\ k a w1 = (Ret b, w').
Proof.
  unfold bind. destruct (m w) as [[a|p|] w1]; try discriminate. eauto.
Qed.

Lemma bind_assoc {A B C} (m : Go A) (f : A -> Go B) (g : B -> Go C) w :
  bind (bind m f) g w = bind m (fun x => bind (f x) g) w.
Proof. unfold bind. now destruct (m w) as [[a|p|] w1]. Qed.

Lemma preserves_ret {X A} (part : world -> X) (a : A) : preserves part (ret a).
Proof. now intros w. Qed.

Lemma preserves_throw {X A} (part : world -> X) msg : preserves part (@throw A msg).
Proof. now intros w. Qed.

Lemma preserves_bind {X A B} (part : world -> X) (m : Go A) (k : A -> Go B) :
  preserves part m -> (forall a, preserves part (k a)) -> preserves part (bind m k).
Proof.
  intros Hm Hk w. unfold bind. specialize (Hm w).
  destruct (m w) as [[a|p|] w1]; simpl in *; try exact Hm.
  now rewrite (Hk a w1).
Qed.

Lemma preserves_defer {X A} (part : world -> X) (c : Go unit) (m : Go A) :
  preserves part c -> preserves part m -> preserves part (defer c m).
Proof.
  intros Hc Hm w. unfold defer. specialize (Hm w).
  destruct (m w) as [[a|p|] w1]; simpl in *; try exact Hm;
    specialize (Hc w1); destruct (c w1) as [[[]|q|] w2]; simpl in *; congruence.
Qed.

Lemma preserves_load {X T} (part : world -> X) (h : heap T) p : preserves part (load h p).
Proof.
  intros w. unfold load. destruct p as [a|]; [|reflexivity].
  now destruct (objs h w !! a).
Qed.

Lemma preserves_new {X T} (part : world -> X) (h : heap T) v :
  (forall l w, part (with_objs h l w) = part w) -> preserves part (new h v).
Proof. intros H w. apply H. Qed.

Lemma preserves_update {X T} (part : world -> X) (h : heap T) p f :
  (forall l w, part (with_objs h l w) = part w) -> preserves part (update h p f).
Proof.
  intros H w. unfold update, bind, load. destruct p as [a|]; [|reflexivity].
  destruct (objs h w !! a); [apply H|reflexivity].
Qed.

Lemma preserves_addr_of_first {X} (part : world -> X) b : preserves part (addr_of_first b).
Proof. now destruct b. Qed.

Lemma preserves_for_each {X A} (part : world -> X) (l : list A) body :
  (forall x, preserves part (body x)) -> preserves part (for_each l body).
Proof.
  intros Hb. induction l as [|x l IH]; [apply preserves_ret|].
  simpl. apply preserves_bind; auto.
Qed.

Lemma preserves_cgo {X} (part : world -> X) oracle c :
  (forall t w, part (with_trace t w) = part w) -> preserves part (cgo oracle c).
Proof. intros H w. apply H. Qed.

Lemma preserves_lastError {X} (part : world -> X) oracle msg :
  (forall t w, part (with_trace t w) = part w) -> preserves part (lastError oracle msg).
Proof. intros H w. apply H. Qed.

Create HintDb frame discriminated.
#[export] Hint Resolve preserves_ret preserves_throw preserves_load
  preserves_addr_of_first : frame.
#[export] Hint Extern 1 (preserves _ (cgo _ _)) =>
  apply preserves_cgo; intros; reflexivity : frame.
#[export] Hint Extern 1 (preserves _ (lastError _ _)) =>
  apply preserves_lastError; intros; reflexivity : frame.
#[export] Hint Extern 1 (preserves _ (new _ _)) =>
  apply preserves_new; intros; reflexivity : frame.
#[export] Hint Extern 1 (preserves _ (update _ _ _)) =>
  apply preserves_update; intros; reflexivity : frame.

(** Walks through a computation: binds, defers, loops over lists, and the
    [if] and [match] between them. *)
Ltac frame :=
  repeat first
    [ progress auto with frame
    | apply preserves_bind; [|intros ?]
    | apply preserves_defer
    | apply preserves_for_each; intros ?
    | match goal with
      | |- preserves _ (if ?b then _ else _) => destruct b
      | |- preserves _ (match ?x with _ => _ end) => destruct x
      end ].

Section IdentityFacts.
Variable oracle : list event -> call -> reply.
Variable winAPIFlag : Z.

Lemma winIdentity_check_at a id w :
  idents w !! a = Some id ->
  winIdentity_check (Some a) w =
    (Ret (if i_ctx id =? 0 then Some (errors_New "nil certificate context")
          else if i_closed id then Some (errors_New "identity closed")
          else None), w).
Proof.
  intros H. unfold winIdentity_check. step (load_at Idents a id w H).
  destruct (i_ctx id =? 0); [reflexivity|]. now destruct (i_closed id).
Qed.

Lemma preserves_winIdentity_check {X} (part : world -> X) i :
  preserves part (winIdentity_check i).
Proof. unfold winIdentity_check. frame. Qed.

Lemma preserves_winPrivateKey_Close_keys k : preserves keys (winPrivateKey_Close oracle k).
Proof. unfold winPrivateKey_Close. frame. Qed.
Lemma preserves_winPrivateKey_Close_idents k : preserves idents (winPrivateKey_Close oracle k).
Proof. unfold winPrivateKey_Close. frame. Qed.
Lemma preserves_winPrivateKey_Close_stores k : preserves stores (winPrivateKey_Close oracle k).
Proof. unfold winPrivateKey_Close. frame. Qed.

(** [winIdentity.Close] writes to no Go object: in particular it never
    sets the [closed] flag it checks. *)
Lemma winIdentity_Close_keeps_heaps i w :
  let w' := snd (winIdentity_Close oracle i w) in
  stores w' = stores w /\ idents w' = idents w /\ keys w' = keys w.
Proof.
  assert (Hs : preserves stores (winIdentity_Close oracle i)).
  { unfold winIdentity_Close. pose proof preserves_winPrivateKey_Close_stores.
    pose proof (@preserves_winIdentity_check). frame. }
  assert (Hi : preserves idents (winIdentity_Close oracle i)).
  { unfold winIdentity_Close. pose proof preserves_winPrivateKey_Close_idents.
    pose proof (@preserves_winIdentity_check). frame. }
  assert (Hk : preserves keys (winIdentity_Close oracle i)).
  { unfold winIdentity_Close. pose proof preserves_winPrivateKey_Close_keys.
    pose proof (@preserves_winIdentity_check). frame. }
  simpl. split; [apply Hs|]. split; [apply Hi|apply Hk].
Qed.

End IdentityFacts.

(** * The claims about identities *)

(** C2 (evaluated at the input on which it fails): [winIdentity.Close]
    checks the [closed] flag but never sets it.  Closing an open identity
    with a resolved CNG key twice releases the key handle 4 and the
    certificate context 9 twice, the flag is still false afterwards, and
    [GetSigner] on the closed identity still succeeds with the freed key. *)
Theorem C2_second_Close_frees_again :
  let oracle := scripted [] in
  let closed_twice :=
    bind (winIdentity_Close oracle (Some 0%nat))
         (fun _ => winIdentity_Close oracle (Some 0%nat)) resolved_identity_world in
  fst closed_twice = Ret tt
  /\ map fst (trace (snd closed_twice)) =
       [ NCryptFreeObject 4; CertFreeCertificateContext 9;
         NCryptFreeObject 4; CertFreeCertificateContext 9 ]
  /\ idents (snd closed_twice) = [ {| i_ctx := 9; i_signer := Some 0%nat; i_closed := false |} ]
  /\ fst (GetSigner oracle 0 (Some 0%nat) (snd closed_twice)) = Ret (Some 0%nat, None).
Proof. vm_compute. auto. Qed.

Section SignerClaim.
Variable oracle : list event -> call -> reply.
Variable winAPIFlag : Z.

Lemma preserves_GetCertificate_idents i : preserves idents (GetCertificate oracle i).
Proof.
  unfold GetCertificate. pose proof (@preserves_winIdentity_check). frame.
Qed.

Lemma preserves_newWinPrivateKey_idents ctx pk :
  preserves idents (newWinPrivateKey oracle winAPIFlag ctx pk).
Proof. unfold newWinPrivateKey. frame. Qed.

(** A successful [newWinPrivateKey] hands back a non-nil pointer. *)
Lemma newWinPrivateKey_not_nil ctx pk w k w' :
  newWinPrivateKey oracle winAPIFlag ctx pk w = (Ret (k, None), w') -> k <> None.
Proof.
  unfold newWinPrivateKey, bind, lastError, cgo, new, ret. intros H.
  repeat match type of H with
         | context [match ?x with _ => _ end] => destruct x eqn:?
         end; cbv beta iota zeta in H; try discriminate H;
    injection H as H1 _; rewrite <- H1; discriminate.
Qed.

(** An open identity with a resolved key answers from its cache. *)
Lemma getPrivateKey_cached a id k w :
  idents w !! a = Some id -> i_ctx id <> 0 -> i_closed id = false ->
  i_signer id = Some k ->
  getPrivateKey oracle winAPIFlag (Some a) w = (Ret (Some k, None), w).
Proof.
  intros Hid H0 Hc Hk. unfold getPrivateKey.
  step (winIdentity_check_at a id w Hid). rewrite Hc.
  destruct (Z.eqb_spec (i_ctx id) 0); [contradiction|].
  step (load_at Idents a id w Hid). now rewrite Hk.
Qed.

(** After a successful [getPrivateKey] the identity is open and holds the
    key that was returned. *)
Lemma getPrivateKey_success_caches a w k w1 :
  getPrivateKey oracle winAPIFlag (Some a) w = (Ret (k, None), w1) ->
  exists id k', k = Some k' /\ idents w1 !! a = Some id
                /\ i_ctx id <> 0 /\ i_closed id = false /\ i_signer id = Some k'.
Proof.
  intros H. unfold getPrivateKey in H.
  apply bind_Ret_inv in H as (e & w0 & Hchk & H).
  destruct (idents w !! a) as [id|] eqn:Hid.
  2:{ unfold winIdentity_check, bind, load in Hchk. simpl in Hchk.
      rewrite Hid in Hchk. discriminate. }
  rewrite (winIdentity_check_at a id w Hid) in Hchk. injection Hchk as <- <-.
  destruct (Z.eqb_spec (i_ctx id) 0) as [|H0]; [discriminate H|].
  destruct (i_closed id) eqn:Hc; [discriminate H|].
  rewrite (bind_Ret _ _ _ _ _ (load_at Idents a id w Hid)) in H.
  destruct (i_signer id) as [k0|] eqn:Hk.
  { injection H as <- <-. exists id, k0. auto. }
  apply bind_Ret_inv in H as ([c ce] & w2 & Hcert & H).
  assert (Hid2 : idents w2 !! a = Some id).
  { pose proof (preserves_GetCertificate_idents (Some a) w) as Hp.
    rewrite Hcert in Hp. simpl in Hp. now rewrite Hp. }
  destruct c as [cert|], ce as [err|]; cbv beta iota in H; try discriminate H.
  apply bind_Ret_inv in H as ([signer se] & w3 & Hnew & H).
  destruct se as [err|]; cbv beta iota in H; [discriminate H|].
  assert (Hid3 : idents w3 !! a = Some id).
  { pose proof (preserves_newWinPrivateKey_idents (i_ctx id) (cert_PublicKey cert) w2) as Hp.
    rewrite Hnew in Hp. simpl in Hp. now rewrite Hp. }
  rewrite (bind_Ret _ _ _ _ _ (update_at Idents a id (set_signer signer) w3 Hid3)) in H.
  injection H as <- <-.
  pose proof (newWinPrivateKey_not_nil _ _ _ _ _ Hnew) as Hnn.
  destruct signer as [k'|]; [|contradiction].
  exists (set_signer (Some k') id), k'. repeat split; auto.
  simpl. apply list_lookup_insert_eq. eapply lookup_lt_Some, Hid3.
Qed.

(** C9: once [GetSigner] has succeeded on an identity, what it returned
    is a non-nil key pointer, and every later [GetSigner] on that
    identity succeeds with the same pointer and leaves the world, and so
    the trace of calls, exactly as it was: nothing is acquired again. *)
Theorem C9_GetSigner_is_memoized a w k w1 :
  GetSigner oracle winAPIFlag (Some a) w = (Ret (k, None), w1) ->
  k <> None
  /\ GetSigner oracle winAPIFlag (Some a) w1 = (Ret (k, None), w1)
  /\ forall n, GetSigner_times oracle winAPIFlag n (Some a) w1
               = (Ret (replicate n (k, None)), w1).
Proof.
  intros H. unfold GetSigner in *.
  destruct (getPrivateKey_success_caches a w k w1 H) as (id & k' & -> & Hid & H0 & Hc & Hk).
  pose proof (getPrivateKey_cached a id k' w1 Hid H0 Hc Hk) as Hagain.
  split; [discriminate|]. split; [exact Hagain|].
  induction n as [|n IH]; [reflexivity|].
  simpl. unfold GetSigner. step Hagain. step IH. reflexivity.
Qed.

End SignerClaim.

Lemma C9_witness :
  let oracle := scripted resolve_script in
  let w1 := snd (GetSigner oracle 0x10000 (Some 0%nat) one_identity_world) in
  GetSigner oracle 0x10000 (Some 0%nat) one_identity_world = (Ret (Some 0%nat, None), w1)
  /\ Some 0%nat <> None
  /\ GetSigner oracle 0x10000 (Some 0%nat) w1 = (Ret (Some 0%nat, None), w1)
  /\ forall n, GetSigner_times oracle 0x10000 n (Some 0%nat) w1
               = (Ret (replicate n (Some 0%nat, None)), w1).
Proof.
  intros oracle w1.
  assert (H : GetSigner oracle 0x10000 (Some 0%nat) one_identity_world
              = (Ret (Some 0%nat, None), w1)) by reflexivity.
  split; [exact H|].
  exact (C9_GetSigner_is_memoized oracle 0x10000 0%nat one_identity_world (Some 0%nat) w1 H).
Defined.

(** * The claims about signing *)

Section DigestClaim.
Variable oracle : list event -> call -> reply.

(** C4: when the digest's length differs from the size of the hash, both
    signing paths, and [Sign] on a key that has either backend handle,
    return the error "bad digest for hash" and leave the world as it was:
    no call has left Go and no Go object, the key included, has
    changed. *)
Theorem C4_wrong_digest_size_is_rejected_first w wpk k hash size digest :
  keys w !! wpk = Some k ->
  capiProv k <> 0 \/ cngHandle k <> 0 ->
  hash_Size hash = Some size ->
  length digest <> size ->
  let rejected := (Ret ([], Some (errors_New "bad digest for hash")), w) in
  Sign oracle (Some wpk) digest hash w = rejected
  /\ cngSignHash oracle (Some wpk) hash digest w = rejected
  /\ capiSignHash oracle (Some wpk) hash digest w = rejected.
Proof.
  intros Hk Hres Hsize Hlen rejected.
  assert (Hne : (length digest =? size)%nat = false) by now apply Nat.eqb_neq.
  assert (Hcng : cngSignHash oracle (Some wpk) hash digest w = rejected).
  { unfold cngSignHash, Size. rewrite Hsize. step (ret_run size w). now rewrite Hne. }
  assert (Hcapi : capiSignHash oracle (Some wpk) hash digest w = rejected).
  { unfold capiSignHash, Size. rewrite Hsize. step (ret_run size w). now rewrite Hne. }
  split; [|now split].
  unfold Sign. step (load_at Keys wpk k w Hk).
  destruct (Z.eqb_spec (capiProv k) 0) as [Hc|Hc]; [|exact Hcapi].
  destruct (Z.eqb_spec (cngHandle k) 0) as [Hn|Hn]; [|exact Hcng].
  destruct Hres; contradiction.
Qed.

End DigestClaim.

Lemma C4_witness :
  let oracle := scripted [] in
  let rejected := (Ret ([], Some (errors_New "bad digest for hash")), two_keys_world) in
  keys two_keys_world !! 1%nat
    = Some {| publicKey := rsa_PublicKey; capiProv := 6; cngHandle := 0; keySpec := 1 |}
  /\ hash_Size crypto_SHA256 = Some 32%nat
  /\ length [x01; x02] <> 32%nat
  /\ Sign oracle (Some 1%nat) [x01; x02] crypto_SHA256 two_keys_world = rejected
  /\ cngSignHash oracle (Some 1%nat) crypto_SHA256 [x01; x02] two_keys_world = rejected
  /\ capiSignHash oracle (Some 1%nat) crypto_SHA256 [x01; x02] two_keys_world = rejected.
Proof.
  intros oracle rejected.
  assert (Hk : keys two_keys_world !! 1%nat
               = Some {| publicKey := rsa_PublicKey; capiProv := 6; cngHandle := 0; keySpec := 1 |})
    by reflexivity.
  assert (Hs : hash_Size crypto_SHA256 = Some 32%nat) by reflexivity.
  assert (Hl : length [x01; x02] <> 32%nat) by (simpl; lia).
  split; [exact Hk|]. split; [exact Hs|]. split; [exact Hl|].
  apply (C4_wrong_digest_size_is_rejected_first oracle two_keys_world 1%nat _
           crypto_SHA256 32%nat [x01; x02] Hk); [left; simpl; lia|exact Hs|exact Hl].
Defined.

(** ** Reversal in place *)

Lemma swap_lookup (sig : list byte) i opp sig' :
  swap sig i opp = Some sig' ->
  length sig' = length sig
  /\ forall j, sig' !! j = if decide (j = opp) then sig !! i
                           else if decide (j = i) then sig !! opp
                           else sig !! j.
Proof.
  unfold swap. destruct (sig !! i) as [a|] eqn:Hi; [|discriminate].
  destruct (sig !! opp) as [b|] eqn:Ho; [|discriminate].
  intros [= <-]. split; [now rewrite !length_insert|].
  intros j. apply lookup_lt_Some in Hi as Hli. apply lookup_lt_Some in Ho as Hlo.
  destruct (decide (j = opp)) as [->|Hjo].
  - rewrite list_lookup_insert_eq; [easy|]. now rewrite length_insert.
  - rewrite list_lookup_insert_ne by congruence.
    destruct (decide (j = i)) as [->|Hji].
    + now rewrite list_lookup_insert_eq.
    + now rewrite list_lookup_insert_ne by congruence.
Qed.

Lemma swap_in_range (sig : list byte) i opp :
  (i < length sig)%nat -> (opp < length sig)%nat -> is_Some (swap sig i opp).
Proof.
  intros Hi Ho. unfold swap.
  destruct (lookup_lt_is_Some_2 sig i Hi) as [a ->].
  destruct (lookup_lt_is_Some_2 sig opp Ho) as [b ->]. eauto.
Qed.

(** After the loop has run from index [k - 1] down to [0], the first and
    the last [k] bytes have changed places, mirrored. *)
Lemma reverse_from_spec k : forall sig : list byte,
  (2 * k <= length sig)%nat ->
  exists sig', reverse_from k sig = Some sig'
    /\ length sig' = length sig
    /\ forall j, (j < length sig)%nat ->
         sig' !! j = if decide (j < k \/ length sig - k <= j)%nat
                     then sig !! (length sig - 1 - j)%nat else sig !! j.
Proof.
  induction k as [|i IH]; intros sig Hk.
  - exists sig. split; [reflexivity|]. split; [reflexivity|].
    intros j Hj. destruct (decide _) as [[?|?]|?]; try lia; reflexivity.
  - simpl. set (opp := (length sig - 1 - i)%nat).
    destruct (swap_in_range sig i opp) as [sig1 Hs]; [lia|lia|].
    rewrite Hs. destruct (swap_lookup sig i opp sig1 Hs) as [Hl1 Hlk1].
    destruct (IH sig1) as (sig' & Hrun & Hl & Hlk); [lia|].
    exists sig'. split; [exact Hrun|]. split; [congruence|].
    intros j Hj. rewrite Hlk by lia. rewrite Hl1. rewrite !Hlk1.
    repeat destruct (decide _); try lia; try reflexivity; f_equal; lia.
Qed.

(** The loop of [capiSignHash] reverses the slice and never indexes out of
    range. *)
Lemma reverse_in_place_reverse (sig : list byte) :
  reverse_in_place sig = Some (reverse sig).
Proof.
  unfold reverse_in_place.
  assert (Hhalf : (2 * (length sig / 2) <= length sig)%nat).
  { pose proof (Nat.div_mod_eq (length sig) 2). lia. }
  destruct (reverse_from_spec _ sig Hhalf) as (sig' & -> & Hl & Hlk).
  f_equal. apply list_eq. intros j.
  destruct (decide (j < length sig)%nat) as [Hj|Hj].
  - rewrite Hlk by exact Hj. rewrite reverse_lookup by exact Hj.
    pose proof (Nat.div_mod_eq (length sig) 2).
    pose proof (Nat.mod_upper_bound (length sig) 2).
    destruct (decide _) as [?|Hmid]; [f_equal; lia|].
    f_equal. lia.
  - rewrite !lookup_ge_None_2; [reflexivity| |]; rewrite ?length_reverse; lia.
Qed.

(** Case analysis on every test a computation makes, innermost first. *)
Ltac unravel :=
  repeat (cbv beta iota zeta;
          match goal with
          | |- context [match ?x with _ => _ end] =>
              lazymatch x with
              | context [match _ with _ => _ end] => fail
              | _ => destruct x eqn:?
              end
          end);
  cbv beta iota zeta.

Section ReversalClaim.
Variable oracle : list event -> call -> reply.

(** C6: when the legacy path succeeds, the last call before the hash
    object is destroyed is the [CryptSignHash] that filled the signature
    buffer, and the bytes returned are that buffer reversed: byte [i] of
    the result is byte [n - 1 - i] of what the native call produced. *)
Theorem C6_capi_signature_is_reversed wpk hash digest w sig w' :
  capiSignHash oracle wpk hash digest w = (Ret (sig, None), w') ->
  exists pre chash spec n r d,
    trace w' = pre ++ [(CryptSignHash chash spec (Some n), r); (CryptDestroyHash chash, d)]
    /\ let produced := fill_buffer n (written r) in
       sig = reverse produced
       /\ length sig = length produced
       /\ forall i, (i < length produced)%nat ->
                    sig !! i = produced !! (length produced - 1 - i)%nat.
Proof.
  unfold capiSignHash, Size, bind, defer, lastError, cgo, load, addr_of_first, ret, throw.
  unravel; intros H; try discriminate H.
  injection H as <- <-.
  match goal with
  | Hrev : reverse_in_place _ = Some _ |- _ =>
      rewrite reverse_in_place_reverse in Hrev; injection Hrev as <-
  end.
  eexists _, _, _, _, _, _. split.
  { simpl. rewrite <- app_assoc. reflexivity. }
  cbv zeta. split; [reflexivity|]. split; [apply length_reverse|].
  intros i Hi. rewrite reverse_lookup by exact Hi. f_equal. lia.
Qed.

End ReversalClaim.

Lemma C6_witness :
  let oracle := scripted capi_sign_script in
  let digest := replicate 20 x00 in
  let w' := snd (capiSignHash oracle (Some 1%nat) crypto_SHA1 digest two_keys_world) in
  capiSignHash oracle (Some 1%nat) crypto_SHA1 digest two_keys_world
    = (Ret ([x04; x03; x02; x01], None), w')
  /\ exists pre chash spec n r d,
      trace w' = pre ++ [(CryptSignHash chash spec (Some n), r); (CryptDestroyHash chash, d)]
      /\ let produced := fill_buffer n (written r) in
         [x04; x03; x02; x01] = reverse produced
         /\ length [x04; x03; x02; x01] = length produced
         /\ forall i, (i < length produced)%nat ->
                      [x04; x03; x02; x01] !! i = produced !! (length produced - 1 - i)%nat.
Proof.
  intros oracle digest w'.
  assert (H : capiSignHash oracle (Some 1%nat) crypto_SHA1 digest two_keys_world
              = (Ret ([x04; x03; x02; x01], None), w')) by reflexivity.
  split; [exact H|].
  exact (C6_capi_signature_is_reversed oracle (Some 1%nat) crypto_SHA1 digest
           two_keys_world [x04; x03; x02; x01] w' H).
Defined.

(** ** Big-endian integers and their DER form *)

Lemma Z_of_byte_range b : 0 <= Z_of_byte b < 256.
Proof.
  unfold Z_of_byte. pose proof (Byte.to_N_bounded b). lia.
Qed.

Lemma Z_of_byte_of_Z z : Z_of_byte (byte_of_Z z) = z mod 256.
Proof.
  unfold byte_of_Z, Z_of_byte.
  pose proof (Z.mod_pos_bound z 256 ltac:(lia)) as Hm.
  destruct (Byte.of_N (Z.to_N (z mod 256))) as [b|] eqn:Hb.
  - apply Byte.to_of_N in Hb. rewrite Hb. lia.
  - apply Byte.of_N_None_iff in Hb. lia.
Qed.

Lemma SetBytes_acc (l : list byte) : forall acc,
  fold_left (fun a x => a * 256 + Z_of_byte x) l acc
  = acc * 256 ^ Z.of_nat (length l) + SetBytes l.
Proof.
  unfold SetBytes. induction l as [|b l IH]; intros acc.
  - simpl. lia.
  - cbn [fold_left length]. rewrite IH, (IH (0 * 256 + Z_of_byte b)).
    rewrite Nat2Z.inj_succ, Z.pow_succ_r by lia. lia.
Qed.

Lemma SetBytes_cons b (l : list byte) :
  SetBytes (b :: l) = Z_of_byte b * 256 ^ Z.of_nat (length l) + SetBytes l.
Proof. unfold SetBytes at 1. cbn [fold_left]. rewrite SetBytes_acc. lia. Qed.

Lemma SetBytes_app (a b : list byte) :
  SetBytes (a ++ b) = SetBytes a * 256 ^ Z.of_nat (length b) + SetBytes b.
Proof.
  unfold SetBytes at 1. rewrite fold_left_app, SetBytes_acc. reflexivity.
Qed.

Lemma SetBytes_range (l : list byte) : 0 <= SetBytes l < 256 ^ Z.of_nat (length l).
Proof.
  induction l as [|b l IH].
  - cbn. lia.
  - rewrite SetBytes_cons. cbn [length]. rewrite Nat2Z.inj_succ, Z.pow_succ_r by lia.
    pose proof (Z_of_byte_range b). nia.
Qed.

Lemma be_bytes_value fuel : forall n acc,
  0 <= n < 256 ^ Z.of_nat fuel ->
  SetBytes (asn1.be_bytes fuel n acc) = n * 256 ^ Z.of_nat (length acc) + SetBytes acc.
Proof.
  induction fuel as [|fuel IH]; intros n acc Hn.
  - change (Z.of_nat 0) with 0 in Hn. rewrite Z.pow_0_r in Hn.
    assert (n = 0) by lia. subst. cbn [asn1.be_bytes]. lia.
  - cbn [asn1.be_bytes]. destruct (Z.leb_spec n 0) as [H0|H0].
    + assert (n = 0) by lia. subst. lia.
    + rewrite IH.
      * rewrite SetBytes_cons, Z_of_byte_of_Z. cbn [length].
        rewrite Nat2Z.inj_succ, Z.pow_succ_r by lia.
        pose proof (Z.div_mod n 256 ltac:(lia)). nia.
      * rewrite Nat2Z.inj_succ, Z.pow_succ_r in Hn by lia.
        split; [apply Z.div_pos; lia|]. apply Z.div_lt_upper_bound; lia.
Qed.

(** [SetBytes] undoes [Bytes]. *)
Lemma SetBytes_Bytes n : 0 <= n -> SetBytes (asn1.Bytes n) = n.
Proof.
  intros Hn. unfold asn1.Bytes. rewrite be_bytes_value; [cbn; lia|].
  split; [exact Hn|].
  destruct (Z.eq_dec n 0) as [->|Hz]; [cbn; lia|].
  rewrite Nat2Z.inj_succ, Z2Nat.id by apply Z.log2_nonneg.
  pose proof (Z.log2_spec n ltac:(lia)) as [_ Hlt].
  eapply Z.lt_le_trans; [exact Hlt|].
  apply Z.pow_le_mono_l. lia.
Qed.

(** The content octets of a DER integer read back as the integer. *)
Lemma SetBytes_integer_body n : 0 <= n -> SetBytes (asn1.integer_body n) = n.
Proof.
  intros Hn. unfold asn1.integer_body. pose proof (SetBytes_Bytes n Hn) as Hb.
  destruct (asn1.Bytes n) as [|b bs].
  - cbn in *. lia.
  - destruct (Z.testbit (Z_of_byte b) 7); [|exact Hb].
    rewrite SetBytes_cons. change (Z_of_byte x00) with 0. lia.
Qed.

Lemma length_octets_not_nil n : (1 <= length (asn1.length_octets n))%nat.
Proof. unfold asn1.length_octets. destruct (n <? 128)%nat; cbn; lia. Qed.

Lemma integer_body_not_nil n : (1 <= length (asn1.integer_body n))%nat.
Proof.
  unfold asn1.integer_body. destruct (asn1.Bytes n) as [|b bs]; [cbn; lia|].
  destruct (Z.testbit (Z_of_byte b) 7); cbn; lia.
Qed.

(** The DER form of a signature is never the fixed-width pair it was made
    from: the header of the second integer would have to sit inside the
    second half, whose value is then too large for the content octets
    that follow the header. *)
Lemma Marshal_ecdsaSignature_not_raw (sig : list byte) h :
  length sig = (2 * h)%nat ->
  asn1.Marshal_ecdsaSignature (SetBytes (take h sig)) (SetBytes (drop h sig)) <> sig.
Proof.
  intros Hlen E.
  set (r := SetBytes (take h sig)) in *. set (s := SetBytes (drop h sig)) in *.
  assert (Hr : 0 <= r) by apply SetBytes_range.
  assert (Hs : 0 <= s) by apply SetBytes_range.
  unfold asn1.Marshal_ecdsaSignature, asn1.integer in E. cbv zeta in E.
  set (br := asn1.integer_body r) in *. set (bs := asn1.integer_body s) in *.
  set (lor := asn1.length_octets (length br)) in *.
  set (los := asn1.length_octets (length bs)) in *.
  set (lo := asn1.length_octets _) in E.
  pose proof (length_octets_not_nil (length br)) as Hlor. fold lor in Hlor.
  pose proof (length_octets_not_nil (length bs)) as Hlos. fold los in Hlos.
  assert (Hlo : (1 <= length lo)%nat) by apply length_octets_not_nil.
  pose proof (integer_body_not_nil s) as Hbs. fold bs in Hbs.
  assert (Hvr : SetBytes br = r) by now apply SetBytes_integer_body.
  assert (Hvs : SetBytes bs = s) by now apply SetBytes_integer_body.
  assert (Htot : (length sig = 1 + length lo + (1 + length lor + length br)
                               + (1 + length los + length bs))%nat).
  { rewrite <- E. cbn [length]. rewrite !length_app. cbn [length].
    rewrite !length_app. lia. }
  destruct h as [|h']; [lia|].
  (* the first half starts with the SEQUENCE tag, so r needs h octets *)
  assert (Hbr : (S h' <= length br)%nat).
  { assert (Hr48 : 48 * 256 ^ Z.of_nat h' <= r).
    { subst r. rewrite <- E. cbn [take]. rewrite SetBytes_cons.
      change (Z_of_byte x30) with 48.
      rewrite length_take_le.
      - pose proof (SetBytes_range (take h'
            (lo ++ (x02 :: lor ++ br) ++ x02 :: los ++ bs))). lia.
      - rewrite !length_app. cbn [length]. rewrite !length_app. lia. }
    pose proof (SetBytes_range br) as [_ Hub]. rewrite Hvr in Hub.
    assert (Hpow : 256 ^ Z.of_nat h' < 256 ^ Z.of_nat (length br)).
    { pose proof (Z.pow_pos_nonneg 256 (Z.of_nat h') ltac:(lia) ltac:(lia)). lia. }
    apply Z.pow_lt_mono_r_iff in Hpow; lia. }
  (* hence the second integer, header included, lies inside the second half *)
  set (P := x30 :: lo ++ (x02 :: lor ++ br)).
  set (T := x02 :: los ++ bs).
  assert (Esplit : sig = P ++ T).
  { rewrite <- E. subst P T. cbn [app]. rewrite <- !app_assoc. cbn [app].
    rewrite <- ?app_assoc. reflexivity. }
  assert (HT : length T = (1 + length los + length bs)%nat).
  { subst T. cbn [length]. rewrite length_app. lia. }
  assert (HP : (S h' <= length P)%nat).
  { assert (length sig = length P + length T)%nat by (rewrite Esplit; apply length_app). lia. }
  assert (Hbig : 2 * 256 ^ Z.of_nat (length bs) <= s).
  { subst s. rewrite Esplit, drop_app_le by exact HP. rewrite SetBytes_app.
    pose proof (SetBytes_range (drop (S h') P)) as [Hd _].
    pose proof (Z.pow_pos_nonneg 256 (Z.of_nat (length T)) ltac:(lia) ltac:(lia)).
    assert (HTv : 2 * 256 ^ Z.of_nat (length bs) <= SetBytes T).
    { subst T. rewrite SetBytes_cons. change (Z_of_byte x02) with 2.
      pose proof (SetBytes_range (los ++ bs)) as [Hn _].
      assert (256 ^ Z.of_nat (length bs) <= 256 ^ Z.of_nat (length (los ++ bs))).
      { apply Z.pow_le_mono_r; [lia|]. rewrite length_app. lia. }
      lia. }
    nia. }
  pose proof (SetBytes_range bs) as [_ Hub]. rewrite Hvs in Hub.
  pose proof (Z.pow_pos_nonneg 256 (Z.of_nat (length bs)) ltac:(lia) ltac:(lia)). lia.
Qed.

Example Marshal_small : asn1.Marshal_ecdsaSignature 1 2
  = [x30; x06; x02; x01; x01; x02; x01; x02].
Proof. reflexivity. Qed.

Example Marshal_top_bit : asn1.Marshal_ecdsaSignature 0x80 0xFFFF
  = [x30; x09; x02; x02; x00; x80; x02; x03; x00; xff; xff].
Proof. reflexivity. Qed.

Lemma hash_Size_pos h n : hash_Size h = Some n -> (0 < n)%nat.
Proof.
  unfold hash_Size, maxHash.
  destruct (Z.ltb_spec 0 h) as [H0|]; [|discriminate].
  destruct (Z.ltb_spec h 20) as [H1|]; [|discriminate].
  cbn [andb]. intros H.
  assert (Hn : (Z.to_nat h < 20)%nat) by lia.
  assert (Hp : (0 < Z.to_nat h)%nat) by lia.
  destruct (Z.to_nat h) as [|m]; [lia|].
  do 19 (destruct m as [|m]; [cbn in H; injection H as <-; lia|]). lia.
Qed.

Lemma length_fill_buffer n out : length (fill_buffer n out) = n.
Proof.
  unfold fill_buffer. rewrite length_take, length_app, length_replicate. lia.
Qed.

Lemma addr_of_first_replicate n w :
  n <> 0%nat -> addr_of_first (replicate n x00) w = (Ret tt, w).
Proof. now destruct n. Qed.

Lemma log_log evs evs' w : log evs' (log evs w) = log (evs ++ evs') w.
Proof. unfold log, with_trace. simpl. now rewrite app_assoc. Qed.

Section EcdsaClaim.
Variable oracle : list event -> call -> reply.

(** When the length query answers zero, [cngSignHash] panics on
    [&sig[0]] before it asks for the signature. *)
Lemma cngSignHash_zero_length_panics w wpk k hash digest :
  keys w !! wpk = Some k ->
  publicKey k = ecdsa_PublicKey ->
  hash_Size hash = Some (length digest) ->
  let c1 := NCryptSignHash (cngHandle k) None digest None 0 in
  let q := oracle (trace w) c1 in
  rv q = 0 -> Z.to_nat (DWORD (out1 q)) = 0%nat ->
  cngSignHash oracle (Some wpk) hash digest w
  = (Panic (runtime_error "index out of range [0] with length 0"), log [(c1, q)] w).
Proof.
  intros Hk Hec Hsize c1 q Hq Hn.
  unfold cngSignHash, Size. rewrite Hsize. step (ret_run (length digest) w).
  rewrite Nat.eqb_refl. cbn [negb].
  pose proof (hash_Size_pos _ _ Hsize) as Hpos.
  destruct digest as [|b digest']; [cbn in Hpos; lia|].
  step (ret_run tt w). step (load_at Keys wpk k w Hk).
  rewrite Hec. cbn [cng_padding].
  step (cgo_run oracle c1 w). fold q. rewrite Hq. cbn [checkStatus Z.eqb ERROR_SUCCESS].
  now rewrite Hn.
Qed.

(** C5: a [Sign] that goes to the modern backend with an elliptic-curve
    key, and whose two [NCryptSignHash] calls succeed with a signature
    buffer of [n > 0] bytes.  When [n] is odd the result is the error
    "bad ecdsa signature from CNG".  When [n] is even the result is the
    DER encoding of the pair [(r, s)], with [r] the big-endian value of
    the first half of the buffer and [s] that of the second half, and
    this encoding differs from the buffer itself. *)
Theorem C5_cng_ecdsa_signature_is_DER w wpk k hash digest :
  keys w !! wpk = Some k ->
  publicKey k = ecdsa_PublicKey ->
  capiProv k = 0 ->
  cngHandle k <> 0 ->
  hash_Size hash = Some (length digest) ->
  let c1 := NCryptSignHash (cngHandle k) None digest None 0 in
  let q := oracle (trace w) c1 in
  let n := Z.to_nat (DWORD (out1 q)) in
  let c2 := NCryptSignHash (cngHandle k) None digest (Some n) 0 in
  let r := oracle (trace w ++ [(c1, q)]) c2 in
  let produced := fill_buffer n (written r) in
  let w' := log [(c1, q); (c2, r)] w in
  rv q = 0 -> n <> 0%nat -> rv r = 0 ->
  length produced = n
  /\ (Nat.Odd n ->
      Sign oracle (Some wpk) digest hash w
      = (Ret ([], Some (errors_New "bad ecdsa signature from CNG")), w'))
  /\ (Nat.Even n ->
      let der := asn1.Marshal_ecdsaSignature
                   (SetBytes (take (n / 2) produced))
                   (SetBytes (drop (n / 2) produced)) in
      Sign oracle (Some wpk) digest hash w = (Ret (der, None), w')
      /\ der <> produced).
Proof.
  intros Hk Hec Hcapi Hcng Hsize c1 q n c2 r produced w' Hq Hn Hr.
  assert (Hlen : length produced = n) by apply length_fill_buffer.
  assert (Hrun : Sign oracle (Some wpk) digest hash w =
            (Ret (if negb (n mod 2 =? 0)%nat
                  then ([], Some (errors_New "bad ecdsa signature from CNG"))
                  else (asn1.Marshal_ecdsaSignature
                          (SetBytes (take (n / 2) produced))
                          (SetBytes (drop (n / 2) produced)), None)), w')).
  { unfold Sign. step (load_at Keys wpk k w Hk). rewrite Hcapi. cbn [Z.eqb negb].
    destruct (Z.eqb_spec (cngHandle k) 0) as [|_]; [contradiction|]. cbn [negb].
    unfold cngSignHash, Size. rewrite Hsize. step (ret_run (length digest) w).
    rewrite Nat.eqb_refl. cbn [negb].
    pose proof (hash_Size_pos _ _ Hsize) as Hpos.
    destruct digest as [|b digest']; [cbn in Hpos; lia|].
    step (ret_run tt w). step (load_at Keys wpk k w Hk).
    rewrite Hec. cbn [cng_padding].
    step (cgo_run oracle c1 w). fold q. rewrite Hq. cbn [checkStatus Z.eqb ERROR_SUCCESS].
    fold n. step (addr_of_first_replicate n (log [(c1, q)] w) Hn).
    step (cgo_run oracle c2 (log [(c1, q)] w)).
    change (oracle (trace (log [(c1, q)] w)) c2) with r.
    rewrite Hr. cbn [checkStatus Z.eqb ERROR_SUCCESS].
    fold produced. rewrite Hlen, log_log. cbn [app]. fold w'.
    now destruct (negb (n mod 2 =? 0)%nat). }
  split; [exact Hlen|]. split.
  - intros Hodd. rewrite Hrun.
    apply Nat.Odd_OddT, Nat.OddT_odd in Hodd. rewrite <- Nat.negb_even in Hodd.
    apply negb_true_iff in Hodd.
    assert (Hm : (n mod 2 =? 0)%nat = false).
    { apply Nat.eqb_neq. intros Hz. apply Nat.Div0.mod_divides in Hz as [c Hc].
      rewrite Hc, Nat.even_mul in Hodd. discriminate. }
    now rewrite Hm.
  - intros Heven. cbv zeta. split.
    + rewrite Hrun.
      assert (Hm : (n mod 2 =? 0)%nat = true).
      { apply Nat.eqb_eq. destruct Heven as [c Hc]. rewrite Hc, Nat.mul_comm.
        apply Nat.Div0.mod_mul. }
      now rewrite Hm.
    + apply Marshal_ecdsaSignature_not_raw. rewrite Hlen.
      destruct Heven as [c Hc]. rewrite Hc at 1. f_equal.
      rewrite Hc, Nat.mul_comm. now rewrite Nat.div_mul.
Qed.

End EcdsaClaim.

Lemma C5_witness :
  let oracle := scripted cng_sign_script in
  let digest := replicate 20 x00 in
  keys two_keys_world !! 0%nat
    = Some {| publicKey := ecdsa_PublicKey; capiProv := 0; cngHandle := 4; keySpec := 0 |}
  /\ hash_Size crypto_SHA1 = Some (length digest)
  /\ fst (Sign oracle (Some 0%nat) digest crypto_SHA1 two_keys_world)
     = Ret ([x30; x08; x02; x02; x01; x02; x02; x02; x03; x04], None)
  /\ [x30; x08; x02; x02; x01; x02; x02; x02; x03; x04] <> [x01; x02; x03; x04].
Proof.
  intros oracle digest.
  assert (Hk : keys two_keys_world !! 0%nat
               = Some {| publicKey := ecdsa_PublicKey; capiProv := 0;
                         cngHandle := 4; keySpec := 0 |}) by reflexivity.
  assert (Hs : hash_Size crypto_SHA1 = Some (length digest)) by reflexivity.
  destruct (C5_cng_ecdsa_signature_is_DER oracle two_keys_world 0%nat _ crypto_SHA1 digest
              Hk eq_refl eq_refl ltac:(simpl; lia) Hs eq_refl ltac:(vm_compute; lia) eq_refl)
    as (_ & _ & Heven).
  destruct (Heven (ex_intro _ 2%nat eq_refl)) as [Hrun Hne].
  split; [exact Hk|]. split; [exact Hs|]. split.
  - now rewrite Hrun.
  - exact Hne.
Defined.

(** * Enumeration *)

Section Enumeration.
Variable oracle : list event -> call -> reply.

Lemma newWinIdentity_run ctx w :
  let r := oracle (trace w) (CertDuplicateCertificateContext ctx) in
  newWinIdentity oracle ctx w =
    (Ret (Some (length (idents w))),
     {| trace := trace w ++ [(CertDuplicateCertificateContext ctx, r)];
        stores := stores w;
        idents := idents w ++ [ {| i_ctx := rv r; i_signer := None; i_closed := false |} ];
        keys := keys w |}).
Proof. reflexivity. Qed.


End Enumeration.

Lemma insert_last {A} (l : list A) x y : <[length l := x]> (l ++ [y]) = l ++ [x].
Proof.
  rewrite <- (Nat.add_0_r (length l)). now rewrite insert_app_r.
Qed.

Lemma calls_since_app (w : world) evs st ids ks :
  calls_since w {| trace := trace w ++ evs; stores := st; idents := ids; keys := ks |}
  = map fst evs.
Proof. unfold calls_since. cbn [trace]. now rewrite drop_app_length. Qed.

Section EnumerationClaim.
Variable oracle : list event -> call -> reply.

(** [Close] on a fresh identity releases its certificate context, if it
    has one, and does nothing else. *)
Lemma winIdentity_Close_fresh i id w :
  idents w !! i = Some id -> fresh_identity id ->
  exists evs, winIdentity_Close oracle (Some i) w = (Ret tt, log evs w)
              /\ map fst evs = close_calls id.
Proof.
  intros Hid [Hs Hc]. unfold winIdentity_Close, close_calls.
  step (winIdentity_check_at i id w Hid). rewrite Hc.
  destruct (Z.eqb_spec (i_ctx id) 0) as [H0|H0].
  - exists []. split; [|reflexivity]. rewrite ret_run. f_equal.
    unfold log, with_trace. rewrite app_nil_r. now destruct w.
  - step (load_at Idents i id w Hid). rewrite Hs. step (ret_run tt w).
    step (cgo_run oracle (CertFreeCertificateContext (i_ctx id)) w).
    eexists [_]. split; reflexivity.
Qed.

(** The clean-up loop of [findIdentities] over identities that were just
    made. *)
Lemma close_all_spec created : forall pre w,
  idents w = pre ++ created -> Forall fresh_identity created ->
  exists evs,
    for_each (pointers (length pre) (length created)) (winIdentity_Close oracle) w
    = (Ret tt, log evs w)
    /\ map fst evs = flat_map close_calls created.
Proof.
  induction created as [|id rest IH]; intros pre w Hids Hfresh.
  - exists []. split; [|reflexivity]. cbn. f_equal.
    unfold log, with_trace. rewrite app_nil_r. now destruct w.
  - inversion Hfresh as [|? ? Hid Hrest]; subst.
    assert (Hlook : idents w !! length pre = Some id).
    { rewrite Hids. apply list_lookup_middle. reflexivity. }
    destruct (winIdentity_Close_fresh _ id w Hlook Hid) as (evs1 & Hrun1 & Hc1).
    destruct (IH (pre ++ [id]) (log evs1 w)) as (evs2 & Hrun2 & Hc2).
    { cbn. rewrite Hids, <- app_assoc. reflexivity. }
    { exact Hrest. }
    exists (evs1 ++ evs2). split.
    + unfold pointers. cbn [length seq map for_each]. step Hrun1.
      rewrite length_app in Hrun2. cbn [length] in Hrun2.
      rewrite Nat.add_1_r in Hrun2. unfold pointers in Hrun2.
      rewrite Hrun2. now rewrite log_log.
    + rewrite List.map_app, Hc1, Hc2. reflexivity.
Qed.


End EnumerationClaim.

(** * Failures are values *)

Lemma quiet_since_refl t : quiet_since t t.
Proof. exists []. split; [now rewrite app_nil_r|constructor]. Qed.

Lemma quiet_since_snoc t t' ev :
  quiet_since t t' -> failed_call ev = false -> quiet_since t (t' ++ [ev]).
Proof.
  intros (evs & -> & H) Hev. exists (evs ++ [ev]). split; [now rewrite app_assoc|].
  apply Forall_app. split; [exact H|now constructor].
Qed.

Lemma quiet_since_trans t1 t2 t3 :
  quiet_since t1 t2 -> quiet_since t2 t3 -> quiet_since t1 t3.
Proof.
  intros (e1 & -> & H1) (e2 & -> & H2). exists (e1 ++ e2).
  split; [now rewrite app_assoc|]. apply Forall_app. now split.
Qed.

Lemma no_failure_trans w1 w2 w3 :
  no_failure w1 w2 -> no_failure w2 w3 -> no_failure w1 w3.
Proof. apply quiet_since_trans. Qed.

Lemma no_failure_silent {A} (m : Go A) w : preserves trace m -> no_failure w (snd (m w)).
Proof. intros H. unfold no_failure. rewrite (H w). apply quiet_since_refl. Qed.

Lemma always_ret {R} (ok : R -> Prop) r : ok r -> always ok (ret r).
Proof. intros H w. now exists r. Qed.

Lemma always_lastError {R} (ok : R -> Prop) oracle msg (k : error -> Go R) :
  (forall err, always ok (k err)) -> always ok (bind (lastError oracle msg) k).
Proof.
  intros H w. unfold bind. rewrite lastError_run. apply H.
Qed.

Lemma settles_always {R} (ok : R -> Prop) m : always ok m -> settles ok m.
Proof. intros H w. left. apply H. Qed.

Lemma settles_ret {R} (ok : R -> Prop) r : ok r -> settles ok (ret r).
Proof. intros H. now apply settles_always, always_ret. Qed.

Lemma settles_silent {R} (ok : R -> Prop) (m : Go R) : preserves trace m -> settles ok m.
Proof. intros H w. right. now apply no_failure_silent. Qed.

Lemma settles_bind_silent {A R} (ok : R -> Prop) (m : Go A) (k : A -> Go R) :
  preserves trace m -> (forall a, settles ok (k a)) -> settles ok (bind m k).
Proof.
  intros Hm Hk w. unfold bind. pose proof (Hm w) as Ht.
  destruct (m w) as [[a|p|] w1]; cbn [snd] in Ht.
  - destruct (Hk a w1) as [Hl|Hr]; [now left|right].
    unfold no_failure in *. now rewrite <- Ht.
  - right. unfold no_failure. cbn [snd]. rewrite Ht. apply quiet_since_refl.
  - right. unfold no_failure. cbn [snd]. rewrite Ht. apply quiet_since_refl.
Qed.


Lemma settles_cgo {R} (ok : R -> Prop) oracle c (k : reply -> Go R) :
  (forall r, failed_call (c, r) = true -> always ok (k r)) ->
  (forall r, failed_call (c, r) = false -> settles ok (k r)) ->
  settles ok (bind (cgo oracle c) k).
Proof.
  intros Hf Hs w. unfold bind. rewrite cgo_run.
  set (r := oracle (trace w) c). destruct (failed_call (c, r)) eqn:Hc.
  - left. apply (Hf r Hc).
  - destruct (Hs r Hc (log [(c, r)] w)) as [Hl|Hr]; [now left|right].
    eapply no_failure_trans; [|exact Hr].
    exists [(c, r)]. split; [reflexivity|]. now constructor.
Qed.


Lemma settles_weaken {R} (ok ok' : R -> Prop) m :
  (forall r, ok r -> ok' r) -> settles ok m -> settles ok' m.
Proof.
  intros H Hm w. destruct (Hm w) as [(r & Hr & Hok)|Hq]; [left; eauto|now right].
Qed.

Lemma settles_do_not_panic {R} (ok : R -> Prop) (m : Go R) :
  settles ok m -> failures_do_not_panic m.
Proof.
  intros H w p Hp. destruct (H w) as [(r & Hr & _)|Hq]; [congruence|exact Hq].
Qed.



Lemma settles_assoc {A B R} (ok : R -> Prop) (m : Go A) (f : A -> Go B) (g : B -> Go R) :
  settles ok (bind m (fun x => bind (f x) g)) -> settles ok (bind (bind m f) g).
Proof. intros H w. rewrite bind_assoc. apply H. Qed.

Lemma settles_ret_bind {A R} (ok : R -> Prop) (a : A) (k : A -> Go R) :
  settles ok (k a) -> settles ok (bind (ret a) k).
Proof. intros H w. apply H. Qed.

Lemma checkStatus_err x :
  negb (x =? ERROR_SUCCESS) = true -> checkStatus x = Some (securityStatus x).
Proof. unfold checkStatus. now destruct (x =? ERROR_SUCCESS). Qed.

Lemma checkStatus_ok x : negb (x =? ERROR_SUCCESS) = false -> checkStatus x = None.
Proof. unfold checkStatus. now destruct (x =? ERROR_SUCCESS). Qed.

Create HintDb settle discriminated.
#[export] Hint Resolve preserves_ret preserves_throw preserves_load
  preserves_addr_of_first : settle.
#[export] Hint Extern 1 (preserves trace (new _ _)) =>
  apply preserves_new; intros; reflexivity : settle.
#[export] Hint Extern 1 (preserves trace (update _ _ _)) =>
  apply preserves_update; intros; reflexivity : settle.
#[export] Hint Extern 1 (always _ (ret _)) => apply always_ret; cbn; congruence : settle.
#[export] Hint Extern 1 (always _ (bind (lastError _ _) _)) =>
  apply always_lastError; intros ? : settle.
#[export] Hint Extern 1 (settles _ (ret _)) => apply settles_silent, preserves_ret : settle.
#[export] Hint Extern 1 (settles _ (throw _)) => apply settles_silent, preserves_throw : settle.

(** Walks through a straight-line computation.  A tested call splits into
    its failing side, which has to return an error, and its succeeding
    side, which goes on. *)
Ltac settle :=
  unfold quiet, returns_failures, returns_failure;
  repeat first
    [ progress auto with settle
    | apply settles_silent; solve [auto with settle]
    | apply settles_cgo;
      [ intros ? ?; cbv beta; cbn [failed_call fst snd] in *;
        repeat match goal with
               | H : ?b = true |- context [if ?b then _ else _] => rewrite H
               | H : negb ?b = true |- context [if negb ?b then _ else _] => rewrite H
               | H : negb (?x =? ERROR_SUCCESS) = true |- context [checkStatus ?x] =>
                   rewrite (checkStatus_err x H)
               | H : false = true |- _ => discriminate H
               end; cbv iota
      | intros ? ?; cbv beta; cbn [failed_call fst snd] in *;
        repeat match goal with
               | H : ?b = false |- context [if ?b then _ else _] => rewrite H
               | H : negb ?b = false |- context [if negb ?b then _ else _] => rewrite H
               | H : negb (?x =? ERROR_SUCCESS) = false |- context [checkStatus ?x] =>
                   rewrite (checkStatus_ok x H)
               end; cbv iota ]
    | apply settles_bind_silent; [solve [auto with settle]|intros ?]
    | match goal with
      | |- settles _ (bind (bind _ _) _) => apply settles_assoc
      | |- settles _ (bind (ret _) _) => apply settles_ret_bind
      | |- settles _ (bind (if ?b then _ else _) _) => destruct b eqn:?
      | |- settles _ (bind (match ?x with _ => _ end) _) => destruct x eqn:?
      | |- settles _ (if ?b then _ else _) => destruct b eqn:?
      | |- settles _ (match ?x with _ => _ end) => destruct x eqn:?
      | |- always _ (if ?b then _ else _) => destruct b eqn:?
      | |- always _ (match ?x with _ => _ end) => destruct x eqn:?
      end ].


Section Failures.
Variable oracle : list event -> call -> reply.
Variable winAPIFlag : Z.













(** *** Operations that cannot fail *)

Lemma getError_quiet s : quiet (getError s).
Proof.
  apply settles_silent. unfold getError, winStore_check. frame.
Qed.



Lemma preserves_winStore_check {X} (part : world -> X) s :
  preserves part (winStore_check s).
Proof. unfold winStore_check. frame. Qed.

Lemma reset_quiet s : quiet (reset oracle s).
Proof.
  unfold quiet, reset.
  apply settles_bind_silent; [apply preserves_winStore_check|intros e]. settle.
Qed.


Lemma Public_quiet wpk : quiet (Public wpk).
Proof. apply settles_silent. unfold Public. frame. Qed.

Lemma linuxStore_Close_quiet store : quiet (linuxStore_Close oracle store).
Proof. unfold quiet, linuxStore_Close. settle. Qed.



End Failures.

Section EnumerationFailures.
Variable oracle : list event -> call -> reply.
Variable winAPIFlag : Z.





End EnumerationFailures.

Section ImportFailures.
Variable oracle : list event -> call -> reply.
Variable winAPIFlag : Z.






End ImportFailures.


(** Two certificates, then a genuine failure: nothing is returned, both
    identities are released, the store is closed last. *)
Example enumeration_that_fails :
  let run := FindIdentities (scripted failing_enumeration) 5 empty_world in
  fst run = Ret ([], Some (errors_Wrap (errors_Wrap (errors_Wrap (errCode 5)
                    "CertFindCertificateInStore failed") "identity iteration failed")
                    "findIdentities failed"))
  /\ calls_since empty_world (snd run) =
       [ CertOpenStore 10 65536 "MY";
         CertFindCertificateInStore 5 65537 0 0; CertDuplicateCertificateContext 9;
         CertFindCertificateInStore 5 65537 0 9; CertDuplicateCertificateContext 10;
         CertFindCertificateInStore 5 65537 0 10; GetLastError;
         CertFreeCertificateContext 19; CertFreeCertificateContext 20;
         CertCloseStore 5 ].
Proof. vm_compute. auto. Qed.

(** The same store ending with "not found": both identities are returned
    and none is released. *)
Example enumeration_that_completes :
  let run := FindIdentities (scripted complete_enumeration) 5 empty_world in
  fst run = Ret ([Some 0%nat; Some 1%nat], None)
  /\ calls_since empty_world (snd run) =
       [ CertOpenStore 10 65536 "MY";
         CertFindCertificateInStore 5 65537 0 0; CertDuplicateCertificateContext 9;
         CertFindCertificateInStore 5 65537 0 9; CertDuplicateCertificateContext 10;
         CertFindCertificateInStore 5 65537 0 10; GetLastError;
         CertCloseStore 5 ].
Proof. vm_compute. auto. Qed.

(** * The alternate-platform store *)

Section Token.
Variable oracle : list event -> call -> reply.




End Token.



(** * Further properties of the certificate store *)

(** X1: [Close] on an open store releases the cursor context, if there is
    one, then closes the native store and sets the flag.  From then on a
    second [Close] does nothing, [getError] and [reset] return the error
    "store closed", and [nextCert] returns nil; none of them makes a
    call. *)
Theorem X1_store_Close_is_final oracle w a st :
  stores w !! a = Some st -> s_store st <> 0 -> s_closed st = false ->
  exists w1,
    winStore_Close oracle (Some a) w = (Ret tt, w1)
    /\ stores w1 !! a = Some (set_closed true st)
    /\ calls_since w w1 = cursor_release st ++ [CertCloseStore (s_store st)]
    /\ winStore_Close oracle (Some a) w1 = (Ret tt, w1)
    /\ getError (Some a) w1 = (Ret (Some (errors_New "store closed")), w1)
    /\ reset oracle (Some a) w1 = (Ret (Some (errors_New "store closed")), w1)
    /\ exists w2, nextCert oracle (Some a) w1 = (Ret 0, w2) /\ trace w2 = trace w1.
Proof.
  intros Hst H0 Hc.
  pose proof (winStore_Close_open oracle a st w Hst H0 Hc) as Hrun. cbv zeta in Hrun.
  eexists. split; [exact Hrun|].
  assert (Hlt : (a < length (stores w))%nat) by (eapply lookup_lt_Some, Hst).
  match type of Hrun with _ = (_, ?W) => set (w1 := W) in * end.
  assert (Hst1 : stores w1 !! a = Some (set_closed true st)).
  { subst w1. apply put_store_lookup. cbn. now destruct (s_prev st =? 0). }
  split; [exact Hst1|]. split.
  { subst w1. unfold calls_since, cursor_release. cbn [trace put_store with_objs Stores log with_trace].
    destruct (s_prev st =? 0); cbn [trace log with_trace].
    - now rewrite drop_app_length.
    - now rewrite <- app_assoc, drop_app_length. }
  destruct (closed_store_rejected oracle a (set_closed true st) w1 Hst1 H0 eq_refl)
    as (Hg & Hr & Hcl & Hn).
  repeat split; try assumption. eexists. split; [exact Hn|reflexivity].
Qed.

Lemma X1_witness :
  let oracle := scripted [] in
  let st := {| s_store := 5; s_prev := 9; s_err := None; s_closed := false |} in
  stores open_store_world !! 0%nat = Some st
  /\ exists w1,
      winStore_Close oracle (Some 0%nat) open_store_world = (Ret tt, w1)
      /\ stores w1 !! 0%nat = Some (set_closed true st)
      /\ calls_since open_store_world w1 = cursor_release st ++ [CertCloseStore (s_store st)]
      /\ winStore_Close oracle (Some 0%nat) w1 = (Ret tt, w1)
      /\ getError (Some 0%nat) w1 = (Ret (Some (errors_New "store closed")), w1)
      /\ reset oracle (Some 0%nat) w1 = (Ret (Some (errors_New "store closed")), w1)
      /\ exists w2, nextCert oracle (Some 0%nat) w1 = (Ret 0, w2) /\ trace w2 = trace w1.
Proof.
  intros oracle st. split; [reflexivity|].
  apply (X1_store_Close_is_final oracle open_store_world 0%nat st);
    [reflexivity|simpl; lia|reflexivity].
Defined.

(** X2: [reset] on an open store releases the cursor context, if there is
    one, makes no other call, and clears the recorded error; the
    [nextCert] that follows asks the native store for its first
    certificate again (a nil previous context), whatever had been recorded
    before. *)
Theorem X2_reset_restarts_the_iteration oracle w a st :
  stores w !! a = Some st -> s_store st <> 0 -> s_closed st = false ->
  exists w1 ctx w2,
    reset oracle (Some a) w = (Ret None, w1)
    /\ calls_since w w1 = cursor_release st
    /\ stores w1 !! a = Some {| s_store := s_store st; s_prev := 0;
                                s_err := None; s_closed := false |}
    /\ nextCert oracle (Some a) w1 = (Ret ctx, w2)
    /\ hd_error (calls_since w1 w2)
       = Some (CertFindCertificateInStore (s_store st)
                 (Z.lor X509_ASN_ENCODING PKCS_7_ASN_ENCODING) CERT_FIND_ANY 0).
Proof.
  intros Hst H0 Hc.
  pose proof (reset_open oracle a st w Hst H0 Hc) as Hrun. cbv zeta in Hrun.
  assert (Hlt : (a < length (stores w))%nat) by (eapply lookup_lt_Some, Hst).
  match type of Hrun with _ = (_, ?W) => set (w1 := W) in * end.
  set (st1 := {| s_store := s_store st; s_prev := 0; s_err := None; s_closed := false |}).
  assert (Hst1 : stores w1 !! a = Some st1).
  { replace st1 with (set_err None (set_prev 0 st))
      by (subst st1; unfold set_err, set_prev; cbn; now rewrite Hc).
    subst w1. apply put_store_lookup. cbn. now destruct (s_prev st =? 0). }
  pose proof (nextCert_open oracle w1 a st1 Hst1 H0 eq_refl eq_refl) as Hnext.
  cbv zeta in Hnext.
  assert (Hcalls : calls_since w w1 = cursor_release st).
  { subst w1. unfold calls_since, cursor_release. cbn [trace put_store with_objs Stores].
    destruct (s_prev st =? 0); cbn [trace log with_trace].
    - now rewrite drop_all.
    - now rewrite drop_app_length. }
  match type of Hnext with _ = (if ?c then _ else _) => destruct c end;
    (eexists w1, _, _; split; [exact Hrun|]; split; [exact Hcalls|];
     split; [exact Hst1|]; split; [exact Hnext|]);
    unfold calls_since; cbn [trace put_store with_objs Stores log with_trace].
  - now rewrite <- app_assoc, drop_app_length.
  - now rewrite drop_app_length.
Qed.

Lemma X2_witness :
  let oracle := scripted [answer 9] in
  let st := {| s_store := 5; s_prev := 0;
               s_err := Some (errors_Wrap (errCode 5) "CertFindCertificateInStore failed");
               s_closed := false |} in
  stores failed_store_world !! 0%nat = Some st
  /\ exists w1 ctx w2,
      reset oracle (Some 0%nat) failed_store_world = (Ret None, w1)
      /\ calls_since failed_store_world w1 = cursor_release st
      /\ stores w1 !! 0%nat = Some {| s_store := s_store st; s_prev := 0;
                                      s_err := None; s_closed := false |}
      /\ nextCert oracle (Some 0%nat) w1 = (Ret ctx, w2)
      /\ hd_error (calls_since w1 w2)
         = Some (CertFindCertificateInStore (s_store st)
                   (Z.lor X509_ASN_ENCODING PKCS_7_ASN_ENCODING) CERT_FIND_ANY 0).
Proof.
  intros oracle st. split; [reflexivity|].
  apply (X2_reset_restarts_the_iteration oracle failed_store_world 0%nat st);
    [reflexivity|simpl; lia|reflexivity].
Defined.

(** X3: when [CertOpenStore] answers NULL, [FindIdentities] returns no
    identity and the native error code, wrapped first as "failed to open
    system cert store" and then as "openMyCertStore failed"; it has made
    the opening call and [GetLastError] and nothing else, has allocated
    no store and closes none.  The iteration is never entered. *)
Theorem X3_FindIdentities_without_a_store oracle fuel w :
  rv (oracle (trace w) open_call) = 0 ->
  exists g w',
    FindIdentities oracle fuel w
    = (Ret ([], Some (errors_Wrap
                        (errors_Wrap (errCode (DWORD (rv g)))
                           "failed to open system cert store")
                        "openMyCertStore failed")), w')
    /\ drop (length (trace w)) (trace w') = [(open_call, oracle (trace w) open_call);
                                            (GetLastError, g)]
    /\ stores w' = stores w /\ idents w' = idents w /\ keys w' = keys w.
Proof.
  intros Hr.
  assert (Hopen : openMyCertStore oracle w
                  = (Ret (None, Some (errors_Wrap
                                        (errCode (DWORD (rv (oracle (trace (log [(open_call, oracle (trace w) open_call)] w)) GetLastError))))
                                        "failed to open system cert store")),
                     log [(GetLastError, oracle (trace (log [(open_call, oracle (trace w) open_call)] w)) GetLastError)]
                       (log [(open_call, oracle (trace w) open_call)] w))).
  { unfold openMyCertStore. fold open_call.
    step (cgo_run oracle open_call w). rewrite Hr. cbn [Z.eqb].
    now step (lastError_run oracle "failed to open system cert store"
                (log [(open_call, oracle (trace w) open_call)] w)). }
  unfold FindIdentities. step Hopen. rewrite ret_run.
  eexists _, _. split; [reflexivity|].
  cbn [trace stores idents keys log with_trace].
  rewrite <- app_assoc, drop_app_length. repeat split.
Qed.

Lemma X3_witness :
  let oracle := scripted [answer 0; answer 5] in
  rv (oracle (trace empty_world) open_call) = 0
  /\ exists g w',
      FindIdentities oracle 0 empty_world
      = (Ret ([], Some (errors_Wrap
                          (errors_Wrap (errCode (DWORD (rv g)))
                             "failed to open system cert store")
                          "openMyCertStore failed")), w')
      /\ drop (length (trace empty_world)) (trace w')
         = [(open_call, oracle (trace empty_world) open_call); (GetLastError, g)]
      /\ stores w' = stores empty_world /\ idents w' = idents empty_world
      /\ keys w' = keys empty_world.
Proof.
  intros oracle. split; [reflexivity|].
  apply (X3_FindIdentities_without_a_store oracle 0 empty_world). reflexivity.
Defined.

(** X4: when [PFXImportCertStore] answers NULL (a wrong password, a
    malformed bundle), [importPFX] returns no identity and the native
    error code wrapped as "failed to import PFX cert store".  It has made
    that call, with the data, the password and the flags chosen from
    [winAPIFlag], and [GetLastError], and nothing else: the target store
    is not read, no transient store is made and none is closed.  This
    holds for every receiver, also a nil or closed one. *)
Theorem X4_importPFX_rejected_bundle oracle winAPIFlag fuel s data password w :
  rv (oracle (trace w)
        (PFXImportCertStore data password (importPFX_flags winAPIFlag))) = 0 ->
  exists r g w',
    importPFX oracle winAPIFlag fuel s data password w
    = (Ret ([], Some (errors_Wrap (errCode (DWORD (rv g)))
                        "failed to import PFX cert store")), w')
    /\ drop (length (trace w)) (trace w')
       = [(PFXImportCertStore data password (importPFX_flags winAPIFlag), r);
          (GetLastError, g)]
    /\ stores w' = stores w /\ idents w' = idents w /\ keys w' = keys w.
Proof.
  intros Hr. unfold importPFX.
  step (cgo_run oracle (PFXImportCertStore data password (importPFX_flags winAPIFlag)) w).
  rewrite Hr. cbn [Z.eqb].
  set (w1 := log _ w).
  step (lastError_run oracle "failed to import PFX cert store" w1). rewrite ret_run.
  eexists _, _, _. split; [reflexivity|]. subst w1.
  cbn [trace stores idents keys log with_trace].
  rewrite <- app_assoc, drop_app_length. repeat split.
Qed.

Lemma X4_witness :
  let oracle := scripted [answer 0; answer 86] in
  rv (oracle (trace closed_store_world)
        (PFXImportCertStore [x30; x00] "secret" (importPFX_flags 0))) = 0
  /\ exists r g w',
      importPFX oracle 0 3 (Some 0%nat) [x30; x00] "secret" closed_store_world
      = (Ret ([], Some (errors_Wrap (errCode (DWORD (rv g)))
                          "failed to import PFX cert store")), w')
      /\ drop (length (trace closed_store_world)) (trace w')
         = [(PFXImportCertStore [x30; x00] "secret" (importPFX_flags 0), r);
            (GetLastError, g)]
      /\ stores w' = stores closed_store_world
      /\ idents w' = idents closed_store_world
      /\ keys w' = keys closed_store_world.
Proof.
  intros oracle. split; [reflexivity|].
  apply (X4_importPFX_rejected_bundle oracle 0 3 (Some 0%nat) [x30; x00] "secret"
           closed_store_world).
  reflexivity.
Defined.

(** * Further properties of the enumeration *)

Section EnumerationProtocol.
Variable oracle : list event -> call -> reply.

(** The loop of [findIdentities], event by event. *)
Lemma drain_events a fuel : forall w acc st,
  stores w !! a = Some st -> s_store st <> 0 -> s_closed st = false ->
  s_err st = None ->
  fst (drain oracle fuel (Some a) acc w) <> Diverge ->
  exists found f_end g,
    drain oracle fuel (Some a) acc w =
      (Ret (acc ++ pointers (length (idents w)) (length found)),
       {| trace := trace w ++ iteration_events (s_store st) (s_prev st) found
                     ++ [(CertFindCertificateInStore (s_store st)
                            (Z.lor X509_ASN_ENCODING PKCS_7_ASN_ENCODING) CERT_FIND_ANY
                            (cursor_after (s_prev st) found), f_end);
                         (GetLastError, g)];
          stores := <[a := {| s_store := s_store st; s_prev := 0;
                              s_err := Some (errors_Wrap (errCode (DWORD (rv g)))
                                               "CertFindCertificateInStore failed");
                              s_closed := false |}]> (stores w);
          idents := idents w ++ map identity_of found;
          keys := keys w |})
    /\ rv f_end = 0
    /\ Forall (fun fd => rv (fst fd) <> 0) found.
Proof.
  induction fuel as [|fuel IH]; intros w acc st Hst H0 Hc He Hend.
  - now contradiction Hend.
  - cbn [drain] in *.
    pose proof (nextCert_open oracle w a st Hst H0 Hc He) as Hnext. cbv zeta in Hnext.
    set (r := oracle (trace w) (find_call st)) in *.
    destruct (Z.eqb_spec (rv r) 0) as [Hr|Hr].
    + rewrite (bind_Ret _ _ _ _ _ Hnext). cbn [Z.eqb].
      eexists [], r, _. split; [|split; [exact Hr|constructor]].
      rewrite ret_run. unfold pointers. cbn [length seq map iteration_events cursor_after].
      rewrite !app_nil_r. unfold put_store, log, with_trace, set_err, set_prev.
      cbn. rewrite <- app_assoc, Hc. reflexivity.
    + rewrite (bind_Ret _ _ _ _ _ Hnext) in *.
      destruct (Z.eqb_spec (rv r) 0) as [|_]; [contradiction|].
      set (w1 := put_store a (set_prev (rv r) st) (log [(find_call st, r)] w)) in *.
      rewrite (bind_Ret _ _ _ _ _ (newWinIdentity_run oracle (rv r) w1)) in *.
      set (d := oracle (trace w1) (CertDuplicateCertificateContext (rv r))) in *.
      set (w2 := {| trace := _; stores := stores w1; idents := _; keys := _ |}) in *.
      assert (Hst2 : stores w2 !! a = Some (set_prev (rv r) st)).
      { subst w2 w1. cbn. apply list_lookup_insert_eq. eapply lookup_lt_Some, Hst. }
      destruct (IH w2 (acc ++ [Some (length (idents w1))]) _ Hst2 H0 Hc He Hend)
        as (found & f_end & g & Hrun & Hf & Hall).
      eexists ((r, d) :: found), f_end, g. split; [|split; [exact Hf|]].
      * etransitivity; [exact Hrun|]. f_equal.
        { f_equal. rewrite <- app_assoc. f_equal. subst w2 w1. unfold pointers. cbn.
          rewrite length_app. cbn. f_equal. f_equal. f_equal. lia. }
        subst w2 w1. cbn. rewrite list_insert_insert_eq, <- !app_assoc. reflexivity.
      * constructor; [exact Hr|exact Hall].
Qed.

End EnumerationProtocol.

(** X5: a successful enumeration, call by call.  [FindIdentities] opens
    the store; each lookup passes the context found by the lookup before
    it (nil for the first), and each context found is duplicated at
    once; the lookup that finds nothing is followed by [GetLastError],
    which reports the "not found" code, and the store is closed last.
    The identities returned are new, one per certificate in the order
    found, each open, without a signer, and owning the duplicate rather
    than the context of the cursor. *)
Theorem X5_successful_enumeration_protocol oracle fuel w ids w' :
  FindIdentities oracle fuel w = (Ret (ids, None), w') ->
  exists r0 found f_end g c,
    drop (length (trace w)) (trace w')
    = (open_call, r0)
      :: iteration_events (rv r0) 0 found
      ++ [(CertFindCertificateInStore (rv r0)
             (Z.lor X509_ASN_ENCODING PKCS_7_ASN_ENCODING) CERT_FIND_ANY
             (cursor_after 0 found), f_end);
          (GetLastError, g);
          (CertCloseStore (rv r0), c)]
    /\ rv r0 <> 0 /\ rv f_end = 0 /\ DWORD (rv g) = cryptENotFound
    /\ Forall (fun fd => rv (fst fd) <> 0) found
    /\ ids = pointers (length (idents w)) (length found)
    /\ idents w' = idents w ++ map identity_of found
    /\ keys w' = keys w
    /\ stores w' = stores w ++ [ {| s_store := rv r0; s_prev := 0;
                                    s_err := Some (errors_Wrap (errCode cryptENotFound)
                                                     "CertFindCertificateInStore failed");
                                    s_closed := true |} ].
Proof.
  intros Hrun. unfold FindIdentities in Hrun.
  set (r0 := oracle (trace w) open_call).
  destruct (Z.eqb_spec (rv r0) 0) as [Hr0|Hr0].
  { exfalso.
    assert (Hopen : exists err w0, openMyCertStore oracle w = (Ret (None, Some err), w0)).
    { unfold openMyCertStore, bind, cgo. fold open_call. fold r0. rewrite Hr0. cbn. eauto. }
    destruct Hopen as (err & w0 & Hopen). rewrite (bind_Ret _ _ _ _ _ Hopen) in Hrun.
    discriminate Hrun. }
  set (st0 := {| s_store := rv r0; s_prev := 0; s_err := None; s_closed := false |}).
  set (a := length (stores w)).
  set (w1 := {| trace := trace w ++ [(open_call, r0)]; stores := stores w ++ [st0];
                idents := idents w; keys := keys w |}).
  assert (Hopen : openMyCertStore oracle w = (Ret (Some a, None), w1)).
  { unfold openMyCertStore, bind, cgo. fold open_call. fold r0.
    destruct (Z.eqb_spec (rv r0) 0); [contradiction|]. reflexivity. }
  rewrite (bind_Ret _ _ _ _ _ Hopen) in Hrun.
  assert (Hst0 : stores w1 !! a = Some st0).
  { subst w1 a. cbn. apply list_lookup_middle. reflexivity. }
  assert (Hdrain : fst (drain oracle fuel (Some a) [] w1) <> Diverge).
  { intros Hd. unfold defer, findIdentities, bind in Hrun.
    destruct (drain oracle fuel (Some a) [] w1) as [[x|p|] wd]; cbn in Hd;
      try discriminate Hd. discriminate Hrun. }
  destruct (drain_events oracle a fuel w1 [] st0 Hst0 Hr0 eq_refl eq_refl Hdrain)
    as (found & f_end & g & Hloop & Hf & Hall).
  cbn [s_store s_prev st0] in Hloop.
  set (e := errors_Wrap (errCode (DWORD (rv g))) "CertFindCertificateInStore failed") in *.
  set (st' := {| s_store := rv r0; s_prev := 0; s_err := Some e; s_closed := false |}) in *.
  match type of Hloop with _ = (_, ?W) => set (w2 := W) in * end.
  assert (Hst2 : forall evs', stores (log evs' w2) !! a = Some st').
  { intros evs'. subst w2. cbn. apply list_lookup_insert_eq. eapply lookup_lt_Some, Hst0. }
  assert (Hlog : log [] w2 = w2).
  { unfold log, with_trace. rewrite app_nil_r. reflexivity. }
  assert (Hget : getError (Some a) w2
                 = (Ret (if cause_is_errCode (Some e) cryptENotFound then None else Some e), w2)).
  { rewrite (getError_at a st' w2). 2:{ rewrite <- Hlog. apply Hst2. }
    cbn [s_store s_closed s_err st'].
    now destruct (Z.eqb_spec (rv r0) 0). }
  destruct (cause_is_errCode (Some e) cryptENotFound) eqn:Hcause.
  2:{ (* a recorded failure gives an error *)
    exfalso.
    destruct (close_all_spec oracle (map identity_of found) (idents w1) w2 eq_refl)
      as (evs2 & Hrun2 & _).
    { apply List.Forall_forall. intros id Hin. apply in_map_iff in Hin.
      destruct Hin as (fd & <- & _). now split. }
    rewrite length_map in Hrun2.
    assert (Hbody : bind (findIdentities oracle fuel (Some a))
              (fun found => match found with
                            | (_, Some err) =>
                                ret ([], Some (errors_Wrap err "findIdentities failed"))
                            | (idents, None) => ret (idents, None)
                            end) w1
            = (Ret ([], Some (errors_Wrap (errors_Wrap e "identity iteration failed")
                                "findIdentities failed")), log evs2 w2)).
    { unfold findIdentities. rewrite bind_assoc. step Hloop.
      rewrite bind_assoc. step Hget. cbn [app]. rewrite bind_assoc. step Hrun2.
      reflexivity. }
    pose proof (winStore_Close_open oracle a st' (log evs2 w2) (Hst2 evs2) Hr0 eq_refl) as Hx.
    cbv zeta in Hx. cbn [s_prev st' Z.eqb] in Hx.
    unfold defer in Hrun. rewrite Hbody, Hx in Hrun. discriminate Hrun. }
  assert (Hcode : DWORD (rv g) = cryptENotFound).
  { unfold cause_is_errCode, e in Hcause. cbn in Hcause. now apply Z.eqb_eq in Hcause. }
  assert (Hbody : bind (findIdentities oracle fuel (Some a))
            (fun found => match found with
                          | (_, Some err) =>
                              ret ([], Some (errors_Wrap err "findIdentities failed"))
                          | (idents, None) => ret (idents, None)
                          end) w1
          = (Ret (pointers (length (idents w1)) (length found), None), w2)).
  { unfold findIdentities. rewrite bind_assoc. step Hloop.
    rewrite bind_assoc. step Hget. reflexivity. }
  pose proof (winStore_Close_open oracle a st' w2) as Hx.
  rewrite <- Hlog in Hx at 1. specialize (Hx (Hst2 []) Hr0 eq_refl).
  cbv zeta in Hx. cbn [s_prev st' Z.eqb] in Hx.
  unfold defer in Hrun. rewrite Hbody, Hx in Hrun.
  injection Hrun as Hids Hw'. subst ids w'.
  eexists r0, found, f_end, g, _. split.
  { cbn [trace put_store with_objs Stores log with_trace w2 w1].
    rewrite <- !app_assoc, drop_app_length. cbn [app]. now f_equal. }
  split; [exact Hr0|]. split; [exact Hf|]. split; [exact Hcode|].
  split; [exact Hall|]. split; [reflexivity|]. split; [reflexivity|].
  split; [reflexivity|].
  cbn [stores put_store with_objs Stores log with_trace w2 w1 objs].
  rewrite list_insert_insert_eq. subst a. rewrite insert_last.
  unfold set_closed, st', e. cbn. now rewrite Hcode.
Qed.

Lemma X5_witness :
  let oracle := scripted complete_enumeration in
  let run := FindIdentities oracle 5 empty_world in
  let ids := [Some 0%nat; Some 1%nat] in
  run = (Ret (ids, None), snd run)
  /\ exists r0 found f_end g c,
      drop (length (trace empty_world)) (trace (snd run))
      = (open_call, r0)
        :: iteration_events (rv r0) 0 found
        ++ [(CertFindCertificateInStore (rv r0)
               (Z.lor X509_ASN_ENCODING PKCS_7_ASN_ENCODING) CERT_FIND_ANY
               (cursor_after 0 found), f_end);
            (GetLastError, g);
            (CertCloseStore (rv r0), c)]
      /\ rv r0 <> 0 /\ rv f_end = 0 /\ DWORD (rv g) = cryptENotFound
      /\ Forall (fun fd => rv (fst fd) <> 0) found
      /\ ids = pointers (length (idents empty_world)) (length found)
      /\ idents (snd run) = idents empty_world ++ map identity_of found
      /\ keys (snd run) = keys empty_world
      /\ stores (snd run)
         = stores empty_world
           ++ [ {| s_store := rv r0; s_prev := 0;
                   s_err := Some (errors_Wrap (errCode cryptENotFound)
                                    "CertFindCertificateInStore failed");
                   s_closed := true |} ].
Proof.
  intros oracle run ids.
  assert (H : run = (Ret (ids, None), snd run)) by (vm_compute; reflexivity).
  split; [exact H|].
  exact (X5_successful_enumeration_protocol oracle 5 empty_world ids (snd run) H).
Defined.

(** * Further properties of keys and identities *)

(** X6: a key that [newWinPrivateKey] returns without error.  The public
    key was not nil, the two native calls (look up the key of the
    certificate, acquire it with [winAPIFlag]) both succeeded and the
    caller owns the handle.  The new key keeps the handle in exactly one
    field, chosen by the key spec: [cngHandle] for [CERT_NCRYPT_KEY_SPEC]
    (and its [keySpec] is 0), [capiProv] with the spec otherwise.
    [Close] on that key then releases the acquired handle, by
    [NCryptFreeObject] or [CryptReleaseContext] to match, with one call,
    or none if the handle is zero. *)
Theorem X6_acquired_handle_is_the_one_released oracle winAPIFlag ctx pk w k w1 :
  newWinPrivateKey oracle winAPIFlag ctx pk w = (Ret (k, None), w1) ->
  exists pub found got,
    pk = Some pub /\ k = Some (length (keys w))
    /\ drop (length (trace w)) (trace w1)
       = [(CryptFindCertificateKeyProvInfo ctx CRYPT_ACQUIRE_ALLOW_NCRYPT_KEY_FLAG, found);
          (CryptAcquireCertificatePrivateKey ctx winAPIFlag, got)]
    /\ rv found <> winFalse /\ rv got <> winFalse /\ out3 got = winTrue
    /\ keys w1
       = keys w ++ [ if DWORD (out2 got) =? CERT_NCRYPT_KEY_SPEC
                     then {| publicKey := pub; capiProv := 0;
                             cngHandle := out1 got; keySpec := 0 |}
                     else {| publicKey := pub; capiProv := out1 got;
                             cngHandle := 0; keySpec := DWORD (out2 got) |} ]
    /\ stores w1 = stores w /\ idents w1 = idents w
    /\ exists w2,
         winPrivateKey_Close oracle k w1 = (Ret tt, w2)
         /\ calls_since w1 w2
            = (if out1 got =? 0 then []
               else if DWORD (out2 got) =? CERT_NCRYPT_KEY_SPEC
                    then [NCryptFreeObject (out1 got)]
                    else [CryptReleaseContext (out1 got)])
         /\ stores w2 = stores w1 /\ idents w2 = idents w1 /\ keys w2 = keys w1.
Proof.
  unfold newWinPrivateKey. destruct pk as [pub|]; [|discriminate].
  unfold lastError, bind, cgo, new, ret, with_trace. cbn [objs with_objs Keys].
  cbv beta iota zeta. cbn [trace].
  set (found := oracle (trace w) _).
  destruct (Z.eqb_spec (rv found) winFalse) as [|Hf]; [discriminate|].
  cbv beta iota zeta. cbn [trace].
  match goal with
  | |- context [oracle ?t (CryptAcquireCertificatePrivateKey ctx winAPIFlag)] =>
      set (got := oracle t (CryptAcquireCertificatePrivateKey ctx winAPIFlag))
  end.
  destruct (Z.eqb_spec (rv got) winFalse) as [|Hg]; [discriminate|].
  destruct (Z.eqb_spec (out3 got) winTrue) as [Hm|]; [|discriminate]. cbn [negb].
  destruct (DWORD (out2 got) =? CERT_NCRYPT_KEY_SPEC) eqn:Hs;
    intros [= <- <-]; exists pub, found, got; rewrite !Hs;
    (split; [reflexivity|]); (split; [reflexivity|]);
    (split; [cbn [trace]; rewrite <- app_assoc; now rewrite drop_app_length|]);
    (split; [exact Hf|]); (split; [exact Hg|]); (split; [exact Hm|]);
    (split; [reflexivity|]); (split; [reflexivity|]); (split; [reflexivity|]);
    unfold winPrivateKey_Close, bind, load, ret, cgo, with_trace, calls_since;
    cbn [objs Keys keys trace stores idents];
    rewrite list_lookup_middle by reflexivity;
    cbn [cngHandle capiProv Z.eqb negb];
    destruct (out1 got =? 0); cbn [negb trace stores idents keys];
    eexists; (split; [reflexivity|]); cbn [trace stores idents keys];
    rewrite ?drop_app_length, ?drop_all; repeat split.
Qed.

Lemma X6_witness :
  let oracle := scripted [ answer 1;
                           {| rv := 1; out1 := 4; out2 := 0xFFFFFFFF; out3 := 1;
                              written := [] |} ] in
  let run := newWinPrivateKey oracle 0 9 (Some ecdsa_PublicKey) empty_world in
  let k := Some 0%nat in
  run = (Ret (k, None), snd run)
  /\ exists pub found got,
      Some ecdsa_PublicKey = Some pub /\ k = Some (length (keys empty_world))
      /\ drop (length (trace empty_world)) (trace (snd run))
         = [(CryptFindCertificateKeyProvInfo 9 CRYPT_ACQUIRE_ALLOW_NCRYPT_KEY_FLAG, found);
            (CryptAcquireCertificatePrivateKey 9 0, got)]
      /\ rv found <> winFalse /\ rv got <> winFalse /\ out3 got = winTrue
      /\ keys (snd run)
         = keys empty_world
           ++ [ if DWORD (out2 got) =? CERT_NCRYPT_KEY_SPEC
                then {| publicKey := pub; capiProv := 0;
                        cngHandle := out1 got; keySpec := 0 |}
                else {| publicKey := pub; capiProv := out1 got;
                        cngHandle := 0; keySpec := DWORD (out2 got) |} ]
      /\ stores (snd run) = stores empty_world /\ idents (snd run) = idents empty_world
      /\ exists w2,
           winPrivateKey_Close oracle k (snd run) = (Ret tt, w2)
           /\ calls_since (snd run) w2
              = (if out1 got =? 0 then []
                 else if DWORD (out2 got) =? CERT_NCRYPT_KEY_SPEC
                      then [NCryptFreeObject (out1 got)]
                      else [CryptReleaseContext (out1 got)])
           /\ stores w2 = stores (snd run) /\ idents w2 = idents (snd run)
           /\ keys w2 = keys (snd run).
Proof.
  intros oracle run k.
  assert (H : run = (Ret (k, None), snd run)) by (vm_compute; reflexivity).
  split; [exact H|].
  exact (X6_acquired_handle_is_the_one_released oracle 0 9 (Some ecdsa_PublicKey)
           empty_world k (snd run) H).
Defined.



(** X8: [Close] on an open identity releases what the identity owns in a
    fixed order: first the cached key, if a signer was resolved (its CNG
    handle by [NCryptFreeObject], its CryptoAPI handle by
    [CryptReleaseContext], whichever is not zero), then the certificate
    context, which is always the last call.  It changes no Go object: the
    identity is not marked closed and keeps its signer. *)
Theorem X8_identity_Close_releases_key_then_context oracle a id w :
  idents w !! a = Some id -> i_ctx id <> 0 -> i_closed id = false ->
  (forall k, i_signer id = Some k -> is_Some (keys w !! k)) ->
  exists w',
    winIdentity_Close oracle (Some a) w = (Ret tt, w')
    /\ calls_since w w'
       = match i_signer id with
         | None => []
         | Some k =>
             match keys w !! k with
             | None => []
             | Some key =>
                 (if cngHandle key =? 0 then [] else [NCryptFreeObject (cngHandle key)])
                 ++ (if capiProv key =? 0 then []
                     else [CryptReleaseContext (capiProv key)])
             end
         end ++ [CertFreeCertificateContext (i_ctx id)]
    /\ stores w' = stores w /\ idents w' = idents w /\ keys w' = keys w.
Proof.
  intros Hid H0 Hc Hk. unfold winIdentity_Close.
  step (winIdentity_check_at a id w Hid). rewrite Hc.
  destruct (Z.eqb_spec (i_ctx id) 0); [contradiction|].
  step (load_at Idents a id w Hid).
  destruct (i_signer id) as [k|].
  - destruct (Hk k eq_refl) as [key Hkey]. rewrite Hkey.
    unfold winPrivateKey_Close, bind, load, cgo, ret, with_trace, calls_since.
    cbn [objs Keys]. rewrite Hkey.
    destruct (cngHandle key =? 0), (capiProv key =? 0);
      cbn [negb trace stores idents keys]; eexists; (split; [reflexivity|]);
      cbn [trace stores idents keys]; rewrite <- ?app_assoc, drop_app_length;
      repeat split.
  - unfold bind, cgo, ret, with_trace, calls_since.
    eexists. split; [reflexivity|]. cbn [trace stores idents keys].
    rewrite drop_app_length. repeat split.
Qed.

Lemma X8_witness :
  let oracle := scripted [] in
  let w := resolved_identity_world in
  let id := {| i_ctx := 9; i_signer := Some 0%nat; i_closed := false |} in
  idents w !! 0%nat = Some id
  /\ exists w',
      winIdentity_Close oracle (Some 0%nat) w = (Ret tt, w')
      /\ calls_since w w'
         = match i_signer id with
           | None => []
           | Some k =>
               match keys w !! k with
               | None => []
               | Some key =>
                   (if cngHandle key =? 0 then [] else [NCryptFreeObject (cngHandle key)])
                   ++ (if capiProv key =? 0 then []
                       else [CryptReleaseContext (capiProv key)])
               end
           end ++ [CertFreeCertificateContext (i_ctx id)]
      /\ stores w' = stores w /\ idents w' = idents w /\ keys w' = keys w.
Proof.
  intros oracle w id. split; [reflexivity|].
  apply (X8_identity_Close_releases_key_then_context oracle 0%nat id w).
  - reflexivity.
  - simpl. lia.
  - reflexivity.
  - intros k [= <-]. eexists. reflexivity.
Defined.

(** * Further properties of signing *)

(** X9: a successful [cngSignHash] with an RSA key.  The hash is one of
    the four supported ones; both [NCryptSignHash] calls carry the
    PKCS #1 v1.5 padding flag and the algorithm name of that hash, the
    key's handle and the digest as the caller passed it; the first asks
    for the length, the second fills a buffer of that length; and the
    signature returned is that buffer as the native call left it, with no
    re-encoding. *)
Theorem X9_cng_rsa_signature_is_the_native_buffer oracle a k hash digest w sig w' :
  keys w !! a = Some k -> publicKey k = rsa_PublicKey ->
  cngSignHash oracle (Some a) hash digest w = (Ret (sig, None), w') ->
  exists alg q r,
    pszAlgId hash = Some alg
    /\ hash_Size hash = Some (length digest)
    /\ let n := Z.to_nat (DWORD (out1 q)) in
       drop (length (trace w)) (trace w')
       = [(NCryptSignHash (cngHandle k) (Some alg) digest None BCRYPT_PAD_PKCS1, q);
          (NCryptSignHash (cngHandle k) (Some alg) digest (Some n) BCRYPT_PAD_PKCS1, r)]
       /\ rv q = 0 /\ rv r = 0
       /\ sig = fill_buffer n (written r) /\ length sig = n.
Proof.
  intros Hk Hrsa. unfold cngSignHash, Size.
  destruct (hash_Size hash) as [size|] eqn:Hsize; [|discriminate].
  step (ret_run size w).
  destruct (Nat.eqb_spec (length digest) size) as [Hlen|]; [|discriminate].
  cbn [negb]. destruct digest as [|b digest']; [discriminate|].
  cbn [addr_of_first]. step (ret_run tt w). step (load_at Keys a k w Hk).
  rewrite Hrsa. cbn [cng_padding].
  destruct (pszAlgId hash) as [alg|]; [|discriminate].
  unfold bind, addr_of_first, cgo, ret, throw, with_trace, checkStatus.
  cbv beta iota zeta. cbn [trace].
  unravel; intros H; try discriminate H. injection H as <- <-.
  eexists alg, _, _. split; [reflexivity|]. split; [now rewrite Hlen|].
  cbv zeta. cbn [trace]. rewrite <- app_assoc, drop_app_length.
  repeat match goal with
         | H : (_ =? ERROR_SUCCESS) = true |- _ => apply Z.eqb_eq in H
         end.
  repeat split; try assumption. apply length_fill_buffer.
Qed.

Lemma X9_witness :
  let oracle := scripted cng_sign_script in
  let k := {| publicKey := rsa_PublicKey; capiProv := 0; cngHandle := 4; keySpec := 0 |} in
  let digest := replicate 32 x00 in
  let run := cngSignHash oracle (Some 0%nat) crypto_SHA256 digest rsa_cng_world in
  let sig := [x01; x02; x03; x04] in
  keys rsa_cng_world !! 0%nat = Some k
  /\ run = (Ret (sig, None), snd run)
  /\ exists alg q r,
      pszAlgId crypto_SHA256 = Some alg
      /\ hash_Size crypto_SHA256 = Some (length digest)
      /\ let n := Z.to_nat (DWORD (out1 q)) in
         drop (length (trace rsa_cng_world)) (trace (snd run))
         = [(NCryptSignHash (cngHandle k) (Some alg) digest None BCRYPT_PAD_PKCS1, q);
            (NCryptSignHash (cngHandle k) (Some alg) digest (Some n) BCRYPT_PAD_PKCS1, r)]
         /\ rv q = 0 /\ rv r = 0
         /\ sig = fill_buffer n (written r) /\ length sig = n.
Proof.
  intros oracle k digest run sig.
  assert (Hk : keys rsa_cng_world !! 0%nat = Some k) by reflexivity.
  assert (H : run = (Ret (sig, None), snd run)) by (vm_compute; reflexivity).
  split; [exact Hk|]. split; [exact H|].
  exact (X9_cng_rsa_signature_is_the_native_buffer oracle 0%nat k crypto_SHA256 digest
           rsa_cng_world sig (snd run) Hk eq_refl H).
Defined.

(** X10: a hash function whose size the digest matches but which is not
    SHA-1, SHA-256, SHA-384 or SHA-512 is refused with "unsupported hash
    algorithm" before any call leaves Go and without any change: by
    [capiSignHash] for every receiver, by [cngSignHash] for an RSA key,
    and so by [Sign] on a legacy key and on a modern RSA key. *)
Theorem X10_unsupported_hash_is_refused_before_any_call oracle a k hash digest w :
  keys w !! a = Some k ->
  hash_Size hash = Some (length digest) ->
  ~ In hash supported_hashes ->
  let refused := (Ret ([], Some (errors_New "unsupported hash algorithm")), w) in
  (forall wpk, capiSignHash oracle wpk hash digest w = refused)
  /\ (publicKey k = rsa_PublicKey -> cngSignHash oracle (Some a) hash digest w = refused)
  /\ (capiProv k <> 0 \/ (cngHandle k <> 0 /\ publicKey k = rsa_PublicKey) ->
      Sign oracle (Some a) digest hash w = refused).
Proof.
  intros Hk Hsize Hnot refused.
  assert (Hne : hash_alg hash = None /\ pszAlgId hash = None).
  { unfold hash_alg, pszAlgId, supported_hashes in *. cbn [In] in Hnot.
    destruct (Z.eqb_spec hash crypto_SHA1); [exfalso; apply Hnot; subst hash; auto 6|].
    destruct (Z.eqb_spec hash crypto_SHA256); [exfalso; apply Hnot; subst hash; auto 6|].
    destruct (Z.eqb_spec hash crypto_SHA384); [exfalso; apply Hnot; subst hash; auto 6|].
    destruct (Z.eqb_spec hash crypto_SHA512); [exfalso; apply Hnot; subst hash; auto 6|]. now split. }
  destruct Hne as [Halg Hpsz].
  assert (Hcapi : forall wpk, capiSignHash oracle wpk hash digest w = refused).
  { intros wpk. unfold capiSignHash, Size. rewrite Hsize.
    step (ret_run (length digest) w). rewrite Nat.eqb_refl. cbn [negb].
    now rewrite Halg. }
  assert (Hcng : publicKey k = rsa_PublicKey ->
                 cngSignHash oracle (Some a) hash digest w = refused).
  { intros Hrsa. unfold cngSignHash, Size. rewrite Hsize.
    step (ret_run (length digest) w). rewrite Nat.eqb_refl. cbn [negb].
    pose proof (hash_Size_pos _ _ Hsize) as Hpos.
    destruct digest as [|b digest']; [cbn in Hpos; lia|].
    cbn [addr_of_first]. step (ret_run tt w). step (load_at Keys a k w Hk).
    rewrite Hrsa. cbn [cng_padding]. now rewrite Hpsz. }
  split; [exact Hcapi|]. split; [exact Hcng|].
  intros Hres. unfold Sign. step (load_at Keys a k w Hk).
  destruct (Z.eqb_spec (capiProv k) 0) as [Hc|Hc]; [|apply Hcapi].
  destruct Hres as [Hx|[Hn Hrsa]]; [contradiction|].
  destruct (Z.eqb_spec (cngHandle k) 0); [contradiction|]. now apply Hcng.
Qed.

Lemma X10_witness :
  let oracle := scripted [] in
  let k := {| publicKey := rsa_PublicKey; capiProv := 0; cngHandle := 4; keySpec := 0 |} in
  let SHA224 := 4 in
  let digest := replicate 28 x00 in
  let w := rsa_cng_world in
  let refused := (Ret ([], Some (errors_New "unsupported hash algorithm")), w) in
  keys w !! 0%nat = Some k
  /\ hash_Size SHA224 = Some (length digest)
  /\ (forall wpk, capiSignHash oracle wpk SHA224 digest w = refused)
  /\ (publicKey k = rsa_PublicKey -> cngSignHash oracle (Some 0%nat) SHA224 digest w = refused)
  /\ (capiProv k <> 0 \/ (cngHandle k <> 0 /\ publicKey k = rsa_PublicKey) ->
      Sign oracle (Some 0%nat) digest SHA224 w = refused).
Proof.
  intros oracle k SHA224 digest w refused.
  split; [reflexivity|]. split; [reflexivity|].
  apply (X10_unsupported_hash_is_refused_before_any_call oracle 0%nat k SHA224 digest w).
  - reflexivity.
  - reflexivity.
  - vm_compute. intuition discriminate.
Defined.


(** X11: [capiSignHash] never leaks the hash object it creates.  On every
    exit, whether it returns a signature, returns an error or panics,
    the calls it made are one of: none at all; calls of which one, a
    failed [CryptCreateHash], concerns a hash object; or calls of which
    exactly two concern a hash object, a [CryptCreateHash] that succeeded
    and the [CryptDestroyHash] of the object it made, which is the last
    call of all. *)
Theorem X11_capi_hash_object_is_always_destroyed oracle wpk hash digest w :
  exists evs,
    trace (snd (capiSignHash oracle wpk hash digest w)) = trace w ++ evs
    /\ let lifecycle := List.filter (fun ev => hash_object_call (fst ev)) evs in
       evs = []
       \/ (exists prov alg r,
             lifecycle = [(CryptCreateHash prov alg, r)] /\ rv r = winFalse)
       \/ (exists prov alg r d,
             lifecycle = [(CryptCreateHash prov alg, r); (CryptDestroyHash (out1 r), d)]
             /\ rv r <> winFalse
             /\ last evs = Some (CryptDestroyHash (out1 r), d)).
Proof.
  unfold capiSignHash, Size, lastError, bind, defer, cgo, load, addr_of_first, ret, throw,
    with_trace.
  unravel; cbn [snd trace];
    repeat match goal with
           | H : (rv _ =? winFalse) = true |- _ => apply Z.eqb_eq in H
           | H : (rv _ =? winFalse) = false |- _ => apply Z.eqb_neq in H
           end;
    (eexists; split;
     [rewrite <- ?app_assoc; cbn [app]; first [reflexivity | symmetry; apply app_nil_r]|]);
    cbv zeta;
    first
      [ left; reflexivity
      | right; left; eexists _, _, _; split; [reflexivity|assumption]
      | right; right; eexists _, _, _, _; split; [reflexivity|];
        split; [assumption|reflexivity] ].
Qed.

(** X12: a successful [capiSignHash], call by call.  The hash is one of
    the four supported ones and the six calls are: create a hash object
    with the key's provider and the algorithm of that hash; read its
    size, which equals the length of the digest; set its value to the
    digest exactly as the caller passed it; ask for the signature length
    with the key's [keySpec]; sign into a buffer of that length; destroy
    the hash object.  No Go object changes. *)
Theorem X12_successful_capi_signature_protocol oracle a k hash digest w sig w' :
  keys w !! a = Some k ->
  capiSignHash oracle (Some a) hash digest w = (Ret (sig, None), w') ->
  exists alg created got set q r d,
    hash_alg hash = Some alg
    /\ hash_Size hash = Some (length digest)
    /\ let h := out1 created in
       let n := Z.to_nat (DWORD (out1 q)) in
       drop (length (trace w)) (trace w')
       = [(CryptCreateHash (capiProv k) alg, created);
          (CryptGetHashParam h HP_HASHSIZE, got);
          (CryptSetHashParam h HP_HASHVAL digest, set);
          (CryptSignHash h (keySpec k) None, q);
          (CryptSignHash h (keySpec k) (Some n), r);
          (CryptDestroyHash h, d)]
       /\ DWORD (out1 got) = Z.of_nat (length digest)
       /\ length sig = n
    /\ stores w' = stores w /\ idents w' = idents w /\ keys w' = keys w.
Proof.
  intros Hk. unfold capiSignHash, Size.
  destruct (hash_Size hash) as [size|] eqn:Hsize; [|discriminate].
  step (ret_run size w).
  destruct (Nat.eqb_spec (length digest) size) as [Hlen|]; [|discriminate].
  cbn [negb]. destruct (hash_alg hash) as [alg|]; [|discriminate].
  step (load_at Keys a k w Hk).
  unfold bind, defer, lastError, cgo, addr_of_first, ret, throw, with_trace.
  unravel; intros H; try discriminate H. injection H as <- <-.
  match goal with
  | Hrev : reverse_in_place _ = Some _ |- _ =>
      rewrite reverse_in_place_reverse in Hrev; injection Hrev as <-
  end.
  eexists alg, _, _, _, _, _, _. split; [reflexivity|]. split; [now rewrite Hlen|].
  cbv zeta. cbn [trace stores idents keys].
  rewrite <- !app_assoc, drop_app_length. cbn [app]. split; [reflexivity|].
  split.
  { match goal with
    | Hs : negb (Z.of_nat _ =? _) = false |- _ =>
        apply negb_false_iff, Z.eqb_eq in Hs;
        etransitivity; [symmetry; exact Hs|]; rewrite <- Hlen, ?Heql; reflexivity
    end. }
  split; [rewrite length_reverse; apply length_fill_buffer|]. repeat split.
Qed.

Lemma X12_witness :
  let oracle := scripted capi_sign_script in
  let k := {| publicKey := rsa_PublicKey; capiProv := 6; cngHandle := 0; keySpec := 1 |} in
  let digest := replicate 20 x00 in
  let w := two_keys_world in
  let run := capiSignHash oracle (Some 1%nat) crypto_SHA1 digest w in
  let sig := [x04; x03; x02; x01] in
  keys w !! 1%nat = Some k
  /\ run = (Ret (sig, None), snd run)
  /\ exists alg created got set q r d,
      hash_alg crypto_SHA1 = Some alg
      /\ hash_Size crypto_SHA1 = Some (length digest)
      /\ let h := out1 created in
         let n := Z.to_nat (DWORD (out1 q)) in
         drop (length (trace w)) (trace (snd run))
         = [(CryptCreateHash (capiProv k) alg, created);
            (CryptGetHashParam h HP_HASHSIZE, got);
            (CryptSetHashParam h HP_HASHVAL digest, set);
            (CryptSignHash h (keySpec k) None, q);
            (CryptSignHash h (keySpec k) (Some n), r);
            (CryptDestroyHash h, d)]
         /\ DWORD (out1 got) = Z.of_nat (length digest)
         /\ length sig = n
      /\ stores (snd run) = stores w /\ idents (snd run) = idents w
      /\ keys (snd run) = keys w.
Proof.
  intros oracle k digest w run sig.
  assert (Hk : keys w !! 1%nat = Some k) by reflexivity.
  assert (H : run = (Ret (sig, None), snd run)) by (vm_compute; reflexivity).
  split; [exact Hk|]. split; [exact H|].
  exact (X12_successful_capi_signature_protocol oracle 1%nat k crypto_SHA1 digest w sig
           (snd run) Hk H).
Defined.

(** * Further properties of deletion *)

(** Case analysis of a computation on a key whose object is known. *)
Ltac unravel_at Hk :=
  repeat (cbv beta iota zeta; cbn [objs Keys keys trace]; rewrite ?Hk;
          match goal with
          | |- context [match ?x with _ => _ end] =>
              lazymatch x with
              | context [match _ with _ => _ end] => fail
              | _ => destruct x eqn:?
              end
          end);
  cbv beta iota zeta; cbn [objs Keys keys trace]; rewrite ?Hk.

(** X13: a [Delete] that returns no error, call by call.  For a key with
    a CNG handle it made the single call [NCryptDeleteKey] on that
    handle, with status 0.  For a key with only a CryptoAPI handle it
    read the container name, the provider name and the provider type of
    that handle, each by a length query and a read, and then called
    [CryptAcquireContext] with exactly the three values read and the
    flag [CRYPT_DELETEKEYSET], which succeeded.  The key object itself is
    not changed: its handles stay as they were. *)
Theorem X13_successful_Delete_protocol oracle a k w w' :
  keys w !! a = Some k ->
  Delete oracle (Some a) w = (Ret None, w') ->
  stores w' = stores w /\ idents w' = idents w /\ keys w' = keys w
  /\ ((cngHandle k <> 0
       /\ exists r, drop (length (trace w)) (trace w')
                    = [(NCryptDeleteKey (cngHandle k), r)]
                    /\ rv r = ERROR_SUCCESS)
      \/ (cngHandle k = 0 /\ capiProv k <> 0
          /\ exists q1 r1 q2 r2 q3 r3 r,
               drop (length (trace w)) (trace w')
               = param_events (capiProv k) PP_CONTAINER q1 r1
                 ++ param_events (capiProv k) PP_NAME q2 r2
                 ++ param_events (capiProv k) PP_PROVTYPE q3 r3
                 ++ [(CryptAcquireContext (param_value q1 r1) (param_value q2 r2)
                        (read_DWORD (param_value q3 r3)) CRYPT_DELETEKEYSET, r)]
               /\ rv r <> winFalse)).
Proof.
  intros Hk. unfold Delete. step (load_at Keys a k w Hk).
  unfold getProviderParam, lastError, checkStatus, bind, load, addr_of_first, cgo, ret,
    throw, with_trace.
  unravel_at Hk; intros H; try discriminate H; injection H as <-;
    cbn [trace stores idents keys];
    (split; [reflexivity|]); (split; [reflexivity|]); (split; [reflexivity|]);
    repeat match goal with
           | H : negb _ = true |- _ => apply negb_true_iff in H
           | H : negb _ = false |- _ => apply negb_false_iff in H
           | H : (_ =? _) = true |- _ => apply Z.eqb_eq in H
           | H : (_ =? _) = false |- _ => apply Z.eqb_neq in H
           end.
  - left. split; [assumption|]. eexists. split; [|eassumption].
    now rewrite drop_app_length.
  - right. split; [assumption|]. split; [assumption|].
    eexists _, _, _, _, _, _, _. split; [|eassumption].
    rewrite <- !app_assoc, drop_app_length. reflexivity.
Qed.

Lemma X13_witness :
  let oracle := scripted capi_delete_script in
  let k := {| publicKey := rsa_PublicKey; capiProv := 6; cngHandle := 0; keySpec := 1 |} in
  let w := two_keys_world in
  let run := Delete oracle (Some 1%nat) w in
  keys w !! 1%nat = Some k
  /\ run = (Ret None, snd run)
  /\ stores (snd run) = stores w /\ idents (snd run) = idents w
  /\ keys (snd run) = keys w
  /\ ((cngHandle k <> 0
       /\ exists r, drop (length (trace w)) (trace (snd run))
                    = [(NCryptDeleteKey (cngHandle k), r)]
                    /\ rv r = ERROR_SUCCESS)
      \/ (cngHandle k = 0 /\ capiProv k <> 0
          /\ exists q1 r1 q2 r2 q3 r3 r,
               drop (length (trace w)) (trace (snd run))
               = param_events (capiProv k) PP_CONTAINER q1 r1
                 ++ param_events (capiProv k) PP_NAME q2 r2
                 ++ param_events (capiProv k) PP_PROVTYPE q3 r3
                 ++ [(CryptAcquireContext (param_value q1 r1) (param_value q2 r2)
                        (read_DWORD (param_value q3 r3)) CRYPT_DELETEKEYSET, r)]
               /\ rv r <> winFalse)).
Proof.
  intros oracle k w run.
  assert (Hk : keys w !! 1%nat = Some k) by reflexivity.
  assert (H : run = (Ret None, snd run)) by (vm_compute; reflexivity).
  split; [exact Hk|]. split; [exact H|].
  exact (X13_successful_Delete_protocol oracle 1%nat k w (snd run) Hk H).
Defined.

(** What [Delete] returns tells whether a key was deleted: it
    returns nil exactly when one of its calls deleted the key: an
    [NCryptDeleteKey] with status 0 or a [CryptAcquireContext] with
    [CRYPT_DELETEKEYSET] that succeeded.  When it returns an error, no
    call it made deleted anything; a parameter that cannot be read stops
    it before the deleting call. *)
Lemma Delete_nil_iff_deleted oracle a k w res w' :
  keys w !! a = Some k ->
  Delete oracle (Some a) w = (Ret res, w') ->
  res = None <-> existsb key_deleted (drop (length (trace w)) (trace w')) = true.
Proof.
  intros Hk. unfold Delete. step (load_at Keys a k w Hk).
  unfold getProviderParam, lastError, checkStatus, bind, load, addr_of_first, cgo, ret,
    throw, with_trace.
  unravel_at Hk; intros H; try discriminate H; injection H as <- <-;
    cbn [trace]; rewrite <- ?app_assoc in *; rewrite ?drop_app_length, ?drop_all;
    cbn [app existsb key_deleted fst snd orb andb] in *;
    repeat match goal with
           | H : _ = true |- _ => rewrite H
           | H : _ = false |- _ => rewrite H
           end;
    cbn [negb orb andb]; split; intros H; first [reflexivity | discriminate H].
Qed.

(** X14: what [Delete] returns tells whether a key was deleted.  It
    returns nil exactly when one of its calls deleted the key: an
    [NCryptDeleteKey] with status 0 or a [CryptAcquireContext] with
    [CRYPT_DELETEKEYSET] that succeeded.  When it returns an error, no
    call it made deleted anything; a parameter that cannot be read stops
    it before the deleting call. *)
Theorem X14_Delete_reports_whether_the_key_was_deleted oracle a k w res w' :
  keys w !! a = Some k ->
  Delete oracle (Some a) w = (Ret res, w') ->
  res = None <-> existsb key_deleted (drop (length (trace w)) (trace w')) = true.
Proof. apply Delete_nil_iff_deleted. Qed.

Lemma X14_witness :
  let oracle := scripted [answer 5] in
  let k := {| publicKey := ecdsa_PublicKey; capiProv := 0; cngHandle := 4; keySpec := 0 |} in
  let w := two_keys_world in
  let run := Delete oracle (Some 0%nat) w in
  let res := Some (securityStatus 5) in
  keys w !! 0%nat = Some k
  /\ run = (Ret res, snd run)
  /\ (res = None
      <-> existsb key_deleted (drop (length (trace w)) (trace (snd run))) = true).
Proof.
  intros oracle k w run res.
  assert (Hk : keys w !! 0%nat = Some k) by reflexivity.
  assert (H : run = (Ret res, snd run)) by (vm_compute; reflexivity).
  split; [exact Hk|]. split; [exact H|].
  exact (X14_Delete_reports_whether_the_key_was_deleted oracle 0%nat k w res (snd run) Hk H).
Defined.

(** X15: [Destroy] deletes the certificate before it looks at the key.
    It duplicates the identity's context and passes the duplicate to
    [CertDeleteCertificateFromStore]; when that call fails it returns the
    native error code wrapped as "failed to delete certificate from
    store", having made these two calls and [GetLastError] only: the key
    is neither resolved nor deleted and no Go object changes.  There is
    no [_check]: this is also what happens on a closed identity or one
    with a nil context. *)
Theorem X15_Destroy_stops_when_the_certificate_stays oracle winAPIFlag a id w :
  idents w !! a = Some id ->
  let dup := oracle (trace w) (CertDuplicateCertificateContext (i_ctx id)) in
  let w1 := log [(CertDuplicateCertificateContext (i_ctx id), dup)] w in
  let del := oracle (trace w1) (CertDeleteCertificateFromStore (rv dup)) in
  rv del = winFalse ->
  exists g w',
    Destroy oracle winAPIFlag (Some a) w
    = (Ret (Some (errors_Wrap (errCode (DWORD (rv g)))
                    "failed to delete certificate from store")), w')
    /\ drop (length (trace w)) (trace w')
       = [(CertDuplicateCertificateContext (i_ctx id), dup);
          (CertDeleteCertificateFromStore (rv dup), del);
          (GetLastError, g)]
    /\ stores w' = stores w /\ idents w' = idents w /\ keys w' = keys w.
Proof.
  intros Hid dup w1 del Hdel. unfold Destroy.
  step (load_at Idents a id w Hid).
  step (cgo_run oracle (CertDuplicateCertificateContext (i_ctx id)) w).
  fold dup. fold w1.
  step (cgo_run oracle (CertDeleteCertificateFromStore (rv dup)) w1).
  fold del. rewrite Hdel. cbn [Z.eqb winFalse].
  set (w2 := log _ w1).
  step (lastError_run oracle "failed to delete certificate from store" w2).
  rewrite ret_run. eexists _, _. split; [reflexivity|].
  subst w2 w1. cbn [trace stores idents keys log with_trace].
  rewrite <- !app_assoc, drop_app_length. repeat split.
Qed.

Lemma X15_witness :
  let oracle := scripted [answer 19; answer 0; answer 5] in
  let w := resolved_identity_world in
  let id := {| i_ctx := 9; i_signer := Some 0%nat; i_closed := false |} in
  let dup := oracle (trace w) (CertDuplicateCertificateContext (i_ctx id)) in
  let w1 := log [(CertDuplicateCertificateContext (i_ctx id), dup)] w in
  let del := oracle (trace w1) (CertDeleteCertificateFromStore (rv dup)) in
  idents w !! 0%nat = Some id
  /\ rv del = winFalse
  /\ exists g w',
      Destroy oracle 0 (Some 0%nat) w
      = (Ret (Some (errors_Wrap (errCode (DWORD (rv g)))
                      "failed to delete certificate from store")), w')
      /\ drop (length (trace w)) (trace w')
         = [(CertDuplicateCertificateContext (i_ctx id), dup);
            (CertDeleteCertificateFromStore (rv dup), del);
            (GetLastError, g)]
      /\ stores w' = stores w /\ idents w' = idents w /\ keys w' = keys w.
Proof.
  intros oracle w id dup w1 del.
  split; [reflexivity|]. split; [reflexivity|].
  apply (X15_Destroy_stops_when_the_certificate_stays oracle 0 0%nat id w); reflexivity.
Defined.

(** Calls are only ever added to the trace. *)
Lemma getPrivateKey_extends_trace oracle winAPIFlag i w :
  exists evs, trace (snd (getPrivateKey oracle winAPIFlag i w)) = trace w ++ evs.
Proof.
  unfold getPrivateKey, GetCertificate, newWinPrivateKey, winIdentity_check,
    update, lastError, bind, load, cgo, new, ret, throw, with_trace.
  cbn [objs with_objs Idents Keys].
  unravel; cbn [snd trace]; eexists; rewrite <- ?app_assoc;
    first [reflexivity | symmetry; apply app_nil_r].
Qed.

Lemma Delete_extends_trace oracle wpk w :
  exists evs, trace (snd (Delete oracle wpk w)) = trace w ++ evs.
Proof.
  unfold Delete, getProviderParam, lastError, checkStatus, bind, load, addr_of_first, cgo,
    ret, throw, with_trace.
  unravel; cbn [snd trace]; eexists; rewrite <- ?app_assoc;
    first [reflexivity | symmetry; apply app_nil_r].
Qed.

(** X16: [Destroy] returns nil only when both deletions succeeded, the
    certificate first: its first two calls duplicate the identity's
    context and delete the duplicate from the store, successfully, and
    among the calls after them is one that deleted the key. *)
Theorem X16_Destroy_success_means_both_were_deleted oracle winAPIFlag a id w w' :
  idents w !! a = Some id ->
  Destroy oracle winAPIFlag (Some a) w = (Ret None, w') ->
  exists dup del rest,
    drop (length (trace w)) (trace w')
    = (CertDuplicateCertificateContext (i_ctx id), dup)
      :: (CertDeleteCertificateFromStore (rv dup), del) :: rest
    /\ rv del <> winFalse
    /\ existsb key_deleted rest = true.
Proof.
  intros Hid. unfold Destroy.
  step (load_at Idents a id w Hid).
  step (cgo_run oracle (CertDuplicateCertificateContext (i_ctx id)) w).
  set (dup := oracle (trace w) _). set (w1 := log _ w).
  step (cgo_run oracle (CertDeleteCertificateFromStore (rv dup)) w1).
  set (del := oracle (trace w1) _). set (w2 := log _ w1).
  destruct (Z.eqb_spec (rv del) winFalse) as [|Hdel].
  { step (lastError_run oracle "failed to delete certificate from store" w2).
    discriminate. }
  intros H. apply bind_Ret_inv in H as ([wpk ke] & w3 & Hget & H).
  destruct ke as [err|]; [discriminate H|].
  apply bind_Ret_inv in H as (e & w4 & Hdelete & H).
  destruct e as [err|]; [discriminate H|]. injection H as <-.
  destruct (getPrivateKey_extends_trace oracle winAPIFlag (Some a) w2) as (evs1 & He1).
  rewrite Hget in He1. cbn [snd] in He1.
  destruct (Delete_extends_trace oracle wpk w3) as (evs2 & He2).
  rewrite Hdelete in He2. cbn [snd] in He2.
  assert (Hkey : existsb key_deleted evs2 = true).
  { destruct wpk as [ka|]; [|discriminate Hdelete].
    destruct (keys w3 !! ka) as [k|] eqn:Hk.
    - pose proof (Delete_nil_iff_deleted oracle ka k w3 None w4 Hk Hdelete) as Hx.
      rewrite He2, drop_app_length in Hx. now apply Hx.
    - unfold Delete, bind, load in Hdelete. cbn [objs Keys] in Hdelete.
      rewrite Hk in Hdelete. discriminate Hdelete. }
  exists dup, del, (evs1 ++ evs2). split.
  - rewrite He2, He1. subst w2 w1. cbn [trace log with_trace].
    rewrite <- !app_assoc, drop_app_length. reflexivity.
  - split; [exact Hdel|]. rewrite existsb_app, Hkey. apply orb_true_r.
Qed.

Lemma X16_witness :
  let oracle := scripted [answer 19; answer 1; answer 0] in
  let w := resolved_identity_world in
  let id := {| i_ctx := 9; i_signer := Some 0%nat; i_closed := false |} in
  let run := Destroy oracle 0 (Some 0%nat) w in
  idents w !! 0%nat = Some id
  /\ run = (Ret None, snd run)
  /\ exists dup del rest,
      drop (length (trace w)) (trace (snd run))
      = (CertDuplicateCertificateContext (i_ctx id), dup)
        :: (CertDeleteCertificateFromStore (rv dup), del) :: rest
      /\ rv del <> winFalse
      /\ existsb key_deleted rest = true.
Proof.
  intros oracle w id run.
  assert (Hid : idents w !! 0%nat = Some id) by reflexivity.
  assert (H : run = (Ret None, snd run)) by (vm_compute; reflexivity).
  split; [exact Hid|]. split; [exact H|].
  exact (X16_Destroy_success_means_both_were_deleted oracle 0 0%nat id w (snd run) Hid H).
Defined.

(** * Further properties of the import *)

Lemma pointers_snoc base k :
  pointers base (S k) = pointers base k ++ [Some (base + k)%nat].
Proof. unfold pointers. now rewrite seq_S, List.map_app. Qed.

Section ImportProtocol.
Variable oracle : list event -> call -> reply.

(** The loop of [importPFX], event by event, from a transient store that
    is open and a target store that exists.  It ends in one of two ways:
    the lookup finds nothing more, or an insertion fails and every
    identity made so far is closed. *)
Lemma import_loop_events a b sb fuel : forall w st pre sofar,
  a <> b -> stores w !! b = Some sb ->
  stores w !! a = Some st -> s_store st <> 0 -> s_closed st = false ->
  s_err st = None ->
  idents w = pre ++ sofar -> Forall fresh_identity sofar ->
  fst (import_loop oracle fuel (Some b) (Some a)
         (pointers (length pre) (length sofar)) w) <> Diverge ->
  exists found f_end tail res st',
    import_loop oracle fuel (Some b) (Some a) (pointers (length pre) (length sofar)) w
    = (Ret res,
       {| trace := trace w ++ import_events (s_store sb) (s_store st) (s_prev st) found
                     ++ (CertFindCertificateInStore (s_store st)
                           (Z.lor X509_ASN_ENCODING PKCS_7_ASN_ENCODING) CERT_FIND_ANY
                           (import_cursor (s_prev st) found), f_end) :: tail;
          stores := <[a := st']> (stores w);
          idents := idents w ++ map imported_identity found;
          keys := keys w |})
    /\ Forall imported_ok found
    /\ s_store st' = s_store st /\ s_closed st' = false
    /\ ((rv f_end = 0
         /\ exists g,
              tail = [(GetLastError, g)]
              /\ res = (pointers (length pre) (length sofar + length found), None)
              /\ s_prev st' = 0
              /\ s_err st' = Some (errors_Wrap (errCode (DWORD (rv g)))
                                     "CertFindCertificateInStore failed"))
        \/ (rv f_end <> 0
            /\ exists mem added closes g,
                 tail = (ReadCertContext (rv f_end), mem)
                        :: (CertAddEncodedCertificateToStore (s_store sb) (out1 mem)
                              (written mem) CERT_STORE_ADD_REPLACE_EXISTING, added)
                        :: closes ++ [(GetLastError, g)]
                 /\ rv added = winFalse
                 /\ map fst closes
                    = flat_map close_calls (sofar ++ map imported_identity found)
                 /\ res = ([], Some (errors_Wrap (errCode (DWORD (rv g)))
                                       "failed to add imported certificate to MY store"))
                 /\ s_prev st' = rv f_end /\ s_err st' = None)).
Proof.
  induction fuel as [|fuel IH]; intros w st pre sofar Hab Hsb Hst H0 Hc He Hids Hfresh Hend.
  - now contradiction Hend.
  - cbn [import_loop] in *.
    assert (Hlt : (a < length (stores w))%nat) by (eapply lookup_lt_Some, Hst).
    pose proof (nextCert_open oracle w a st Hst H0 Hc He) as Hnext. cbv zeta in Hnext.
    set (r := oracle (trace w) (find_call st)) in *.
    destruct (Z.eqb_spec (rv r) 0) as [Hr|Hr].
    { (* nothing more to import *)
      rewrite (bind_Ret _ _ _ _ _ Hnext). cbn [Z.eqb].
      eexists [], r, _, _, _. split.
      { rewrite ret_run. cbn [import_events import_cursor map app].
        unfold put_store, log, with_trace. cbn [trace stores idents keys with_objs Stores].
        rewrite <- app_assoc, app_nil_r. reflexivity. }
      split; [constructor|]. split; [reflexivity|]. split; [exact Hc|].
      left. split; [exact Hr|]. eexists. split; [reflexivity|].
      split; [now rewrite Nat.add_0_r|]. split; reflexivity. }
    rewrite (bind_Ret _ _ _ _ _ Hnext) in *.
    destruct (Z.eqb_spec (rv r) 0) as [|_]; [contradiction|].
    set (w1 := put_store a (set_prev (rv r) st) (log [(find_call st, r)] w)) in *.
    assert (Hst1 : stores w1 !! a = Some (set_prev (rv r) st)) by now apply put_store_lookup.
    assert (Hsb1 : stores w1 !! b = Some sb).
    { subst w1. cbn. now rewrite list_lookup_insert_ne. }
    rewrite (bind_Ret _ _ _ _ _ (load_at Stores b sb w1 Hsb1)) in *.
    rewrite (bind_Ret _ _ _ _ _ (cgo_run oracle (ReadCertContext (rv r)) w1)) in *.
    set (mem := oracle (trace w1) (ReadCertContext (rv r))) in *.
    set (w2 := log [(ReadCertContext (rv r), mem)] w1) in *.
    set (cadd := CertAddEncodedCertificateToStore _ _ _ _) in *.
    rewrite (bind_Ret _ _ _ _ _ (cgo_run oracle cadd w2)) in *.
    set (added := oracle (trace w2) cadd) in *.
    set (w3 := log [(cadd, added)] w2) in *.
    destruct (Z.eqb_spec (rv added) winFalse) as [Hadd|Hadd].
    { (* the certificate cannot be added *)
      destruct (close_all_spec oracle sofar pre w3 Hids Hfresh) as (closes & Hrun & Hcalls).
      rewrite (bind_Ret _ _ _ _ _ Hrun).
      rewrite (bind_Ret _ _ _ _ _
                 (lastError_run oracle "failed to add imported certificate to MY store"
                    (log closes w3))).
      eexists [], r, _, _, _. split.
      { rewrite ret_run. cbn [import_events import_cursor map app].
        subst w3 w2 w1. unfold put_store, log, with_trace.
        cbn [trace stores idents keys with_objs Stores].
        rewrite <- !app_assoc, app_nil_r. cbn [app]. reflexivity. }
      split; [constructor|]. split; [reflexivity|]. split; [exact Hc|].
      right. split; [exact Hr|]. eexists mem, added, closes, _.
      split; [reflexivity|]. split; [exact Hadd|].
      split; [now rewrite app_nil_r|]. split; [reflexivity|].
      split; [reflexivity|exact He]. }
    rewrite (bind_Ret _ _ _ _ _ (newWinIdentity_run oracle (out1 added) w3)) in *.
    set (d := oracle (trace w3) (CertDuplicateCertificateContext (out1 added))) in *.
    set (id := {| i_ctx := rv d; i_signer := None; i_closed := false |}) in *.
    set (w4 := {| trace := _; stores := stores w3; idents := idents w3 ++ [id];
                  keys := keys w3 |}) in *.
    match type of Hend with
    | context [import_loop _ _ _ _ ?acc _] =>
        assert (Hacc : acc = pointers (length pre) (length (sofar ++ [id])));
        [|rewrite Hacc in *; clear Hacc]
    end.
    { rewrite length_app. cbn [length]. rewrite Nat.add_1_r, pointers_snoc.
      do 2 f_equal. change (idents w3) with (idents w). rewrite Hids, length_app.
      reflexivity. }
    assert (Hids4 : idents w4 = pre ++ sofar ++ [id]).
    { subst w4 w3 w2 w1. cbn. rewrite Hids, <- app_assoc. reflexivity. }
    assert (Hfresh4 : Forall fresh_identity (sofar ++ [id])).
    { apply Forall_app. split; [exact Hfresh|]. constructor; [now split|constructor]. }
    destruct (IH w4 (set_prev (rv r) st) pre (sofar ++ [id]) Hab Hsb1 Hst1 H0 Hc He
                Hids4 Hfresh4 Hend) as
      (found & f_end & tail & res & st' & Hrun & Hok & Hs & Hcl & Hcases).
    set (x := {| im_found := r; im_read := mem; im_added := added; im_dup := d |}).
    eexists (x :: found), f_end, tail, res, st'. split.
    { etransitivity; [exact Hrun|]. f_equal.
      subst w4 w3 w2 w1. unfold put_store, log, with_trace.
      cbn [trace stores idents keys with_objs Stores map import_events import_cursor
           s_store s_prev set_prev im_found im_read im_added im_dup x].
      rewrite list_insert_insert_eq, <- !app_assoc. cbn [app]. reflexivity. }
    split; [constructor; [now split|exact Hok]|].
    split; [exact Hs|]. split; [exact Hcl|].
    destruct Hcases as [(Hf & g & Ht & Hres & Hp & Herr)
                       |(Hf & mem' & added' & closes & g & Ht & Ha & Hcalls & Hres & Hp & Herr)].
    + left. split; [exact Hf|]. exists g. split; [exact Ht|].
      split; [|split; assumption].
      rewrite Hres. rewrite length_app. cbn [length]. do 2 f_equal. lia.
    + right. split; [exact Hf|]. exists mem', added', closes, g.
      split; [exact Ht|]. split; [exact Ha|]. split; [|split; [exact Hres|split; assumption]].
      rewrite Hcalls. cbn [map]. now rewrite <- app_assoc.
Qed.

End ImportProtocol.

Lemma world_eq t t' s s' i k :
  t = t' -> s = s' ->
  {| trace := t; stores := s; idents := i; keys := k |}
  = {| trace := t'; stores := s'; idents := i; keys := k |}.
Proof. now intros -> ->. Qed.

Lemma last_three {A} (x y p q r : A) l : last (x :: y :: l ++ [p; q; r]) = Some r.
Proof.
  replace (x :: y :: l ++ [p; q; r]) with ((x :: y :: l ++ [p; q]) ++ [r]).
  - apply last_snoc.
  - cbn [app]. now rewrite <- app_assoc.
Qed.

Section ImportOutcome.
Variable oracle : list event -> call -> reply.
Variable winAPIFlag : Z.

(** [importPFX] into a store that exists, once the bundle was accepted:
    if the loop ends the function returns, the transient store is closed
    by the last call, and either every certificate was imported or an
    error is returned and every identity made was closed. *)
Lemma importPFX_outcome fuel b sb data password w :
  stores w !! b = Some sb ->
  let c0 := PFXImportCertStore data password (importPFX_flags winAPIFlag) in
  let r0 := oracle (trace w) c0 in
  rv r0 <> 0 ->
  fst (importPFX oracle winAPIFlag fuel (Some b) data password w) <> Diverge ->
  exists found f_end rest res stf,
    importPFX oracle winAPIFlag fuel (Some b) data password w
    = (Ret res,
       {| trace := trace w ++ (c0, r0) :: import_events (s_store sb) (rv r0) 0 found
                     ++ (CertFindCertificateInStore (rv r0)
                           (Z.lor X509_ASN_ENCODING PKCS_7_ASN_ENCODING) CERT_FIND_ANY
                           (import_cursor 0 found), f_end) :: rest;
          stores := stores w ++ [stf];
          idents := idents w ++ map imported_identity found;
          keys := keys w |})
    /\ Forall imported_ok found
    /\ s_store stf = rv r0 /\ s_closed stf = true
    /\ (exists c, last rest = Some (CertCloseStore (rv r0), c))
    /\ ((rv f_end = 0
         /\ exists g c,
              rest = [(GetLastError, g); (CertCloseStore (rv r0), c)]
              /\ DWORD (rv g) = cryptENotFound
              /\ res = (pointers (length (idents w)) (length found), None)
              /\ s_prev stf = 0
              /\ s_err stf = Some (errors_Wrap (errCode cryptENotFound)
                                     "CertFindCertificateInStore failed"))
        \/ (exists e pre closes post,
              res = ([], Some e)
              /\ rest = pre ++ closes ++ post
              /\ map fst closes = flat_map close_calls (map imported_identity found)
              /\ ((rv f_end = 0
                   /\ exists g c,
                        pre = [(GetLastError, g)]
                        /\ post = [(CertCloseStore (rv r0), c)]
                        /\ DWORD (rv g) <> cryptENotFound
                        /\ e = errors_Wrap (errCode (DWORD (rv g)))
                                 "CertFindCertificateInStore failed")
                  \/ (rv f_end <> 0
                      /\ exists mem added g x c,
                           pre = [(ReadCertContext (rv f_end), mem);
                                  (CertAddEncodedCertificateToStore (s_store sb) (out1 mem)
                                     (written mem) CERT_STORE_ADD_REPLACE_EXISTING, added)]
                           /\ post = [(GetLastError, g);
                                      (CertFreeCertificateContext (rv f_end), x);
                                      (CertCloseStore (rv r0), c)]
                           /\ rv added = winFalse
                           /\ e = errors_Wrap (errCode (DWORD (rv g)))
                                    "failed to add imported certificate to MY store")))).
Proof.
  intros Hsb c0 r0 Hr0 Hend. unfold importPFX in *. fold c0 in Hend |- *.
  rewrite (bind_Ret _ _ _ _ _ (cgo_run oracle c0 w)) in *. fold r0 in Hend |- *.
  destruct (Z.eqb_spec (rv r0) 0) as [|_]; [contradiction|].
  set (st0 := {| s_store := rv r0; s_prev := 0; s_err := None; s_closed := false |}) in *.
  set (a := length (stores w)).
  set (w1 := {| trace := trace w ++ [(c0, r0)]; stores := stores w ++ [st0];
                idents := idents w; keys := keys w |}).
  change (bind (new Stores st0) ?k (log [(c0, r0)] w)) with (k (Some a) w1) in *.
  cbv beta in *.
  assert (Hst0 : stores w1 !! a = Some st0).
  { subst w1 a. cbn. apply list_lookup_middle. reflexivity. }
  assert (Hlt : (b < a)%nat) by (eapply lookup_lt_Some, Hsb).
  assert (Hab : a <> b) by lia.
  assert (Hsb1 : stores w1 !! b = Some sb).
  { subst w1. cbn. now rewrite lookup_app_l. }
  assert (Hloop : fst (import_loop oracle fuel (Some b) (Some a)
                         (pointers (length (idents w1)) (length (@nil winIdentity))) w1)
                  <> Diverge).
  { intros Hd. apply Hend. unfold defer, bind.
    change (pointers (length (idents w1)) (length (@nil winIdentity))) with (@nil ptr) in Hd.
    destruct (import_loop oracle fuel (Some b) (Some a) [] w1) as [[x|p|] wd]; cbn in Hd;
      try discriminate Hd. reflexivity. }
  destruct (import_loop_events oracle a b sb fuel w1 st0 (idents w1) [] Hab Hsb1 Hst0 Hr0
              eq_refl eq_refl (eq_sym (app_nil_r _)) ltac:(constructor) Hloop)
    as (found & f_end & tail & res & st' & Hrun & Hok & Hs & Hcl & Hcases).
  change (pointers (length (idents w1)) (length (@nil winIdentity))) with (@nil ptr) in Hrun.
  cbn [s_store s_prev st0] in Hrun, Hs.
  match type of Hrun with _ = (_, ?W) => set (w2 := W) in * end.
  assert (Hst2 : forall evs, stores (log evs w2) !! a = Some st').
  { intros evs. subst w2. cbn. apply list_lookup_insert_eq. eapply lookup_lt_Some, Hst0. }
  assert (Hs0 : s_store st' <> 0) by (rewrite Hs; exact Hr0).
  assert (Hlog : log [] w2 = w2).
  { unfold log, with_trace. rewrite app_nil_r. reflexivity. }
  destruct Hcases as [(Hf & g & Ht & Hres & Hp & Herr)
                     |(Hf & mem & added & closes & g & Ht & Ha & Hcalls & Hres & Hp & Herr)];
    subst res tail.
  - (* the iteration ended *)
    set (e := errors_Wrap (errCode (DWORD (rv g))) "CertFindCertificateInStore failed") in *.
    assert (Hget : getError (Some a) w2
                   = (Ret (if cause_is_errCode (Some e) cryptENotFound then None else Some e),
                      w2)).
    { rewrite (getError_at a st' w2). 2:{ rewrite <- Hlog. apply Hst2. }
      rewrite Hcl, Herr. now destruct (Z.eqb_spec (s_store st') 0). }
    assert (Hclose : forall evs,
      winStore_Close oracle (Some a) (log evs w2)
      = (Ret tt, put_store a (set_closed true st')
                   (log [(CertCloseStore (rv r0),
                          oracle (trace (log evs w2)) (CertCloseStore (rv r0)))]
                      (log evs w2)))).
    { intros evs.
      pose proof (winStore_Close_open oracle a st' (log evs w2) (Hst2 evs) Hs0 Hcl) as Hx.
      cbv zeta in Hx. now rewrite Hp, Hs in Hx. }
    destruct (cause_is_errCode (Some e) cryptENotFound) eqn:Hcause.
    + (* every certificate was imported *)
      assert (Hcode : DWORD (rv g) = cryptENotFound).
      { unfold cause_is_errCode, e in Hcause. cbn in Hcause. now apply Z.eqb_eq in Hcause. }
      specialize (Hclose []). rewrite Hlog in Hclose.
      eexists found, f_end, _, _, (set_closed true st'). split.
      { unfold defer. rewrite (bind_Ret _ _ _ _ _ Hrun).
        rewrite (bind_Ret _ _ _ _ _ Hget), ret_run, Hclose.
        f_equal. subst w2 w1. unfold put_store, log, with_trace.
        cbn [trace stores idents keys with_objs Stores objs].
        apply world_eq; [|rewrite list_insert_insert_eq; apply insert_last].
        rewrite <- !app_assoc. cbn [app]. rewrite <- ?app_assoc. reflexivity. }
      split; [exact Hok|]. split; [exact Hs|]. split; [reflexivity|].
      split; [eexists; reflexivity|]. left. split; [exact Hf|].
      eexists g, _. split; [reflexivity|]. split; [exact Hcode|].
      split; [reflexivity|]. split; [exact Hp|].
      cbn [set_closed s_err]. rewrite Herr. unfold e. now rewrite Hcode.
    + (* the lookup failed: the identities are closed *)
      destruct (close_all_spec oracle (map imported_identity found) (idents w1) w2 eq_refl)
        as (closes & Hrun2 & Hcalls).
      { apply List.Forall_forall. intros id Hin. apply in_map_iff in Hin.
        destruct Hin as (x & <- & _). now split. }
      rewrite length_map in Hrun2. specialize (Hclose closes).
      eexists found, f_end, _, _, (set_closed true st'). split.
      { unfold defer. rewrite (bind_Ret _ _ _ _ _ Hrun).
        rewrite (bind_Ret _ _ _ _ _ Hget). cbn [Nat.add] in *.
        rewrite (bind_Ret _ _ _ _ _ Hrun2), ret_run, Hclose.
        f_equal. subst w2 w1. unfold put_store, log, with_trace.
        cbn [trace stores idents keys with_objs Stores objs].
        apply world_eq; [|rewrite list_insert_insert_eq; apply insert_last].
        rewrite <- !app_assoc. cbn [app]. rewrite <- ?app_assoc. reflexivity. }
      split; [exact Hok|]. split; [exact Hs|]. split; [reflexivity|].
      split.
      { eexists. cbn [app]. rewrite app_comm_cons. apply last_snoc. }
      assert (Hcode : DWORD (rv g) <> cryptENotFound).
      { unfold cause_is_errCode, e in Hcause. cbn in Hcause. now apply Z.eqb_neq in Hcause. }
      right. eexists e, [(GetLastError, g)], closes, _.
      split; [reflexivity|]. split; [reflexivity|]. split; [exact Hcalls|].
      left. split; [exact Hf|]. eexists g, _. repeat split. exact Hcode.
  - (* an insertion failed *)
    assert (Hp0 : (s_prev st' =? 0) = false) by (rewrite Hp; now apply Z.eqb_neq).
    pose proof (winStore_Close_open oracle a st' w2) as Hclose.
    rewrite <- Hlog in Hclose at 1. specialize (Hclose (Hst2 []) Hs0 Hcl).
    cbv zeta in Hclose. rewrite Hp0, Hs in Hclose.
    eexists found, f_end, _, _, (set_closed true st'). split.
    { unfold defer. rewrite (bind_Ret _ _ _ _ _ Hrun), ret_run, Hclose.
      f_equal. subst w2 w1. unfold put_store, log, with_trace.
      cbn [trace stores idents keys with_objs Stores objs].
      apply world_eq; [|rewrite list_insert_insert_eq; apply insert_last].
      rewrite <- !app_assoc. cbn [app]. rewrite <- ?app_assoc. cbn [app].
      rewrite <- ?app_assoc. reflexivity. }
    split; [exact Hok|]. split; [exact Hs|]. split; [reflexivity|].
    split.
    { eexists. apply last_three. }
    right. eexists _, [_; _], closes, _.
    split; [reflexivity|]. split; [cbn [app]; reflexivity|].
    split; [rewrite Hcalls; reflexivity|].
    right. split; [exact Hf|]. eexists mem, added, g, _, _.
    split; [reflexivity|]. split; [now rewrite Hp|]. split; [exact Ha|reflexivity].
Qed.

End ImportOutcome.

Lemma importPFX_rejected oracle winAPIFlag fuel s data password w :
  rv (oracle (trace w)
        (PFXImportCertStore data password (importPFX_flags winAPIFlag))) = 0 ->
  exists e w', importPFX oracle winAPIFlag fuel s data password w = (Ret ([], Some e), w')
               /\ stores w' = stores w /\ idents w' = idents w.
Proof.
  intros Hr. unfold importPFX.
  step (cgo_run oracle (PFXImportCertStore data password (importPFX_flags winAPIFlag)) w).
  rewrite Hr. cbn [Z.eqb].
  set (w1 := log _ w).
  step (lastError_run oracle "failed to import PFX cert store" w1). rewrite ret_run.
  eexists _, _. repeat split.
Qed.

(** X17: a successful import, call by call.  After [PFXImportCertStore]
    each certificate of the transient store is looked up from the one
    before it, read, inserted into the target store with
    [CERT_STORE_ADD_REPLACE_EXISTING] under the encoding type and the
    bytes just read, and the context the insertion returned is
    duplicated; the lookup that finds nothing is followed by
    [GetLastError], which reports "not found", and the transient store
    is closed last.  The identities returned are new, one per
    certificate in order, and each owns the duplicate of the context in
    the target store, not a context of the transient store. *)
Theorem X17_successful_import_protocol oracle winAPIFlag fuel b sb data password w ids w' :
  stores w !! b = Some sb ->
  importPFX oracle winAPIFlag fuel (Some b) data password w = (Ret (ids, None), w') ->
  exists r0 found f_end g c,
    drop (length (trace w)) (trace w')
    = (PFXImportCertStore data password (importPFX_flags winAPIFlag), r0)
      :: import_events (s_store sb) (rv r0) 0 found
      ++ [(CertFindCertificateInStore (rv r0)
             (Z.lor X509_ASN_ENCODING PKCS_7_ASN_ENCODING) CERT_FIND_ANY
             (import_cursor 0 found), f_end);
          (GetLastError, g);
          (CertCloseStore (rv r0), c)]
    /\ rv r0 <> 0 /\ Forall imported_ok found /\ rv f_end = 0
    /\ DWORD (rv g) = cryptENotFound
    /\ ids = pointers (length (idents w)) (length found)
    /\ idents w' = idents w ++ map imported_identity found
    /\ keys w' = keys w
    /\ stores w' = stores w ++ [ {| s_store := rv r0; s_prev := 0;
                                    s_err := Some (errors_Wrap (errCode cryptENotFound)
                                                     "CertFindCertificateInStore failed");
                                    s_closed := true |} ].
Proof.
  intros Hsb Hrun.
  set (c0 := PFXImportCertStore data password (importPFX_flags winAPIFlag)).
  set (r0 := oracle (trace w) c0).
  destruct (Z.eq_dec (rv r0) 0) as [Hz|Hr0].
  { destruct (importPFX_rejected oracle winAPIFlag fuel (Some b) data password w Hz)
      as (e & w0 & Hrej & _).
    rewrite Hrej in Hrun. discriminate Hrun. }
  assert (Hend : fst (importPFX oracle winAPIFlag fuel (Some b) data password w) <> Diverge)
    by (rewrite Hrun; discriminate).
  destruct (importPFX_outcome oracle winAPIFlag fuel b sb data password w Hsb Hr0 Hend)
    as (found & f_end & rest & res & stf & Hout & Hok & Hs & Hcl & _ & Hcases).
  rewrite Hout in Hrun. injection Hrun as Hres Hw'.
  destruct Hcases as [(Hf & g & c & Hrest & Hcode & Hres' & Hp & Herr)
                     |(e & pre & closes & post & Hres' & _)];
    [|rewrite Hres' in Hres; discriminate Hres].
  rewrite Hres' in Hres. injection Hres as <-. subst w' rest.
  exists r0, found, f_end, g, c. cbn [trace stores idents keys].
  split; [now rewrite drop_app_length|].
  split; [exact Hr0|]. split; [exact Hok|]. split; [exact Hf|]. split; [exact Hcode|].
  split; [reflexivity|]. split; [reflexivity|]. split; [reflexivity|].
  do 2 f_equal. destruct stf. cbn in *. now subst.
Qed.

Lemma X17_witness :
  let oracle := scripted pfx_script in
  let w := open_store_world in
  let sb := {| s_store := 5; s_prev := 9; s_err := None; s_closed := false |} in
  let run := importPFX oracle 0 3 (Some 0%nat) [x01] "pw" w in
  let ids := [Some 0%nat] in
  stores w !! 0%nat = Some sb
  /\ run = (Ret (ids, None), snd run)
  /\ exists r0 found f_end g c,
      drop (length (trace w)) (trace (snd run))
      = (PFXImportCertStore [x01] "pw" (importPFX_flags 0), r0)
        :: import_events (s_store sb) (rv r0) 0 found
        ++ [(CertFindCertificateInStore (rv r0)
               (Z.lor X509_ASN_ENCODING PKCS_7_ASN_ENCODING) CERT_FIND_ANY
               (import_cursor 0 found), f_end);
            (GetLastError, g);
            (CertCloseStore (rv r0), c)]
      /\ rv r0 <> 0 /\ Forall imported_ok found /\ rv f_end = 0
      /\ DWORD (rv g) = cryptENotFound
      /\ ids = pointers (length (idents w)) (length found)
      /\ idents (snd run) = idents w ++ map imported_identity found
      /\ keys (snd run) = keys w
      /\ stores (snd run)
         = stores w ++ [ {| s_store := rv r0; s_prev := 0;
                            s_err := Some (errors_Wrap (errCode cryptENotFound)
                                             "CertFindCertificateInStore failed");
                            s_closed := true |} ].
Proof.
  intros oracle w sb run ids.
  assert (Hsb : stores w !! 0%nat = Some sb) by reflexivity.
  assert (H : run = (Ret (ids, None), snd run)) by (vm_compute; reflexivity).
  split; [exact Hsb|]. split; [exact H|].
  exact (X17_successful_import_protocol oracle 0 3 0%nat sb [x01] "pw" w ids (snd run) Hsb H).
Defined.

(** X18: an import that returns an error returns no identity and has
    closed every identity it made: the context of each was released by
    a [CertFreeCertificateContext] call during the import.  When
    [PFXImportCertStore] answered NULL, the bundle was rejected and no
    store or identity was made.  Whenever it answered a store, that
    transient store was closed: its flag is set and [CertCloseStore] on
    the handle answered is the last call.  This covers an insertion that
    fails part-way and a lookup in the transient store that fails. *)
Theorem X18_failed_import_releases_what_it_made
  oracle winAPIFlag fuel b sb data password w ids e w' :
  stores w !! b = Some sb ->
  importPFX oracle winAPIFlag fuel (Some b) data password w = (Ret (ids, Some e), w') ->
  ids = []
  /\ Forall (fun id => i_ctx id = 0
                       \/ CertFreeCertificateContext (i_ctx id) ∈ calls_since w w')
       (drop (length (idents w)) (idents w'))
  /\ let r0 := oracle (trace w)
                 (PFXImportCertStore data password (importPFX_flags winAPIFlag)) in
     (rv r0 = 0 /\ stores w' = stores w /\ idents w' = idents w)
     \/ (rv r0 <> 0
         /\ exists st c,
              stores w' = stores w ++ [st]
              /\ s_store st = rv r0
              /\ s_closed st = true
              /\ last (trace w') = Some (CertCloseStore (rv r0), c)).
Proof.
  intros Hsb Hrun.
  set (c0 := PFXImportCertStore data password (importPFX_flags winAPIFlag)).
  set (r0 := oracle (trace w) c0).
  destruct (Z.eq_dec (rv r0) 0) as [Hz|Hr0].
  { destruct (importPFX_rejected oracle winAPIFlag fuel (Some b) data password w Hz)
      as (e0 & w0 & Hrej & Hst & Hids).
    rewrite Hrej in Hrun. injection Hrun as <- _ <-.
    split; [reflexivity|]. split; [|left; now repeat split].
    rewrite Hids, drop_all. constructor. }
  assert (Hend : fst (importPFX oracle winAPIFlag fuel (Some b) data password w) <> Diverge)
    by (rewrite Hrun; discriminate).
  destruct (importPFX_outcome oracle winAPIFlag fuel b sb data password w Hsb Hr0 Hend)
    as (found & f_end & rest & res & stf & Hout & Hok & Hs & Hcl & (c & Hlast) & Hcases).
  rewrite Hout in Hrun. injection Hrun as Hres Hw'.
  destruct Hcases as [(Hf & g & c' & Hrest & Hcode & Hres' & Hp & Herr)
                     |(e' & pre & closes & post & Hres' & Hrest & Hcalls & _)];
    [rewrite Hres' in Hres; discriminate Hres|].
  rewrite Hres' in Hres. injection Hres as <- _. subst w'.
  split; [reflexivity|]. cbn [trace stores idents keys]. split.
  - rewrite drop_app_length. apply Forall_forall. intros id Hin.
    destruct (Z.eq_dec (i_ctx id) 0) as [H0|H0]; [now left|right].
    unfold calls_since. cbn [trace]. rewrite drop_app_length, Hrest.
    cbn [map]. rewrite !List.map_app. cbn [map]. rewrite !List.map_app, Hcalls.
    apply elem_of_cons. right. apply elem_of_app. right.
    apply elem_of_cons. right. apply elem_of_app. right. apply elem_of_app. left.
    apply list_elem_of_In, in_flat_map. exists id. split; [now apply list_elem_of_In|].
    unfold close_calls. destruct (Z.eqb_spec (i_ctx id) 0); [contradiction|]. now left.
  - right. split; [exact Hr0|]. exists stf, c. split; [reflexivity|].
    split; [exact Hs|]. split; [exact Hcl|].
    apply last_app_Some. left.
    rewrite app_comm_cons, last_app_cons, last_cons, Hlast. reflexivity.
Qed.

Lemma X18_witness :
  let oracle := scripted failing_pfx_script in
  let w := open_store_world in
  let sb := {| s_store := 5; s_prev := 9; s_err := None; s_closed := false |} in
  let run := importPFX oracle 0 4 (Some 0%nat) [x01] "pw" w in
  let e := errors_Wrap (errCode 5) "failed to add imported certificate to MY store" in
  stores w !! 0%nat = Some sb
  /\ run = (Ret ([], Some e), snd run)
  /\ @nil ptr = []
  /\ Forall (fun id => i_ctx id = 0
                       \/ CertFreeCertificateContext (i_ctx id) ∈ calls_since w (snd run))
       (drop (length (idents w)) (idents (snd run)))
  /\ let r0 := oracle (trace w) (PFXImportCertStore [x01] "pw" (importPFX_flags 0)) in
     (rv r0 = 0 /\ stores (snd run) = stores w /\ idents (snd run) = idents w)
     \/ (rv r0 <> 0
         /\ exists st c,
              stores (snd run) = stores w ++ [st]
              /\ s_store st = rv r0
              /\ s_closed st = true
              /\ last (trace (snd run)) = Some (CertCloseStore (rv r0), c)).
Proof.
  intros oracle w sb run e.
  assert (Hsb : stores w !! 0%nat = Some sb) by reflexivity.
  assert (H : run = (Ret ([], Some e), snd run)) by (vm_compute; reflexivity).
  split; [exact Hsb|]. split; [exact H|].
  exact (X18_failed_import_releases_what_it_made oracle 0 4 0%nat sb [x01] "pw" w [] e
           (snd run) Hsb H).
Defined.

(** * Further properties of the identities and of the token store *)

(** X19: a certificate that [GetCertificate] returns was parsed from the
    encoded bytes of the identity's own context: the method reads that
    context, hands exactly those bytes to the parser, and returns them as
    the certificate's raw form.  It changes no Go object and caches
    nothing, so every call reads and parses again. *)
Theorem X19_GetCertificate_parses_the_identity_context oracle a id w cert w' :
  idents w !! a = Some id ->
  GetCertificate oracle (Some a) w = (Ret (Some cert, None), w') ->
  exists mem parsed,
    drop (length (trace w)) (trace w')
    = [(ReadCertContext (i_ctx id), mem); (x509_ParseCertificate (written mem), parsed)]
    /\ rv parsed = 0
    /\ cert_Raw cert = written mem
    /\ i_ctx id <> 0 /\ i_closed id = false
    /\ stores w' = stores w /\ idents w' = idents w /\ keys w' = keys w.
Proof.
  intros Hid. unfold GetCertificate.
  step (winIdentity_check_at a id w Hid).
  destruct (Z.eqb_spec (i_ctx id) 0) as [|H0]; [discriminate|].
  destruct (i_closed id) eqn:Hc; [discriminate|].
  step (load_at Idents a id w Hid).
  step (cgo_run oracle (ReadCertContext (i_ctx id)) w).
  set (mem := oracle (trace w) _). set (w1 := log _ w).
  step (cgo_run oracle (x509_ParseCertificate (written mem)) w1).
  set (parsed := oracle (trace w1) _).
  destruct (Z.eqb_spec (rv parsed) 0) as [Hp|]; [|discriminate].
  cbn [negb]. intros [= <- <-]. exists mem, parsed.
  subst w1. cbn [trace stores idents keys log with_trace cert_Raw].
  rewrite <- app_assoc, drop_app_length. repeat split; auto.
Qed.

Lemma X19_witness :
  let oracle := scripted resolve_script in
  let w := one_identity_world in
  let id := {| i_ctx := 9; i_signer := None; i_closed := false |} in
  let cert := {| cert_Raw := [x30; x00]; cert_PublicKey := Some ecdsa_PublicKey |} in
  let run := GetCertificate oracle (Some 0%nat) w in
  idents w !! 0%nat = Some id
  /\ run = (Ret (Some cert, None), snd run)
  /\ exists mem parsed,
      drop (length (trace w)) (trace (snd run))
      = [(ReadCertContext (i_ctx id), mem); (x509_ParseCertificate (written mem), parsed)]
      /\ rv parsed = 0
      /\ cert_Raw cert = written mem
      /\ i_ctx id <> 0 /\ i_closed id = false
      /\ stores (snd run) = stores w /\ idents (snd run) = idents w
      /\ keys (snd run) = keys w.
Proof.
  intros oracle w id cert run.
  assert (Hid : idents w !! 0%nat = Some id) by reflexivity.
  assert (H : run = (Ret (Some cert, None), snd run)) by (vm_compute; reflexivity).
  split; [exact Hid|]. split; [exact H|].
  exact (X19_GetCertificate_parses_the_identity_context oracle 0%nat id w cert (snd run) Hid H).
Defined.

(** X20: an identity that fails [_check], because its context is nil or
    it is marked closed, is refused by every checking method without a
    call and without a change: [GetCertificate] and [GetSigner] return
    the error of the check (a nil context is reported before a closed
    flag) and [Close] returns at once. *)
Theorem X20_invalid_identity_is_refused_without_a_call oracle winAPIFlag a id w :
  idents w !! a = Some id ->
  i_ctx id = 0 \/ i_closed id = true ->
  let e := if i_ctx id =? 0 then errors_New "nil certificate context"
           else errors_New "identity closed" in
  GetCertificate oracle (Some a) w = (Ret (None, Some e), w)
  /\ GetSigner oracle winAPIFlag (Some a) w = (Ret (None, Some e), w)
  /\ winIdentity_Close oracle (Some a) w = (Ret tt, w).
Proof.
  intros Hid Hbad e.
  assert (Hchk : winIdentity_check (Some a) w = (Ret (Some e), w)).
  { rewrite (winIdentity_check_at a id w Hid). subst e.
    destruct (Z.eqb_spec (i_ctx id) 0) as [|H0]; [reflexivity|].
    destruct Hbad as [|Hc]; [contradiction|]. now rewrite Hc. }
  repeat split.
  - unfold GetCertificate. now step Hchk.
  - unfold GetSigner, getPrivateKey. now step Hchk.
  - unfold winIdentity_Close. now step Hchk.
Qed.

Lemma X20_witness :
  let oracle := scripted [] in
  let w := closed_identity_world in
  let id := {| i_ctx := 9; i_signer := None; i_closed := true |} in
  let e := if i_ctx id =? 0 then errors_New "nil certificate context"
           else errors_New "identity closed" in
  idents w !! 0%nat = Some id
  /\ GetCertificate oracle (Some 0%nat) w = (Ret (None, Some e), w)
  /\ GetSigner oracle 0 (Some 0%nat) w = (Ret (None, Some e), w)
  /\ winIdentity_Close oracle (Some 0%nat) w = (Ret tt, w).
Proof.
  intros oracle w id e. split; [reflexivity|].
  apply (X20_invalid_identity_is_refused_without_a_call oracle 0 0%nat id w).
  - reflexivity.
  - right. reflexivity.
Defined.

(** X21: whenever [linuxStore.Identities] returns, it returns exactly one
    identity and a nil error.  It made two calls: the lookup of the
    certificate with the fixed serial number, which gave a certificate
    that is not nil, and the lookup of the key pair for that
    certificate; the identity pairs that certificate with that key.  It
    never returns an empty list, and never an error. *)
Theorem X21_Identities_returns_exactly_one_identity oracle store w ids err w' :
  Identities oracle store w = (Ret (ids, err), w') ->
  exists st found pair,
    store = Some st
    /\ err = None
    /\ ids = [ {| li_cert := out1 found; li_signer := out1 pair |} ]
    /\ drop (length (trace w)) (trace w')
       = [(find_certificate st, found);
          (crypto11_FindKeyPair (ls_ctx st) (out1 found), pair)]
    /\ rv found = 0 /\ out1 found <> 0 /\ rv pair = 0.
Proof.
  unfold Identities, bind, cgo, throw, ret, with_trace.
  unravel; intros H; try discriminate H. injection H as <- <- <-.
  eexists _, _, _. split; [reflexivity|]. split; [reflexivity|].
  split; [reflexivity|]. cbn [trace]. split.
  { rewrite <- app_assoc, drop_app_length. reflexivity. }
  repeat match goal with
         | H : negb _ = false |- _ => apply negb_false_iff in H
         | H : (_ =? _) = true |- _ => apply Z.eqb_eq in H
         | H : (_ =? _) = false |- _ => apply Z.eqb_neq in H
         end.
  repeat split; assumption.
Qed.

Lemma X21_witness :
  let oracle := scripted token_script in
  let run := Identities oracle token_store empty_world in
  let ids := [ {| li_cert := 3; li_signer := 4 |} ] in
  run = (Ret (ids, None), snd run)
  /\ exists st found pair,
      token_store = Some st
      /\ @None error = None
      /\ ids = [ {| li_cert := out1 found; li_signer := out1 pair |} ]
      /\ drop (length (trace empty_world)) (trace (snd run))
         = [(find_certificate st, found);
            (crypto11_FindKeyPair (ls_ctx st) (out1 found), pair)]
      /\ rv found = 0 /\ out1 found <> 0 /\ rv pair = 0.
Proof.
  intros oracle run ids.
  assert (H : run = (Ret (ids, None), snd run)) by (vm_compute; reflexivity).
  split; [exact H|].
  exact (X21_Identities_returns_exactly_one_identity oracle token_store empty_world ids None
           (snd run) H).
Defined.

(** * Further properties of the byte-level helpers *)

(** X22: the reversal loop of [capiSignHash] never indexes out of range,
    whatever the length of the buffer (empty, odd or even); it keeps the
    length, puts byte [length - 1 - i] at position [i], and applied to
    its own result gives the original buffer back. *)
Theorem X22_reversal_is_total_and_an_involution (sig : list byte) :
  exists out,
    reverse_in_place sig = Some out
    /\ length out = length sig
    /\ (forall i, (i < length sig)%nat -> out !! i = sig !! (length sig - 1 - i)%nat)
    /\ reverse_in_place out = Some sig.
Proof.
  exists (reverse sig). split; [apply reverse_in_place_reverse|].
  split; [apply length_reverse|]. split.
  - intros i Hi. rewrite reverse_lookup by exact Hi. f_equal. lia.
  - rewrite reverse_in_place_reverse. f_equal. apply reverse_involutive.
Qed.

(** ** The DER form determines the raw signature *)

Lemma Z_of_byte_inj a b : Z_of_byte a = Z_of_byte b -> a = b.
Proof.
  unfold Z_of_byte. intros H. apply N2Z.inj in H.
  pose proof (Byte.of_to_N a) as Ha. pose proof (Byte.of_to_N b) as Hb.
  rewrite H in Ha. rewrite Ha in Hb. now injection Hb.
Qed.

Lemma SetBytes_inj (a : list byte) : forall b,
  length a = length b -> SetBytes a = SetBytes b -> a = b.
Proof.
  induction a as [|x a IH]; intros [|y b] Hlen Heq; try discriminate Hlen.
  - reflexivity.
  - injection Hlen as Hlen. rewrite !SetBytes_cons, Hlen in Heq.
    pose proof (SetBytes_range a) as Ra. pose proof (SetBytes_range b) as Rb.
    rewrite Hlen in Ra.
    pose proof (Z_of_byte_range x) as Rx. pose proof (Z_of_byte_range y) as Ry.
    set (p := 256 ^ Z.of_nat (length b)) in *.
    assert (Hxy : Z_of_byte x = Z_of_byte y) by nia.
    f_equal; [now apply Z_of_byte_inj|]. apply IH; [exact Hlen|]. nia.
Qed.

Lemma length_be_bytes fuel : forall n acc,
  (length (asn1.be_bytes fuel n acc) <= fuel + length acc)%nat.
Proof.
  induction fuel as [|fuel IH]; intros n acc; cbn [asn1.be_bytes]; [lia|].
  destruct (n <=? 0); [lia|]. specialize (IH (n / 256) (byte_of_Z n :: acc)).
  cbn [length] in IH. lia.
Qed.

Lemma length_Bytes_bound n k :
  0 <= n < 2 ^ Z.of_nat k -> (length (asn1.Bytes n) <= k + 1)%nat.
Proof.
  intros [H0 Hn]. unfold asn1.Bytes.
  pose proof (length_be_bytes (S (Z.to_nat (Z.log2 n))) n []) as Hl. cbn [length] in Hl.
  destruct (Z.eq_dec n 0) as [->|Hz]; [cbn in *; lia|].
  assert (Z.log2 n < Z.of_nat k) by (apply Z.log2_lt_pow2; lia).
  pose proof (Z.log2_nonneg n). lia.
Qed.

Lemma lor_128 k : 0 <= k < 128 -> Z.lor 0x80 k = 128 + k.
Proof.
  intros Hk.
  assert (H : forallb (fun i => Z.lor 0x80 (Z.of_nat i) =? 128 + Z.of_nat i) (seq 0 128)
              = true) by (vm_compute; reflexivity).
  rewrite forallb_forall in H. specialize (H (Z.to_nat k)).
  rewrite Z2Nat.id in H by lia. apply Z.eqb_eq, H, in_seq. lia.
Qed.

(** The length octets can be read back off the front of any string. *)
Lemma length_octets_inj n m (x y : list byte) :
  Z.of_nat n < 2 ^ 64 -> Z.of_nat m < 2 ^ 64 ->
  asn1.length_octets n ++ x = asn1.length_octets m ++ y -> n = m /\ x = y.
Proof.
  intros Hn Hm. unfold asn1.length_octets.
  assert (Hlen : forall k, Z.of_nat k < 2 ^ 64 ->
                 (length (asn1.Bytes (Z.of_nat k)) < 128)%nat).
  { intros k Hk. pose proof (length_Bytes_bound (Z.of_nat k) 64) as Hb.
    change (Z.of_nat 64) with 64 in Hb. specialize (Hb ltac:(lia)). lia. }
  assert (Hfirst : forall k, Z.of_nat k < 2 ^ 64 ->
            Z_of_byte (byte_of_Z (Z.lor 0x80 (Z.of_nat (length (asn1.Bytes (Z.of_nat k))))))
            = 128 + Z.of_nat (length (asn1.Bytes (Z.of_nat k)))).
  { intros k Hk. specialize (Hlen k Hk). rewrite Z_of_byte_of_Z, lor_128 by lia.
    apply Z.mod_small. lia. }
  destruct (Nat.ltb_spec n 128) as [Hsn|Hbn], (Nat.ltb_spec m 128) as [Hsm|Hbm];
    cbn [app]; intros E; injection E as E1 E2.
  - apply (f_equal Z_of_byte) in E1. rewrite !Z_of_byte_of_Z in E1.
    rewrite !Z.mod_small in E1 by lia. split; [lia|exact E2].
  - exfalso. apply (f_equal Z_of_byte) in E1. rewrite Hfirst in E1 by exact Hm.
    rewrite Z_of_byte_of_Z, Z.mod_small in E1 by lia. lia.
  - exfalso. apply (f_equal Z_of_byte) in E1. rewrite Hfirst in E1 by exact Hn.
    rewrite Z_of_byte_of_Z, Z.mod_small in E1 by lia. lia.
  - apply (f_equal Z_of_byte) in E1. rewrite !Hfirst in E1 by assumption.
    assert (Hl : length (asn1.Bytes (Z.of_nat n)) = length (asn1.Bytes (Z.of_nat m))) by lia.
    apply app_inj_1 in E2 as [Eb Exy]; [|exact Hl]. split; [|exact Exy].
    apply (f_equal SetBytes) in Eb. rewrite !SetBytes_Bytes in Eb by lia. lia.
Qed.

(** So can a DER integer. *)
Lemma integer_inj a b (x y : list byte) :
  0 <= a -> 0 <= b ->
  Z.of_nat (length (asn1.integer_body a)) < 2 ^ 64 ->
  Z.of_nat (length (asn1.integer_body b)) < 2 ^ 64 ->
  asn1.integer a ++ x = asn1.integer b ++ y -> a = b /\ x = y.
Proof.
  intros Ha Hb Hla Hlb. unfold asn1.integer. cbn [app]. intros E. injection E as E.
  rewrite <- !app_assoc in E.
  apply length_octets_inj in E as [Hl E]; [|assumption..].
  apply app_inj_1 in E as [Eb Exy]; [|exact Hl]. split; [|exact Exy].
  apply (f_equal SetBytes) in Eb. now rewrite !SetBytes_integer_body in Eb.
Qed.

Lemma length_integer_bound (l : list byte) :
  Z.of_nat (length l) < 2 ^ 32 ->
  Z.of_nat (length (asn1.integer_body (SetBytes l))) < 2 ^ 40
  /\ Z.of_nat (length (asn1.integer (SetBytes l))) < 2 ^ 41.
Proof.
  intros Hl. pose proof (SetBytes_range l) as Hr.
  assert (Hb : (length (asn1.Bytes (SetBytes l)) <= 8 * length l + 1)%nat).
  { apply length_Bytes_bound. split; [lia|].
    replace (2 ^ Z.of_nat (8 * length l)) with (256 ^ Z.of_nat (length l)); [lia|].
    rewrite Nat2Z.inj_mul, Z.pow_mul_r by lia. reflexivity. }
  assert (Hbody : (length (asn1.integer_body (SetBytes l)) <= 8 * length l + 2)%nat).
  { unfold asn1.integer_body. destruct (asn1.Bytes (SetBytes l)) as [|c cs]; [cbn; lia|].
    destruct (Z.testbit (Z_of_byte c) 7); cbn [length] in *; lia. }
  split; [lia|].
  unfold asn1.integer. cbn [length]. rewrite length_app.
  set (k := length (asn1.integer_body (SetBytes l))) in *.
  assert (Hlo : (length (asn1.length_octets k) <= 66)%nat).
  { unfold asn1.length_octets. destruct (k <? 128)%nat; [cbn; lia|]. cbn [length].
    pose proof (length_Bytes_bound (Z.of_nat k) 64) as Hx.
    change (Z.of_nat 64) with 64 in Hx. specialize (Hx ltac:(lia)). lia. }
  lia.
Qed.

Lemma Marshal_body r1 s1 r2 s2 :
  asn1.Marshal_ecdsaSignature r1 s1 = asn1.Marshal_ecdsaSignature r2 s2 ->
  asn1.length_octets (length (asn1.integer r1 ++ asn1.integer s1))
    ++ (asn1.integer r1 ++ asn1.integer s1)
  = asn1.length_octets (length (asn1.integer r2 ++ asn1.integer s2))
      ++ (asn1.integer r2 ++ asn1.integer s2).
Proof. unfold asn1.Marshal_ecdsaSignature. intros E. now injection E. Qed.

(** X23: the conversion of a raw CNG signature to DER loses nothing.  Two
    raw signatures of the same even length (below 2^32 bytes per half)
    that [cngSignHash] converts to the same DER string are the same
    signature: the two halves are read as big-endian integers, the DER
    form determines both integers, and a half of known length is
    determined by its integer. *)
Theorem X23_der_form_determines_the_raw_signature (sig1 sig2 : list byte) h :
  length sig1 = (2 * h)%nat -> length sig2 = (2 * h)%nat ->
  Z.of_nat h < 2 ^ 32 ->
  asn1.Marshal_ecdsaSignature (SetBytes (take h sig1)) (SetBytes (drop h sig1))
  = asn1.Marshal_ecdsaSignature (SetBytes (take h sig2)) (SetBytes (drop h sig2)) ->
  sig1 = sig2.
Proof.
  intros H1 H2 Hh E.
  assert (Ht1 : length (take h sig1) = h) by (rewrite length_take; lia).
  assert (Ht2 : length (take h sig2) = h) by (rewrite length_take; lia).
  assert (Hd1 : length (drop h sig1) = h) by (rewrite length_drop; lia).
  assert (Hd2 : length (drop h sig2) = h) by (rewrite length_drop; lia).
  destruct (length_integer_bound (take h sig1)) as [Br1 Ir1]; [lia|].
  destruct (length_integer_bound (take h sig2)) as [Br2 Ir2]; [lia|].
  destruct (length_integer_bound (drop h sig1)) as [Bs1 Is1]; [lia|].
  destruct (length_integer_bound (drop h sig2)) as [Bs2 Is2]; [lia|].
  set (r1 := SetBytes (take h sig1)) in *. set (s1 := SetBytes (drop h sig1)) in *.
  set (r2 := SetBytes (take h sig2)) in *. set (s2 := SetBytes (drop h sig2)) in *.
  assert (Hr1 : 0 <= r1) by apply SetBytes_range.
  assert (Hr2 : 0 <= r2) by apply SetBytes_range.
  assert (Hs1 : 0 <= s1) by apply SetBytes_range.
  assert (Hs2 : 0 <= s2) by apply SetBytes_range.
  apply Marshal_body in E.
  apply length_octets_inj in E as [_ E];
    [|rewrite length_app; lia|rewrite length_app; lia].
  apply integer_inj in E as [Er E]; [|assumption|assumption|lia|lia].
  rewrite <- (app_nil_r (asn1.integer s1)), <- (app_nil_r (asn1.integer s2)) in E.
  apply integer_inj in E as [Es _]; [|assumption|assumption|lia|lia].
  rewrite <- (take_drop h sig1), <- (take_drop h sig2). f_equal.
  - apply SetBytes_inj; [lia|exact Er].
  - apply SetBytes_inj; [lia|exact Es].
Qed.

Lemma X23_witness :
  let sig1 := [x01; x02; x03; x04] in
  let sig2 := [x01; x02; x03; x04] in
  length sig1 = (2 * 2)%nat /\ length sig2 = (2 * 2)%nat
  /\ Z.of_nat 2 < 2 ^ 32
  /\ asn1.Marshal_ecdsaSignature (SetBytes (take 2 sig1)) (SetBytes (drop 2 sig1))
     = asn1.Marshal_ecdsaSignature (SetBytes (take 2 sig2)) (SetBytes (drop 2 sig2))
  /\ sig1 = sig2.
Proof.
  intros sig1 sig2.
  split; [reflexivity|]. split; [reflexivity|]. split; [reflexivity|].
  split; [reflexivity|].
  apply (X23_der_form_determines_the_raw_signature sig1 sig2 2); reflexivity.
Defined.

(** * Results and errors *)



(** X25: [importPFX] on a nil receiver, with a bundle that was accepted
    and holds a certificate.  Reading the target store's handle for the
    first insertion dereferences the nil pointer and the function
    panics, before anything is inserted; the deferred [Close] still
    releases the cursor context and closes the transient store, which is
    the last call. *)
Theorem X25_import_into_a_nil_store_panics_and_cleans_up
  oracle winAPIFlag fuel data password w :
  let c0 := PFXImportCertStore data password (importPFX_flags winAPIFlag) in
  let r0 := oracle (trace w) c0 in
  let find := CertFindCertificateInStore (rv r0)
                (Z.lor X509_ASN_ENCODING PKCS_7_ASN_ENCODING) CERT_FIND_ANY 0 in
  let f := oracle (trace w ++ [(c0, r0)]) find in
  rv r0 <> 0 -> rv f <> 0 ->
  exists x c,
    importPFX oracle winAPIFlag (S fuel) None data password w
    = (Panic (runtime_error "invalid memory address or nil pointer dereference"),
       {| trace := trace w ++ [(c0, r0); (find, f);
                               (CertFreeCertificateContext (rv f), x);
                               (CertCloseStore (rv r0), c)];
          stores := stores w ++ [ {| s_store := rv r0; s_prev := rv f;
                                     s_err := None; s_closed := true |} ];
          idents := idents w;
          keys := keys w |}).
Proof.
  intros c0 r0 find f Hr0 Hf. unfold importPFX. fold c0.
  step (cgo_run oracle c0 w). fold r0.
  destruct (Z.eqb_spec (rv r0) 0) as [|_]; [contradiction|].
  set (st0 := {| s_store := rv r0; s_prev := 0; s_err := None; s_closed := false |}).
  set (a := length (stores w)).
  set (w1 := {| trace := trace w ++ [(c0, r0)]; stores := stores w ++ [st0];
                idents := idents w; keys := keys w |}).
  change (bind (new Stores st0) ?k (log [(c0, r0)] w)) with (k (Some a) w1).
  cbv beta.
  assert (Hst0 : stores w1 !! a = Some st0).
  { subst w1 a. cbn. apply list_lookup_middle. reflexivity. }
  pose proof (nextCert_open oracle w1 a st0 Hst0 Hr0 eq_refl eq_refl) as Hnext.
  cbv zeta in Hnext. change (find_call st0) with find in Hnext.
  change (oracle (trace w1) find) with f in Hnext.
  destruct (Z.eqb_spec (rv f) 0) as [|_]; [contradiction|].
  set (w2 := put_store a (set_prev (rv f) st0) (log [(find, f)] w1)) in *.
  assert (Hbody : bind (import_loop oracle (S fuel) None (Some a) [])
            (fun looped : list ptr * option error =>
               match looped with
               | (_, Some err) => ret ([], Some err)
               | (idents, None) =>
                   bind (getError (Some a))
                     (fun e => match e with
                               | Some err =>
                                   bind (for_each idents (winIdentity_Close oracle))
                                     (fun _ => ret ([], Some err))
                               | None => ret (idents, None)
                               end)
               end) w1
          = (Panic (runtime_error "invalid memory address or nil pointer dereference"), w2)).
  { cbn [import_loop]. rewrite bind_assoc. step Hnext.
    destruct (Z.eqb_spec (rv f) 0) as [|_]; [contradiction|]. reflexivity. }
  assert (Hst2 : stores w2 !! a = Some (set_prev (rv f) st0)).
  { subst w2. apply put_store_lookup. eapply lookup_lt_Some, Hst0. }
  pose proof (winStore_Close_open oracle a (set_prev (rv f) st0) w2 Hst2 Hr0 eq_refl) as Hclose.
  cbv zeta in Hclose. cbn [s_prev set_prev s_store st0] in Hclose.
  destruct (Z.eqb_spec (rv f) 0) as [|_]; [contradiction|].
  eexists _, _. unfold defer. rewrite Hbody, Hclose. f_equal.
  subst w2 w1. unfold put_store, log, with_trace.
  cbn [trace stores idents keys with_objs Stores objs].
  apply world_eq.
  - rewrite <- !app_assoc. reflexivity.
  - rewrite list_insert_insert_eq. apply insert_last.
Qed.

Lemma X25_witness :
  let oracle := scripted [answer 7; answer 9] in
  let w := empty_world in
  let c0 := PFXImportCertStore [x01] "pw" (importPFX_flags 0) in
  let r0 := oracle (trace w) c0 in
  let find := CertFindCertificateInStore (rv r0)
                (Z.lor X509_ASN_ENCODING PKCS_7_ASN_ENCODING) CERT_FIND_ANY 0 in
  let f := oracle (trace w ++ [(c0, r0)]) find in
  rv r0 <> 0 /\ rv f <> 0
  /\ exists x c,
      importPFX oracle 0 (S 2) None [x01] "pw" w
      = (Panic (runtime_error "invalid memory address or nil pointer dereference"),
         {| trace := trace w ++ [(c0, r0); (find, f);
                                 (CertFreeCertificateContext (rv f), x);
                                 (CertCloseStore (rv r0), c)];
            stores := stores w ++ [ {| s_store := rv r0; s_prev := rv f;
                                       s_err := None; s_closed := true |} ];
            idents := idents w;
            keys := keys w |}).
Proof.
  intros oracle w c0 r0 find f.
  assert (H0 : rv r0 <> 0) by (vm_compute; discriminate).
  assert (H1 : rv f <> 0) by (vm_compute; discriminate).
  split; [exact H0|]. split; [exact H1|].
  exact (X25_import_into_a_nil_store_panics_and_cleans_up oracle 0 2 [x01] "pw" w H0 H1).
Defined.


(** * The enumeration on both paths *)




(** * Genuine failures *)



(** The calls of [Close] on fresh identities are releases, whose results
    the code does not test. *)
Lemma genuine_failure_closes (closes : list event) ids rest :
  map fst closes = flat_map close_calls ids ->
  genuine_failure (closes ++ rest) = genuine_failure rest.
Proof.
  intros Hc.
  assert (Hfree : Forall (fun c => exists x, c = CertFreeCertificateContext x)
                    (map fst closes)).
  { rewrite Hc. apply List.Forall_forall. intros c Hin. apply in_flat_map in Hin.
    destruct Hin as (id & _ & Hin). unfold close_calls in Hin.
    destruct (i_ctx id =? 0); [contradiction|]. destruct Hin as [<-|[]]. eauto. }
  clear Hc. induction closes as [|[c r] closes IH]; [reflexivity|].
  cbn [map fst] in Hfree. inversion Hfree as [|? ? Hhead Hrest]; subst.
  destruct Hhead as [x ->].
  cbn [app genuine_failure fst snd failed_call orb]. now apply IH.
Qed.




Section GenuineFailures.
Variable oracle : list event -> call -> reply.
Variable winAPIFlag : Z.











End GenuineFailures.

(** * Failures are values, except in [Identities] *)

